(** * Weather aggregation and degree-day estimation: a shallow embedding

    The development follows two source files of the repository:
    - [preprocess_weather_data.py]: temperature extraction, impact scoring,
      the three in-memory aggregators and their flush into the SQLite store;
    - [weather_data_integration.py]: the read-side queries
      ([find_nearest_location], [get_degree_days], [get_weather_profile],
      [get_seasonal_adjustment_factors]).

    Numbers.  Python floats are idealised as exact rationals ([Q]); numeric
    equality is [Qeq] (written [==]), as Python compares numbers by value.
    Infinities and NaN are outside the model.  Rounding is modelled where a
    property depends on it: module [B64] rounds a rational to binary64, and
    [get_seasonal_adjustment_factors_b64] is the seasonal computation with
    every operation rounded.

    Dictionaries and tables.  A Python dict is a [gmap]; an SQLite table is a
    [gmap] from its primary-key columns to its remaining columns, so that
    [INSERT OR REPLACE] is map insertion.  A [SELECT] whose result does not
    depend on the order of the rows scans the table in the order of
    [map_to_list]; [find_nearest_location], which keeps the first row of a
    scan, is given the rows in the order in which the scan returns them. *)

From Stdlib Require Import QArith Qabs Qminmax Qround Qpower Lqa Floats.
From stdpp Require Import gmap strings list fin_maps sorting.

Local Open Scope Z_scope.

(** ** Python numerics *)

Module Py.

(** [min(a, b)] keeps its first argument unless the second is strictly
    smaller; [max(a, b)] keeps its first unless the second is strictly
    larger. *)
Definition min (a b : Q) : Q := if Qlt_le_dec b a then b else a.
Definition max (a b : Q) : Q := if Qlt_le_dec a b then b else a.

(** [sum(xs)] starts from 0 and adds from the left. *)
Definition sum (xs : list Q) : Q := foldl Qplus 0%Q xs.

(** [len(xs)] as a number. *)
Definition len {A} (xs : list A) : Q := inject_Z (Z.of_nat (length xs)).

(** [sum(xs) / len(xs)], used only on non-empty lists. *)
Definition mean (xs : list Q) : Q := (sum xs / len xs)%Q.

(** [x or 0] on a number: a zero is replaced by the integer 0. *)
Definition or0 (x : Q) : Q := if Qeq_bool x 0 then 0%Q else x.

(** [d.get(k, default)] on a dict written as a literal. *)
Fixpoint dict_get {V} (d : list (string * V)) (k : string) (default : V) : V :=
  match d with
  | [] => default
  | (k', v) :: d' => if String.eqb k k' then v else dict_get d' k default
  end.

(** Truthiness of an optional string argument: [None] and [""] are false. *)
Definition truthy (s : option string) : bool :=
  match s with
  | Some s => negb (String.eqb s "")
  | None => false
  end.

End Py.

(** ** preprocess_weather_data.py *)

Definition BASE_TEMP_HEATING : Q := 65.
Definition BASE_TEMP_COOLING : Q := 65.
Definition SEVERE_WEATHER_TYPES : list string :=
  ["Cold"; "Snow"; "Thunderstorm"; "Hail"; "Hurricane"; "Tornado"; "Heat"]%string.

Definition extract_temperature (severity event_type : string) : option Q :=
  if String.eqb event_type "Cold" then
    if String.eqb severity "Extreme" then Some 10%Q
    else if String.eqb severity "Severe" then Some 20%Q
    else if String.eqb severity "Moderate" then Some 30%Q
    else Some 40%Q
  else if String.eqb event_type "Heat" then
    if String.eqb severity "Extreme" then Some 105%Q
    else if String.eqb severity "Severe" then Some 100%Q
    else if String.eqb severity "Moderate" then Some 95%Q
    else Some 90%Q
  else None.

Definition base_impacts : list (string * Q) :=
  [ ("Cold", 9); ("Heat", 8.5); ("Snow", 7); ("Thunderstorm", 6);
    ("Rain", 4); ("Fog", 2); ("Hail", 5); ("Wind", 3);
    ("Hurricane", 10); ("Tornado", 10); ("Precipitation", 3.5);
    ("Cloudy", 1) ]%string%Q.

Definition severity_multipliers : list (string * Q) :=
  [ ("Extreme", 1); ("Severe", 0.8); ("Moderate", 0.6); ("Light", 0.3);
    ("Heavy", 0.9); ("UNK", 0.5) ]%string%Q.

Definition calculate_event_impact_score
    (event_type severity : string) (duration_hours : Q) : Q :=
  let base_impact := Py.dict_get base_impacts event_type 1%Q in
  let severity_multiplier := Py.dict_get severity_multipliers severity 0.5%Q in
  let duration_factor := (Py.min duration_hours 24 / 24)%Q in
  let impact_score :=
    (base_impact * severity_multiplier * (0.5 + 0.5 * duration_factor))%Q in
  Py.min 10 impact_score.


Definition estimate_climate_zone (latitude longitude : Q) : Z :=
  let abs_lat := Qabs latitude in
  if Qlt_le_dec abs_lat 27 then 1
  else if Qlt_le_dec abs_lat 34 then 2
  else if Qlt_le_dec abs_lat 40 then 3
  else if Qlt_le_dec abs_lat 45 then 4
  else 5.

(** *** Calendar dates

    A date is the triple (year, month, day) behind an ISO string
    [YYYY-MM-DD]; on such zero-padded strings the textual comparison that
    SQLite performs is the lexicographic one on the triple. *)

Definition date : Type := Z * Z * Z.

Module Date.

Definition year (d : date) : Z := d.1.1.
Definition month (d : date) : Z := d.1.2.
Definition day (d : date) : Z := d.2.

Definition leb (a b : date) : bool :=
  (year a <? year b)
  || ((year a =? year b)
      && ((month a <? month b)
          || ((month a =? month b) && (day a <=? day b)))).

Definition is_leap (y : Z) : bool :=
  (y mod 4 =? 0) && (negb (y mod 100 =? 0) || (y mod 400 =? 0)).

Definition days_in_month (y m : Z) : Z :=
  if (m =? 2) && is_leap y then 29
  else nth (Z.to_nat m) [0; 31; 28; 31; 30; 31; 30; 31; 31; 30; 31; 30; 31] 0.

Definition days_before_month (y m : Z) : Z :=
  nth (Z.to_nat m) [0; 0; 31; 59; 90; 120; 151; 181; 212; 243; 273; 304; 334] 0
  + (if (2 <? m) && is_leap y then 1 else 0).

Definition days_before_year (y : Z) : Z :=
  let y1 := y - 1 in y1 * 365 + y1 / 4 - y1 / 100 + y1 / 400.

(** [datetime.toordinal]. *)
Definition toordinal (d : date) : Z :=
  days_before_year (year d) + days_before_month (year d) (month d) + day d.

(** The dates that [datetime.strptime(_, '%Y-%m-%d')] accepts. *)
Definition valid (d : date) : bool :=
  (1 <=? year d) && (year d <=? 9999)
  && (1 <=? month d) && (month d <=? 12)
  && (1 <=? day d) && (day d <=? days_in_month (year d) (month d)).

End Date.

(** An instant: a date and the seconds elapsed in that day. *)
Record timestamp := { ts_date : date; ts_seconds : Z }.

(** [(end - start) / pd.Timedelta(hours=1)]. *)
Definition hours_between (start_ end_ : timestamp) : Q :=
  (inject_Z ((Date.toordinal (ts_date end_) - Date.toordinal (ts_date start_)) * 86400
             + (ts_seconds end_ - ts_seconds start_)) / 3600)%Q.

(** *** Input rows

    A row of the data frame after [read_csv]; [None] is a missing cell
    (NaN).  The zip code is the text that the f-string renders.  That text
    depends on the type that [read_csv] infers for the column in the chunk
    of the row (90210 in a chunk of integers, 90210.0 in a chunk with a
    missing zip code); see [integer_zips] for the inputs on which it is the
    text of the file. *)
Record event := {
  EventId : string;
  Type_ : option string;
  Severity : option string;
  StartTime : option timestamp;
  EndTime : option timestamp;
  Precipitation : option Q;
  TimeZone : option string;
  LocationLat : Q;
  LocationLng : Q;
  City : option string;
  County : option string;
  State : option string;
  ZipCode : option string }.

(** *** In-memory aggregation state *)

Record location_entry := {
  le_zip_code : string;
  le_city : option string;
  le_county : option string;
  le_state : string;
  le_latitude : Q;
  le_longitude : Q;
  le_event_count : Z;
  le_climate_zone : Z }.

Record daily_entry := {
  de_temp_values : list Q;
  de_precipitation : Q;
  de_severe_events : Z;
  de_impact_scores : list Q }.

Record monthly_entry := {
  me_temp_values : list Q;
  me_precipitation : Q;
  me_severe_event_days : gset date;
  me_impact_scores : list Q }.

Record event_entry := {
  ee_count : Z;
  ee_duration_total : Q;
  ee_severity_values : list Q;
  ee_impact_scores : list Q }.

Record aggregates := {
  location_data : gmap string location_entry;
  daily_weather : gmap string (gmap date daily_entry);
  monthly_stats : gmap string (gmap Z (gmap Z monthly_entry));
  event_stats : gmap string (gmap string event_entry) }.

Definition no_aggregates : aggregates :=
  {| location_data := ∅; daily_weather := ∅; monthly_stats := ∅; event_stats := ∅ |}.

Definition severity_map : list (string * Q) :=
  [ ("Extreme", 4); ("Severe", 3); ("Moderate", 2); ("Light", 1);
    ("Heavy", 3.5); ("UNK", 2) ]%string%Q.

Definition is_severe (event_type : string) : bool :=
  bool_decide (event_type ∈ SEVERE_WEATHER_TYPES).

(** *** process_chunk *)

Definition new_daily_entry : daily_entry :=
  {| de_temp_values := []; de_precipitation := 0; de_severe_events := 0;
     de_impact_scores := [] |}.

Definition new_monthly_entry : monthly_entry :=
  {| me_temp_values := []; me_precipitation := 0; me_severe_event_days := ∅;
     me_impact_scores := [] |}.

Definition new_event_entry : event_entry :=
  {| ee_count := 0; ee_duration_total := 0; ee_severity_values := [];
     ee_impact_scores := [] |}.

(** [xs.append(x)] when [x] is present. *)
Definition append_if_some (xs : list Q) (x : option Q) : list Q :=
  match x with Some v => xs ++ [v] | None => xs end.

(** [total += x] when [x] is not NaN. *)
Definition add_if_some (total : Q) (x : option Q) : Q :=
  match x with Some v => (total + v)%Q | None => total end.

Definition update_location (ev : event) (zip state : string)
    (location_id : string) (ld : gmap string location_entry) :
    gmap string location_entry :=
  let ld :=
    match ld !! location_id with
    | None =>
        <[location_id :=
            {| le_zip_code := zip; le_city := City ev; le_county := County ev;
               le_state := state; le_latitude := LocationLat ev;
               le_longitude := LocationLng ev; le_event_count := 0;
               le_climate_zone :=
                 estimate_climate_zone (LocationLat ev) (LocationLng ev) |}]> ld
    | Some _ => ld
    end in
  alter (λ e, {| le_zip_code := le_zip_code e; le_city := le_city e;
                 le_county := le_county e; le_state := le_state e;
                 le_latitude := le_latitude e; le_longitude := le_longitude e;
                 le_event_count := le_event_count e + 1;
                 le_climate_zone := le_climate_zone e |}) location_id ld.

Definition update_daily (ev : event) (event_type : string) (temp : option Q)
    (impact_score : Q) (location_id : string) (local_date : date)
    (dw : gmap string (gmap date daily_entry)) :
    gmap string (gmap date daily_entry) :=
  let dates := default ∅ (dw !! location_id) in
  let d := default new_daily_entry (dates !! local_date) in
  let d :=
    {| de_temp_values := append_if_some (de_temp_values d) temp;
       de_precipitation := add_if_some (de_precipitation d) (Precipitation ev);
       de_severe_events :=
         if is_severe event_type then de_severe_events d + 1
         else de_severe_events d;
       de_impact_scores := de_impact_scores d ++ [impact_score] |} in
  <[location_id := <[local_date := d]> dates]> dw.

Definition update_monthly (ev : event) (event_type : string) (temp : option Q)
    (impact_score : Q) (location_id : string) (local_date : date)
    (year month : Z) (ms : gmap string (gmap Z (gmap Z monthly_entry))) :
    gmap string (gmap Z (gmap Z monthly_entry)) :=
  let years := default ∅ (ms !! location_id) in
  let months := default ∅ (years !! year) in
  let m := default new_monthly_entry (months !! month) in
  let m :=
    {| me_temp_values := append_if_some (me_temp_values m) temp;
       me_precipitation := add_if_some (me_precipitation m) (Precipitation ev);
       me_severe_event_days :=
         if is_severe event_type then {[local_date]} ∪ me_severe_event_days m
         else me_severe_event_days m;
       me_impact_scores := me_impact_scores m ++ [impact_score] |} in
  <[location_id := <[year := <[month := m]> months]> years]> ms.

Definition update_event_stats (event_type severity : string)
    (duration_hours impact_score : Q) (location_id : string)
    (es : gmap string (gmap string event_entry)) :
    gmap string (gmap string event_entry) :=
  let types := default ∅ (es !! location_id) in
  let e := default new_event_entry (types !! event_type) in
  let severity_value := Py.dict_get severity_map severity 2%Q in
  let e :=
    {| ee_count := ee_count e + 1;
       ee_duration_total := (ee_duration_total e + duration_hours)%Q;
       ee_severity_values := ee_severity_values e ++ [severity_value];
       ee_impact_scores := ee_impact_scores e ++ [impact_score] |} in
  <[location_id := <[event_type := e]> types]> es.

(** The body of the loop over the rows of a cleaned chunk.  Rows without a
    zip code or a state are skipped; the first four cells are present in
    every row that [dropna] keeps. *)
Definition process_event (ev : event) (st : aggregates) : aggregates :=
  match Type_ ev, Severity ev, StartTime ev, EndTime ev with
  | Some event_type, Some severity, Some start_time_utc, Some end_time_utc =>
      match ZipCode ev, State ev with
      | Some zip, Some state =>
          let duration_hours := hours_between start_time_utc end_time_utc in
          let location_id := (zip +:+ "_" +:+ state)%string in
          let local_date := ts_date start_time_utc in
          let year := Date.year local_date in
          let month := Date.month local_date in
          let temp := extract_temperature severity event_type in
          let impact_score :=
            calculate_event_impact_score event_type severity duration_hours in
          {| location_data :=
               update_location ev zip state location_id (location_data st);
             daily_weather :=
               update_daily ev event_type temp impact_score location_id
                 local_date (daily_weather st);
             monthly_stats :=
               update_monthly ev event_type temp impact_score location_id
                 local_date year month (monthly_stats st);
             event_stats :=
               update_event_stats event_type severity duration_hours
                 impact_score location_id (event_stats st) |}
      | _, _ => st
      end
  | _, _, _, _ => st
  end.

(** [chunk.dropna(subset=[start, end, type, severity])]. *)
Definition dropna (chunk : list event) : list event :=
  List.filter
    (λ ev, bool_decide (is_Some (StartTime ev)) && bool_decide (is_Some (EndTime ev))
           && bool_decide (is_Some (Type_ ev)) && bool_decide (is_Some (Severity ev)))
    chunk.

Definition process_chunk (chunk : list event) (st : aggregates) : aggregates :=
  foldl (λ st ev, process_event ev st) st (dropna chunk).

(** *** The aggregate store

    Each table maps its primary key to the other columns.  Degree-day and
    score columns always hold a number, as every writer below stores one;
    only the temperature columns can be NULL. *)

Module Db.

Record location_cols := {
  zip_code : string;
  city : option string;
  county : option string;
  state : string;
  latitude : Q;
  longitude : Q;
  climate_zone : Z;
  event_frequency : Q }.

Record daily_cols := {
  avg_temp : option Q;
  min_temp : option Q;
  max_temp : option Q;
  precipitation : Q;
  heating_degree_days : Q;
  cooling_degree_days : Q;
  severe_events : Z;
  impact_score : Q }.

Record monthly_cols := {
  month_avg_temp : option Q;
  total_heating_degree_days : Q;
  total_cooling_degree_days : Q;
  month_precipitation : Q;
  severe_event_days : Z;
  avg_impact_score : Q }.

Record event_cols := {
  count : Z;
  avg_duration : Q;
  avg_severity : Q;
  energy_impact_score : Q }.

(** Keys: [location_id]; [(date, location_id)]; [(year, month, location_id)];
    [(location_id, event_type)]. *)
Record t := {
  locations : gmap string location_cols;
  daily_weather : gmap (date * string) daily_cols;
  monthly_stats : gmap (Z * Z * string) monthly_cols;
  event_stats : gmap (string * string) event_cols }.

Definition empty : t :=
  {| locations := ∅; daily_weather := ∅; monthly_stats := ∅; event_stats := ∅ |}.

Section Writes.
Context `{Countable K} {V : Type}.

(** [conn.executemany('INSERT OR REPLACE ...', batch)]. *)
Definition executemany_replace (table : gmap K V) (batch : list (K * V)) :
    gmap K V :=
  foldl (λ tbl row, <[row.1 := row.2]> tbl) table batch.

(** [range(0, n, batch_size)]. *)
Definition batch_starts (n batch_size : nat) : list nat :=
  (λ k, k * batch_size)%nat <$> seq 0 ((n + batch_size - 1) / batch_size).

(** The slices [data[i:i+batch_size]] for [i] in [range(0, len(data), batch_size)]. *)
Definition batches (batch_size : nat) (data : list (K * V)) : list (list (K * V)) :=
  (λ i, take batch_size (drop i data)) <$> batch_starts (length data) batch_size.

Definition insert_in_batches (table : gmap K V) (data_to_insert : list (K * V)) :
    gmap K V :=
  foldl executemany_replace table (batches 1000 data_to_insert).
End Writes.

End Db.

(** *** Flushing the aggregates *)

(** [min(xs)] and [max(xs)] of a non-empty list given as head and tail. *)
Definition list_min (x : Q) (xs : list Q) : Q :=
  foldl (λ acc y, if Qlt_le_dec y acc then y else acc) x xs.
Definition list_max (x : Q) (xs : list Q) : Q :=
  foldl (λ acc y, if Qlt_le_dec acc y then y else acc) x xs.

(** [sum(xs) / len(xs)] if [xs] else 0. *)
Definition mean_or_zero (xs : list Q) : Q :=
  match xs with [] => 0%Q | _ => Py.mean xs end.

Definition daily_row (data : daily_entry) : Db.daily_cols :=
  let '(avg_temp, min_temp, max_temp, hdd, cdd) :=
    match de_temp_values data with
    | [] => (None, None, None, 0%Q, 0%Q)
    | x :: xs =>
        let avg_temp := Py.mean (x :: xs) in
        (Some avg_temp, Some (list_min x xs), Some (list_max x xs),
         Py.max 0 (BASE_TEMP_HEATING - avg_temp),
         Py.max 0 (avg_temp - BASE_TEMP_COOLING))
    end in
  let avg_impact := mean_or_zero (de_impact_scores data) in
  {| Db.avg_temp := avg_temp; Db.min_temp := min_temp; Db.max_temp := max_temp;
     Db.precipitation := de_precipitation data;
     Db.heating_degree_days := hdd; Db.cooling_degree_days := cdd;
     Db.severe_events := de_severe_events data;
     Db.impact_score := avg_impact |}.

Definition daily_data_to_insert (daily_weather : gmap string (gmap date daily_entry)) :
    list (date * string * Db.daily_cols) :=
  '(location_id, dates) ← map_to_list daily_weather;
  '(date, data) ← map_to_list dates;
  [((date, location_id), daily_row data)].

Definition save_daily_weather_data
    (daily_weather : gmap string (gmap date daily_entry))
    (table : gmap (date * string) Db.daily_cols) : gmap (date * string) Db.daily_cols :=
  Db.insert_in_batches table (daily_data_to_insert daily_weather).

Definition location_row (data : location_entry) : Db.location_cols :=
  let event_frequency := (inject_Z (le_event_count data) / 7)%Q in
  {| Db.zip_code := le_zip_code data; Db.city := le_city data;
     Db.county := le_county data; Db.state := le_state data;
     Db.latitude := le_latitude data; Db.longitude := le_longitude data;
     Db.climate_zone := le_climate_zone data;
     Db.event_frequency := event_frequency |}.

Definition location_data_to_insert (location_data : gmap string location_entry) :
    list (string * Db.location_cols) :=
  '(location_id, data) ← map_to_list location_data;
  [(location_id, location_row data)].

Definition save_location_data (location_data : gmap string location_entry)
    (table : gmap string Db.location_cols) : gmap string Db.location_cols :=
  Db.insert_in_batches table (location_data_to_insert location_data).

Definition monthly_row (data : monthly_entry) : Db.monthly_cols :=
  let avg_temp :=
    match me_temp_values data with
    | [] => None
    | _ => Some (Py.mean (me_temp_values data))
    end in
  let avg_impact := mean_or_zero (me_impact_scores data) in
  let '(total_hdd, total_cdd) :=
    match avg_temp with
    | Some avg_temp =>
        let days_in_month := 30%Q in
        ((Py.max 0 (BASE_TEMP_HEATING - avg_temp) * days_in_month)%Q,
         (Py.max 0 (avg_temp - BASE_TEMP_COOLING) * days_in_month)%Q)
    | None => (0%Q, 0%Q)
    end in
  let severe_event_days := Z.of_nat (size (me_severe_event_days data)) in
  {| Db.month_avg_temp := avg_temp;
     Db.total_heating_degree_days := total_hdd;
     Db.total_cooling_degree_days := total_cdd;
     Db.month_precipitation := me_precipitation data;
     Db.severe_event_days := severe_event_days;
     Db.avg_impact_score := avg_impact |}.

Definition monthly_data_to_insert
    (monthly_stats : gmap string (gmap Z (gmap Z monthly_entry))) :
    list (Z * Z * string * Db.monthly_cols) :=
  '(location_id, years) ← map_to_list monthly_stats;
  '(year, months) ← map_to_list years;
  '(month, data) ← map_to_list months;
  [((year, month, location_id), monthly_row data)].

Definition save_monthly_statistics
    (monthly_stats : gmap string (gmap Z (gmap Z monthly_entry)))
    (table : gmap (Z * Z * string) Db.monthly_cols) :
    gmap (Z * Z * string) Db.monthly_cols :=
  Db.insert_in_batches table (monthly_data_to_insert monthly_stats).

Definition event_row (data : event_entry) : Db.event_cols :=
  let avg_duration :=
    if 0 <? ee_count data
    then (ee_duration_total data / inject_Z (ee_count data))%Q else 0%Q in
  let avg_severity := mean_or_zero (ee_severity_values data) in
  let energy_impact := mean_or_zero (ee_impact_scores data) in
  {| Db.count := ee_count data; Db.avg_duration := avg_duration;
     Db.avg_severity := avg_severity; Db.energy_impact_score := energy_impact |}.

Definition event_data_to_insert (event_stats : gmap string (gmap string event_entry)) :
    list (string * string * Db.event_cols) :=
  '(location_id, events) ← map_to_list event_stats;
  '(event_type, data) ← map_to_list events;
  [((location_id, event_type), event_row data)].

Definition save_event_statistics (event_stats : gmap string (gmap string event_entry))
    (table : gmap (string * string) Db.event_cols) :
    gmap (string * string) Db.event_cols :=
  Db.insert_in_batches table (event_data_to_insert event_stats).

(** *** preprocess_weather_data

    The input file is the list of its chunks.  The JSON side files, the
    printed progress and the indexes do not change the tables and are left
    out. *)

Definition apply_state_filter (state_filter : option (list string))
    (chunk : list event) : list event :=
  match state_filter with
  | Some (s :: ss) =>
      List.filter
        (λ ev, match State ev with
               | Some st => bool_decide (st ∈ s :: ss)
               | None => false
               end) chunk
  | _ => chunk
  end.

Definition reached_max_chunks (max_chunks : option nat) (chunks_processed : nat) : bool :=
  match max_chunks with
  | Some (S n) => (S n <=? chunks_processed)%nat
  | _ => false
  end.

Fixpoint read_chunks (state_filter : option (list string)) (max_chunks : option nat)
    (chunks : list (list event)) (chunks_processed : nat) (st : aggregates) :
    aggregates :=
  match chunks with
  | [] => st
  | chunk :: rest =>
      let chunks_processed := S chunks_processed in
      let chunk := apply_state_filter state_filter chunk in
      let st := process_chunk chunk st in
      if reached_max_chunks max_chunks chunks_processed then st
      else read_chunks state_filter max_chunks rest chunks_processed st
  end.

Definition preprocess_weather_data (chunks : list (list event))
    (state_filter : option (list string)) (max_chunks : option nat)
    (db : Db.t) : Db.t :=
  let st := read_chunks state_filter max_chunks chunks 0 no_aggregates in
  {| Db.daily_weather := save_daily_weather_data (daily_weather st) (Db.daily_weather db);
     Db.locations := save_location_data (location_data st) (Db.locations db);
     Db.monthly_stats := save_monthly_statistics (monthly_stats st) (Db.monthly_stats db);
     Db.event_stats := save_event_statistics (event_stats st) (Db.event_stats db) |}.

(** ** weather_data_integration.py *)

(** Exceptions that the modelled queries can raise. *)
Inductive exn := ValueError | TypeError.

Inductive outcome (A : Type) :=
  | Returns (a : A)
  | Raises (e : exn).
Arguments Returns {A} a.
Arguments Raises {A} e.

(** *** SQL aggregates: NULL on an empty selection. *)
Definition sql_sum (xs : list Q) : option Q :=
  match xs with [] => None | _ => Some (Py.sum xs) end.
Definition sql_avg (xs : list Q) : option Q :=
  match xs with [] => None | _ => Some (Py.sum xs / Py.len xs)%Q end.

(** [x or 0] on a nullable number. *)
Definition opt_or0 (x : option Q) : Q :=
  match x with Some v => Py.or0 v | None => 0%Q end.

(** *** find_nearest_location

    Without an ORDER BY, SQLite returns the rows of [locations] in the order
    of their rowids; a query answered through the index on the state or on
    the zip code returns the rows of one key in rowid order too.  So the
    [fetchone] of each of the three queries gets the first row, in rowid
    order, that passes the WHERE clause.  The store keeps no rowids: the
    queries are given [rows], the rows of the table as the scan returns
    them. *)

Definition location : Type := string * Db.location_cols.

(** [rows] is a scan of the table: its rows, each primary key once, in some
    order.  What holds of every scan holds of the scan in rowid order. *)
Definition scan_of (table : gmap string Db.location_cols)
    (rows : list location) : Prop :=
  NoDup rows.*1 ∧ list_to_map rows = table.

(** [WHERE zip_code = ? AND state = ?], or [WHERE zip_code = ?] when no
    state is given. *)
Definition locations_matching (rows : list location) (zip_code : string)
    (state : option string) : list location :=
  if Py.truthy state then
    List.filter (λ r : location,
      String.eqb (Db.zip_code r.2) zip_code
      && bool_decide (Some (Db.state r.2) = state)) rows
  else
    List.filter (λ r : location, String.eqb (Db.zip_code r.2) zip_code) rows.

(** [WHERE state = ?]. *)
Definition locations_in_state (rows : list location) (state : option string) :
    list location :=
  List.filter (λ r : location, bool_decide (Some (Db.state r.2) = state)) rows.

Definition find_nearest_location (rows : list location) (zip_code : string)
    (state : option string) : option location :=
  match head (locations_matching rows zip_code state) with
  | Some row => Some row
  | None =>
      let in_state :=
        if Py.truthy state then head (locations_in_state rows state) else None in
      match in_state with
      | Some row => Some row
      | None => head rows
      end
  end.

(** *** get_degree_days *)

Record degree_days := {
  total_hdd : Q;
  total_cdd : Q;
  avg_hdd : Q;
  avg_cdd : Q;
  days_count : Z;
  is_estimated : bool;
  estimation_method : option string }.

(** Rows of [daily_weather] with the location and [start <= date <= end]. *)
Definition select_daily (db : Db.t) (location_id : string)
    (start_date end_date : date) : list Db.daily_cols :=
  snd <$> List.filter
    (λ r : date * string * Db.daily_cols,
       String.eqb r.1.2 location_id
       && Date.leb start_date r.1.1 && Date.leb r.1.1 end_date)
    (map_to_list (Db.daily_weather db)).

(** Rows of [monthly_stats] with the location and
    [((year = sy AND month >= sm) OR year > sy) AND
     ((year = ey AND month <= em) OR year < ey)]. *)
Definition select_monthly (db : Db.t) (location_id : string)
    (start_ end_ : date) : list Db.monthly_cols :=
  snd <$> List.filter
    (λ r : Z * Z * string * Db.monthly_cols,
       let year := r.1.1.1 in
       let month := r.1.1.2 in
       String.eqb r.1.2 location_id
       && (((year =? Date.year start_) && (Date.month start_ <=? month))
           || (Date.year start_ <? year))
       && (((year =? Date.year end_) && (month <=? Date.month end_))
           || (year <? Date.year end_)))
    (map_to_list (Db.monthly_stats db)).

Definition zone_estimates : list (Z * (Q * Q)) :=
  [ (1, (0.5, 8)%Q); (2, (2, 5)%Q); (3, (5, 3)%Q); (4, (8, 1)%Q);
    (5, (12, 0.5)%Q) ].

Definition zone_lookup (climate_zone : Z) : option (Q * Q) :=
  snd <$> List.find (λ e : Z * (Q * Q), e.1 =? climate_zone) zone_estimates.

(** [datetime.strptime(s, '%Y-%m-%d')]: a [ValueError] on anything that is
    not a calendar date. *)
Definition strptime (d : date) : outcome date :=
  if Date.valid d then Returns d else Raises ValueError.

Definition get_degree_days (db : Db.t) (location_id : string)
    (start_date end_date : date) : outcome degree_days :=
  let rows := select_daily db location_id start_date end_date in
  let row_total_hdd := sql_sum (Db.heating_degree_days <$> rows) in
  let row_total_cdd := sql_sum (Db.cooling_degree_days <$> rows) in
  let row_avg_hdd := sql_avg (Db.heating_degree_days <$> rows) in
  let row_avg_cdd := sql_avg (Db.cooling_degree_days <$> rows) in
  let row_days_count := Z.of_nat (length rows) in
  if row_days_count =? 0 then
    match strptime start_date with
    | Raises e => Raises e
    | Returns start_ =>
    match strptime end_date with
    | Raises e => Raises e
    | Returns end_ =>
      let days_diff := Date.toordinal end_ - Date.toordinal start_ + 1 in
      let months := select_monthly db location_id start_ end_ in
      let avg_daily_hdd :=
        sql_avg ((λ r, Db.total_heating_degree_days r / 30)%Q <$> months) in
      let avg_daily_cdd :=
        sql_avg ((λ r, Db.total_cooling_degree_days r / 30)%Q <$> months) in
      match avg_daily_hdd with
      | Some hdd =>
          match avg_daily_cdd with
          | Some cdd =>
              Returns {| total_hdd := hdd * inject_Z days_diff;
                         total_cdd := cdd * inject_Z days_diff;
                         avg_hdd := hdd; avg_cdd := cdd;
                         days_count := days_diff;
                         is_estimated := true; estimation_method := None |}
          | None => Raises TypeError
          end
      | None =>
          let generic :=
            Returns {| total_hdd := 5 * inject_Z days_diff;
                       total_cdd := 3 * inject_Z days_diff;
                       avg_hdd := 5; avg_cdd := 3;
                       days_count := days_diff;
                       is_estimated := true;
                       estimation_method := Some "generic"%string |} in
          match Db.locations db !! location_id with
          | Some loc =>
              match zone_lookup (Db.climate_zone loc) with
              | Some (est_hdd, est_cdd) =>
                  Returns {| total_hdd := est_hdd * inject_Z days_diff;
                             total_cdd := est_cdd * inject_Z days_diff;
                             avg_hdd := est_hdd; avg_cdd := est_cdd;
                             days_count := days_diff;
                             is_estimated := true;
                             estimation_method := Some "climate_zone"%string |}
              | None => generic
              end
          | None => generic
          end
      end
    end end
  else
    Returns {| total_hdd := opt_or0 row_total_hdd;
               total_cdd := opt_or0 row_total_cdd;
               avg_hdd := opt_or0 row_avg_hdd;
               avg_cdd := opt_or0 row_avg_cdd;
               days_count := row_days_count;
               is_estimated := false; estimation_method := None |}.

(** The keys of the dict that [get_degree_days] returns. *)
Definition degree_days_keys (d : degree_days) : list string :=
  ["total_hdd"; "total_cdd"; "avg_hdd"; "avg_cdd"; "days_count"; "is_estimated"]%string
  ++ match estimation_method d with
     | Some _ => ["estimation_method"%string]
     | None => []
     end.

(** *** get_weather_profile *)

Record climate_indicators := {
  annual_hdd : Q;
  annual_cdd : Q;
  heating_dominated : bool;
  cooling_dominated : bool;
  extreme_events_frequency : Z;
  severe_weather_score : Q;
  estimated_annual_energy_impact : Q }.

(** The returned dict: either [{'error': msg}] or the four-part profile. *)
Inductive profile :=
  | ProfileError (error : string)
  | Profile (loc : Db.location_cols) (monthly_data : gmap Z Db.monthly_cols)
      (event_stats : gmap string Db.event_cols)
      (indicators : climate_indicators).

Definition profile_keys (p : profile) : list string :=
  match p with
  | ProfileError _ => ["error"]
  | Profile _ _ _ _ =>
      ["location"; "monthly_data"; "event_stats"; "climate_indicators"]
  end%string.

(** [SELECT MAX(year) FROM monthly_stats WHERE location_id = ?]. *)
Definition max_year (db : Db.t) (location_id : string) : option Z :=
  foldl (λ acc (r : Z * Z * string * Db.monthly_cols),
           if String.eqb r.1.2 location_id then
             match acc with
             | Some y => Some (Z.max y r.1.1.1)
             | None => Some r.1.1.1
             end
           else acc)
        None (map_to_list (Db.monthly_stats db)).

(** [year] is the optional argument; [now_year] stands for
    [datetime.now().year].  The two cursors are ordered in the source; the
    dicts built from them are keyed by month and by event type. *)
Definition get_weather_profile (db : Db.t) (now_year : Z) (location_id : string)
    (year : option Z) : profile :=
  match Db.locations db !! location_id with
  | None => ProfileError ("Location " +:+ location_id +:+ " not found")
  | Some loc =>
      let year :=
        match year with
        | Some y => if y =? 0 then None else Some y
        | None => None
        end in
      let year :=
        match year with
        | Some y => y
        | None =>
            match max_year db location_id with
            | Some y => if y =? 0 then now_year else y
            | None => now_year
            end
        end in
      let monthly_data : gmap Z Db.monthly_cols :=
        foldl (λ md (r : Z * Z * string * Db.monthly_cols),
                 if String.eqb r.1.2 location_id && (r.1.1.1 =? year)
                 then <[r.1.1.2 := r.2]> md else md)
              ∅ (map_to_list (Db.monthly_stats db)) in
      let event_stats : gmap string Db.event_cols :=
        foldl (λ es (r : string * string * Db.event_cols),
                 if String.eqb r.1.1 location_id
                 then <[r.1.2 := r.2]> es else es)
              ∅ (map_to_list (Db.event_stats db)) in
      let months := snd <$> map_to_list monthly_data in
      let events := snd <$> map_to_list event_stats in
      let total_hdd := Py.sum (Db.total_heating_degree_days <$> months) in
      let total_cdd := Py.sum (Db.total_cooling_degree_days <$> months) in
      Profile loc monthly_data event_stats
        {| annual_hdd := total_hdd;
           annual_cdd := total_cdd;
           heating_dominated := if Qlt_le_dec total_cdd total_hdd then true else false;
           cooling_dominated := if Qlt_le_dec total_hdd total_cdd then true else false;
           extreme_events_frequency :=
             Z.of_nat (length (List.filter
               (λ e, if Qlt_le_dec 3 (Db.avg_severity e) then true else false) events));
           severe_weather_score :=
             Py.sum (Db.energy_impact_score <$> List.filter
               (λ e, if Qlt_le_dec 5 (Db.energy_impact_score e) then true else false)
               events);
           estimated_annual_energy_impact :=
             ((total_hdd * 0.5 + total_cdd * 0.7) / 1000)%Q |}
  end.

(** ** Binary64 arithmetic

    Where a property depends on rounding, a Python float is the rational it
    denotes and an operation is the exact operation followed by rounding to
    the nearest binary64 number, ties to the even significand, as IEEE 754
    has it.  Overflow is outside the model: [round] has no largest number. *)

Module B64.

(** [floor (log2 |x|)] for [x <> 0]. *)
Definition binade (x : Q) : Z :=
  let e := Z.log2 (Z.abs (Qnum x)) - Z.log2 (Zpos (Qden x)) in
  if Qle_bool (Qpower 2 e) (Qabs x) then e else e - 1.

(** The spacing of the binary64 numbers around [x]: 53 significant bits,
    and 2^-1074 below 2^-1022. *)
Definition ulp (x : Q) : Q := Qpower 2 (Z.max (binade x - 52) (-1074)).

(** The nearest integer, the even one of two nearest. *)
Definition round_half_even (x : Q) : Z :=
  let f := Qfloor x in
  match (x - inject_Z f ?= 1 # 2)%Q with
  | Lt => f
  | Gt => f + 1
  | Eq => if Z.even f then f else f + 1
  end.

Definition round (x : Q) : Q :=
  if Qeq_bool x 0 then 0%Q
  else (inject_Z (round_half_even (x / ulp x)) * ulp x)%Q.

Definition add (x y : Q) : Q := round (x + y).
Definition sub (x y : Q) : Q := round (x - y).
Definition mul (x y : Q) : Q := round (x * y).
Definition div (x y : Q) : Q := round (x / y).

(** [sum(xs)] as CPython adds floats up to version 3.11: from the left,
    starting from 0, each addition rounded. *)
Definition sum (xs : list Q) : Q := foldl add 0%Q xs.

(** [sum(xs)] as CPython adds floats from version 3.12 on: the rounding
    error of each addition is recovered and added up beside the sum
    (Neumaier's variant of compensated summation), and added at the end. *)
Definition compensated_step (acc : Q * Q) (x : Q) : Q * Q :=
  let t := add acc.1 x in
  let c :=
    if Qle_bool (Qabs x) (Qabs acc.1) then add (sub acc.1 t) x
    else add (sub x t) acc.1 in
  (t, add acc.2 c).

Definition compensated_sum (xs : list Q) : Q :=
  let total := foldl compensated_step (0%Q, 0%Q) xs in
  if Qeq_bool total.2 0 then total.1 else add total.1 total.2.

(** The number that a primitive float denotes ([None] for an infinity or
    a NaN), to compare [round] with the floats of the machine. *)
Definition of_float (f : float) : option Q :=
  match Prim2SF f with
  | S754_zero _ => Some 0%Q
  | S754_finite s m e =>
      Some ((if s then -1 else 1) * inject_Z (Zpos m) * Qpower 2 e)%Q
  | _ => None
  end.

End B64.

(** *** get_seasonal_adjustment_factors *)

(** The cursor of [SELECT month, AVG(hdd), AVG(cdd) ... GROUP BY month]:
    one entry per month that has a row for the location. *)
Definition monthly_averages (db : Db.t) (location_id : string) :
    gmap Z (option Q * option Q) :=
  let groups : gmap Z (list Db.monthly_cols) :=
    foldl (λ g (r : Z * Z * string * Db.monthly_cols),
             if String.eqb r.1.2 location_id
             then <[r.1.1.2 := default [] (g !! r.1.1.2) ++ [r.2]]> g else g)
          ∅ (map_to_list (Db.monthly_stats db)) in
  (λ rs, (sql_avg (Db.total_heating_degree_days <$> rs),
          sql_avg (Db.total_cooling_degree_days <$> rs))) <$> groups.

(** The estimate for a month without data: (hdd, cdd). *)
Definition seasonal_placeholder (month : Z) : Q * Q :=
  if bool_decide (month ∈ [12; 1; 2]) then (20, 0)%Q
  else if bool_decide (month ∈ [3; 4; 5]) then (10, 5)%Q
  else if bool_decide (month ∈ [6; 7; 8]) then (0, 20)%Q
  else (10, 5)%Q.

(** [for month in range(1, 13): if month not in monthly_data: ...]. *)
Definition fill_missing_months (monthly_data : gmap Z (Q * Q)) : gmap Z (Q * Q) :=
  foldl (λ md month,
           match md !! month with
           | None => <[month := seasonal_placeholder month]> md
           | Some _ => md
           end)
        monthly_data (seqZ 1 12).

Definition clamp_factor (factor : Q) : Q := Py.max 0.6 (Py.min 1.8 factor).

Definition get_seasonal_adjustment_factors (db : Db.t) (location_id : string) :
    gmap Z Q :=
  let monthly_data : gmap Z (Q * Q) :=
    (λ row : option Q * option Q, (opt_or0 row.1, opt_or0 row.2))
      <$> monthly_averages db location_id in
  let monthly_data := fill_missing_months monthly_data in
  let combined : gmap Z Q := (λ d : Q * Q, (d.1 + d.2)%Q) <$> monthly_data in
  let avg_combined := (Py.sum (snd <$> map_to_list combined) / 12)%Q in
  (λ c, let factor :=
          if Qlt_le_dec 0 avg_combined then (c / avg_combined)%Q else 1%Q in
        clamp_factor factor) <$> combined.

(** *** get_seasonal_adjustment_factors, with the rounding of its floats

    The same function with every operation on floats rounded.  The cursor
    is taken as [monthly_averages] gives it (the AVG of one row is that
    row's value).  The built-in [sum] is a parameter: [B64.sum] up to
    CPython 3.11, [B64.compensated_sum] from 3.12 on.  It adds the values
    of the dict in insertion order: the months of the cursor (ORDER BY
    month), then the missing months of 1..12. *)

Definition insertion_order (cursor : gmap Z (option Q * option Q)) : list Z :=
  let months := merge_sort Z.le (map_to_list cursor).*1 in
  months ++ List.filter (λ m, negb (bool_decide (m ∈ months))) (seqZ 1 12).

(** [max(0.6, min(1.8, factor))] with the two literals as floats. *)
Definition clamp_factor_b64 (factor : Q) : Q :=
  Py.max (B64.round 0.6) (Py.min (B64.round 1.8) factor).

(** [monthly_data[month]['combined'] = monthly_data[month]['hdd'] +
    monthly_data[month]['cdd']], for every month of the dict. *)
Definition combined_b64 (db : Db.t) (location_id : string) : gmap Z Q :=
  let monthly_data : gmap Z (Q * Q) :=
    (λ row : option Q * option Q, (opt_or0 row.1, opt_or0 row.2))
      <$> monthly_averages db location_id in
  (λ d : Q * Q, B64.add d.1 d.2) <$> fill_missing_months monthly_data.

(** [avg_combined = sum(data['combined'] for data in
    monthly_data.values()) / 12]. *)
Definition avg_combined_b64 (py_sum : list Q → Q) (db : Db.t)
    (location_id : string) : Q :=
  let combined := combined_b64 db location_id in
  B64.div
    (py_sum (omap (λ m, combined !! m)
               (insertion_order (monthly_averages db location_id)))) 12.

(** [factor = combined / avg_combined if avg_combined > 0 else 1.0], for
    every month of the dict. *)
Definition seasonal_ratios_b64 (py_sum : list Q → Q) (db : Db.t)
    (location_id : string) : gmap Z Q :=
  let avg_combined := avg_combined_b64 py_sum db location_id in
  (λ c, if Qlt_le_dec 0 avg_combined then B64.div c avg_combined else 1%Q)
    <$> combined_b64 db location_id.

Definition get_seasonal_adjustment_factors_b64 (py_sum : list Q → Q) (db : Db.t)
    (location_id : string) : gmap Z Q :=
  clamp_factor_b64 <$> seasonal_ratios_b64 py_sum db location_id.

(** * Specification-side definitions *)

(** ** Tables as the specification words them *)

(** The severity steps of the two temperature-bearing types: the listed
    levels, and the value for any other severity. *)
Definition step_table : list (string * (list (string * Q) * Q)) :=
  [ ("Cold", ([("Extreme", 10); ("Severe", 20); ("Moderate", 30)], 40));
    ("Heat", ([("Extreme", 105); ("Severe", 100); ("Moderate", 95)], 90)) ]%string%Q.

(** A lookup table with a default for unlisted keys. *)
Definition table_get (tbl : list (string * Q)) (default_ : Q) (k : string) : Q :=
  default default_ ((list_to_map tbl : gmap string Q) !! k).

(** min(10, base * mult * (0.5 + 0.5 * min(duration, 24) / 24)). *)
Definition score_formula (event_type severity : string) (duration : Q) : Q :=
  Qmin 10 (table_get base_impacts 1 event_type
           * table_get severity_multipliers 0.5 severity
           * (0.5 + 0.5 * (Qmin duration 24 / 24)))%Q.

(** ** The estimation tiers, one by one

    Each tier of [get_degree_days] as a function of its own that either
    produces an estimate or does not. *)

(** [(end - start).days + 1]. *)
Definition days_in_range (start_date end_date : date) : Z :=
  Date.toordinal end_date - Date.toordinal start_date + 1.

Definition exact_tier (db : Db.t) (location_id : string)
    (start_date end_date : date) : option degree_days :=
  match select_daily db location_id start_date end_date with
  | [] => None
  | rows =>
      Some {| total_hdd := opt_or0 (sql_sum (Db.heating_degree_days <$> rows));
              total_cdd := opt_or0 (sql_sum (Db.cooling_degree_days <$> rows));
              avg_hdd := opt_or0 (sql_avg (Db.heating_degree_days <$> rows));
              avg_cdd := opt_or0 (sql_avg (Db.cooling_degree_days <$> rows));
              days_count := Z.of_nat (length rows);
              is_estimated := false; estimation_method := None |}
  end.

(** The mean of the [total / 30] daily rates of the matching months, scaled
    by the number of days of the range. *)
Definition monthly_tier (db : Db.t) (location_id : string)
    (start_date end_date : date) : option degree_days :=
  match select_monthly db location_id start_date end_date with
  | [] => None
  | months =>
      let hdd := Py.mean ((λ r, Db.total_heating_degree_days r / 30)%Q <$> months) in
      let cdd := Py.mean ((λ r, Db.total_cooling_degree_days r / 30)%Q <$> months) in
      let days := days_in_range start_date end_date in
      Some {| total_hdd := hdd * inject_Z days; total_cdd := cdd * inject_Z days;
              avg_hdd := hdd; avg_cdd := cdd; days_count := days;
              is_estimated := true; estimation_method := None |}
  end.

Definition climate_zone_tier (db : Db.t) (location_id : string)
    (start_date end_date : date) : option degree_days :=
  loc ← Db.locations db !! location_id;
  est ← zone_lookup (Db.climate_zone loc);
  let days := days_in_range start_date end_date in
  Some {| total_hdd := est.1 * inject_Z days; total_cdd := est.2 * inject_Z days;
          avg_hdd := est.1; avg_cdd := est.2; days_count := days;
          is_estimated := true; estimation_method := Some "climate_zone"%string |}.

Definition generic_tier (start_date end_date : date) : degree_days :=
  let days := days_in_range start_date end_date in
  {| total_hdd := 5 * inject_Z days; total_cdd := 3 * inject_Z days;
     avg_hdd := 5; avg_cdd := 3; days_count := days;
     is_estimated := true; estimation_method := Some "generic"%string |}.

(** The result of the first tier that produces one. *)
Fixpoint first_producing (tiers : list (option degree_days)) : option degree_days :=
  match tiers with
  | [] => None
  | Some est :: _ => Some est
  | None :: rest => first_producing rest
  end.

(** No table has a row for the location. *)
Definition location_absent (db : Db.t) (location_id : string) : Prop :=
  Db.locations db !! location_id = None
  ∧ (∀ d, Db.daily_weather db !! (d, location_id) = None)
  ∧ (∀ year month, Db.monthly_stats db !! (year, month, location_id) = None)
  ∧ (∀ event_type, Db.event_stats db !! (location_id, event_type) = None).

(** ** Accuracy of a summation

    What the properties need of the built-in [sum]: on twelve equal values
    [c] that are neither tiny nor huge, the result is 12 c up to a relative
    error of 2^-49.  Both [B64.sum] and [B64.compensated_sum] are that
    accurate. *)
Definition accurate_sum (py_sum : list Q → Q) : Prop :=
  ∀ (c : Q) (xs : list Q),
    (Qpower 2 (-1000) <= c)%Q → (c <= Qpower 2 1000)%Q →
    length xs = 12%nat → Forall (λ x, x == c) xs →
    ((1 - (1 # 562949953421312)) * (12 * c) <= py_sum xs)%Q
    ∧ (py_sum xs <= (1 + (1 # 562949953421312)) * (12 * c))%Q.

(** ** Sample data *)

(** A store holding one location and one monthly row, and no daily row. *)
Definition beverly_hills : Db.location_cols :=
  {| Db.zip_code := "90210"; Db.city := Some "Beverly Hills"%string;
     Db.county := Some "Los Angeles"%string; Db.state := "CA";
     Db.latitude := 34.1; Db.longitude := -118.4; Db.climate_zone := 3;
     Db.event_frequency := 1 |}.

Definition july_row : Db.monthly_cols :=
  {| Db.month_avg_temp := Some 80%Q; Db.total_heating_degree_days := 0;
     Db.total_cooling_degree_days := 450; Db.month_precipitation := 0;
     Db.severe_event_days := 3; Db.avg_impact_score := 4.25 |}.

Definition monthly_only_db : Db.t :=
  {| Db.locations := {[ "90210_CA"%string := beverly_hills ]};
     Db.daily_weather := ∅;
     Db.monthly_stats := {[ (2021, 7, "90210_CA"%string) := july_row ]};
     Db.event_stats := ∅ |}.

(** A store with two locations; the row of New York was written first. *)
Definition manhattan : Db.location_cols :=
  {| Db.zip_code := "10001"; Db.city := Some "New York"%string;
     Db.county := Some "New York"%string; Db.state := "NY";
     Db.latitude := 40.7; Db.longitude := -74; Db.climate_zone := 4;
     Db.event_frequency := 2 |}.

Definition two_locations_db : Db.t :=
  {| Db.locations :=
       {[ "90210_CA"%string := beverly_hills; "10001_NY"%string := manhattan ]};
     Db.daily_weather := ∅;
     Db.monthly_stats := ∅;
     Db.event_stats := ∅ |}.

Definition two_location_rows : list location :=
  [("10001_NY"%string, manhattan); ("90210_CA"%string, beverly_hills)].

(** A store whose twelve months of 2021 all hold the same degree days. *)
Definition uniform_row : Db.monthly_cols :=
  {| Db.month_avg_temp := None; Db.total_heating_degree_days := 300;
     Db.total_cooling_degree_days := 150; Db.month_precipitation := 0;
     Db.severe_event_days := 0; Db.avg_impact_score := 0 |}.

Definition uniform_db : Db.t :=
  {| Db.locations := {[ "90210_CA"%string := beverly_hills ]};
     Db.daily_weather := ∅;
     Db.monthly_stats :=
       list_to_map ((λ m, ((2021, m, "90210_CA"%string), uniform_row)) <$> seqZ 1 12);
     Db.event_stats := ∅ |}.

(** A store whose twelve months of 2021 hold what the monthly flush writes,
    in floats, for a month with the three temperatures 10, 90 and 90: the
    average is 63.333333333333336 and the heating degree days
    [max(0, 65 - avg_temp) * 30] are 49.99999999999993; there are no
    cooling degree days. *)
Definition thirds_hdd : Q :=
  B64.mul (Py.max 0 (B64.sub 65 (B64.div (B64.sum [10; 90; 90]%Q) 3))) 30.

Definition thirds_row : Db.monthly_cols :=
  {| Db.month_avg_temp := Some (B64.div (B64.sum [10; 90; 90]%Q) 3);
     Db.total_heating_degree_days := thirds_hdd;
     Db.total_cooling_degree_days := 0; Db.month_precipitation := 0;
     Db.severe_event_days := 0; Db.avg_impact_score := 0 |}.

Definition thirds_db : Db.t :=
  {| Db.locations := {[ "90210_CA"%string := beverly_hills ]};
     Db.daily_weather := ∅;
     Db.monthly_stats :=
       list_to_map ((λ m, ((2021, m, "90210_CA"%string), thirds_row)) <$> seqZ 1 12);
     Db.event_stats := ∅ |}.

(** The same degree days and their sum as primitive floats. *)
Definition thirds_float : float := ((65 - (0 + 10 + 90 + 90) / 3) * 30)%float.

Definition float_sum (xs : list float) : float := foldl PrimFloat.add 0%float xs.

(** Aggregation entries for one day and for one month. *)
Definition sample_daily_entry : daily_entry :=
  {| de_temp_values := [10; 20]%Q; de_precipitation := 0.5;
     de_severe_events := 2; de_impact_scores := [5.0625; 4.5]%Q |}.

Definition july_entry : monthly_entry :=
  {| me_temp_values := [80; 82; 78]%Q; me_precipitation := 0;
     me_severe_event_days := {[ (2021, 7, 1)%Z; (2021, 7, 2)%Z; (2021, 7, 3)%Z ]};
     me_impact_scores := [4.25; 4.25; 4.25]%Q |}.

(** * Further functions of weather_data_integration.py *)

(** ** calculate_weather_normalized_consumption

    An item of the consumption series is a dict; [None] stands for a
    missing ['date'] or ['value'] key, a date that [strptime] refuses is a
    triple that is no calendar date, and a value that is present is a
    number.  The returned item is the original one, with the two added
    keys when the normalisation went through. *)
Record consumption_item := {
  item_date : option date;
  item_value : option Q }.

Record normalized_item := {
  ni_item : consumption_item;
  ni_weather_factor : option Q;
  ni_normalized_value : option Q }.

(** The keys of an item of the series and of a returned item. *)
Definition consumption_item_keys (item : consumption_item) : list string :=
  match item_date item with Some _ => ["date"%string] | None => [] end
  ++ match item_value item with Some _ => ["value"%string] | None => [] end.

Definition normalized_item_keys (r : normalized_item) : list string :=
  consumption_item_keys (ni_item r)
  ++ match ni_weather_factor r with Some _ => ["weather_factor"%string] | None => [] end
  ++ match ni_normalized_value r with
     | Some _ => ["normalized_value"%string]
     | None => []
     end.

(** The body of the loop: a [KeyError] or [ValueError] keeps the item as it
    came. *)
Definition normalize_item (adjustment_factors : gmap Z Q)
    (item : consumption_item) : normalized_item :=
  let unchanged :=
    {| ni_item := item; ni_weather_factor := None; ni_normalized_value := None |} in
  match item_date item with
  | None => unchanged
  | Some text =>
      match strptime text with
      | Raises _ => unchanged
      | Returns d =>
          let month := Date.month d in
          let factor := default 1%Q (adjustment_factors !! month) in
          match item_value item with
          | None => unchanged
          | Some value =>
              {| ni_item := item; ni_weather_factor := Some factor;
                 ni_normalized_value := Some (value / factor)%Q |}
          end
      end
  end.

Definition calculate_weather_normalized_consumption (db : Db.t)
    (consumption_data : list consumption_item) (location_id : string)
    (aggregation_period : string) : list normalized_item :=
  let adjustment_factors := get_seasonal_adjustment_factors db location_id in
  normalize_item adjustment_factors <$> consumption_data.

(** ** get_weather_impact_for_hvac

    The period is a pair of dates when it is given, and [None] when the
    argument is omitted or empty; a dict without ['start'] or ['end'] is
    outside the model.  An exception of [get_degree_days] is not caught and
    is passed on; the two divisions raise on a zero divisor. *)

Inductive hvac_exn :=
  | DegreeDaysError (e : exn)
  | ZeroDivisionError.

Record hvac_impact := {
  hvac_degree_days : degree_days;
  heating_energy_kwh : Q;
  cooling_energy_kwh : Q;
  total_energy_kwh : Q;
  estimated_annual_cost : Q;
  potential_annual_savings : Q;
  efficiency_upgrade_roi : Q }.

Inductive hvac_outcome :=
  | HvacReturns (r : hvac_impact)
  | HvacRaises (e : hvac_exn).

(** [a / b] on numbers: a zero divisor raises. *)
Definition py_div (a b : Q) : option Q :=
  if Qeq_bool b 0 then None else Some (a / b)%Q.

(** The period used when none is given: from the first day of the current
    month one year back, to today.  [now] stands for [datetime.now()]. *)
Definition default_time_period (now : date) : outcome (date * date) :=
  let end_date := now in
  let start_date := (Date.year end_date - 1, Date.month end_date, 1) in
  if Date.valid start_date then Returns (start_date, end_date)
  else Raises ValueError.

Definition get_weather_impact_for_hvac (db : Db.t) (now : date)
    (location_id : string) (system_efficiency square_footage : Q)
    (time_period : option (date * date)) : hvac_outcome :=
  let period :=
    match time_period with
    | Some p => Returns p
    | None => default_time_period now
    end in
  match period with
  | Raises e => HvacRaises (DegreeDaysError e)
  | Returns (start_, end_) =>
  match get_degree_days db location_id start_ end_ with
  | Raises e => HvacRaises (DegreeDaysError e)
  | Returns degree_days =>
      let heating_factor := 1.5%Q in
      let cooling_factor := 2%Q in
      let kWh_conversion := (1 / 3412)%Q in
      let efficiency_factor :=
        if Qlt_le_dec 0 system_efficiency then (1 / system_efficiency)%Q
        else 1.25%Q in
      let heating_energy_btu :=
        (total_hdd degree_days * square_footage * heating_factor)%Q in
      let cooling_energy_btu :=
        (total_cdd degree_days * square_footage * cooling_factor)%Q in
      let heating_energy_kwh :=
        (heating_energy_btu * kWh_conversion * efficiency_factor)%Q in
      let cooling_energy_kwh :=
        (cooling_energy_btu * kWh_conversion * efficiency_factor)%Q in
      let improved_efficiency := Py.min 0.95 (system_efficiency + 0.2) in
      match py_div 1 improved_efficiency with
      | None => HvacRaises ZeroDivisionError
      | Some improved_efficiency_factor =>
          let improved_heating_kwh :=
            (heating_energy_btu * kWh_conversion * improved_efficiency_factor)%Q in
          let improved_cooling_kwh :=
            (cooling_energy_btu * kWh_conversion * improved_efficiency_factor)%Q in
          let heating_savings := (heating_energy_kwh - improved_heating_kwh)%Q in
          let cooling_savings := (cooling_energy_kwh - improved_cooling_kwh)%Q in
          let electricity_rate := 0.14%Q in
          let annual_savings :=
            ((heating_savings + cooling_savings) * electricity_rate)%Q in
          match py_div annual_savings (square_footage * 1.5) with
          | None => HvacRaises ZeroDivisionError
          | Some roi =>
              HvacReturns
                {| hvac_degree_days := degree_days;
                   heating_energy_kwh := heating_energy_kwh;
                   cooling_energy_kwh := cooling_energy_kwh;
                   total_energy_kwh := heating_energy_kwh + cooling_energy_kwh;
                   estimated_annual_cost :=
                     (heating_energy_kwh + cooling_energy_kwh) * electricity_rate;
                   potential_annual_savings := annual_savings;
                   efficiency_upgrade_roi := roi |}
          end
      end
  end end.

(** * Further functions of preprocess_weather_data.py *)

(** ** The summary that preprocess_weather_data returns

    The counters of the chunk loop and the sizes of the aggregators.  The
    file size, the elapsed time and the database path of the summary depend
    on the environment and are left out. *)
Record summary := {
  total_rows : Z;
  chunks_processed : Z;
  filtered_rows : Z;
  total_events_processed : Z;
  locations_processed : Z;
  daily_records_created : Z }.

(** The counters that the loop over the chunks updates. *)
Record counters := {
  cnt_chunks_processed : nat;
  cnt_total_rows : Z;
  cnt_total_events_processed : Z;
  cnt_filtered_rows : Z }.

(** [if state_filter:] an absent or empty set is no filter. *)
Definition filter_given (state_filter : option (list string)) : bool :=
  match state_filter with
  | Some (_ :: _) => true
  | _ => false
  end.

(** The loop of [preprocess_weather_data] again, for its counters. *)
Fixpoint count_chunks (state_filter : option (list string)) (max_chunks : option nat)
    (chunks : list (list event)) (c : counters) : counters :=
  match chunks with
  | [] => c
  | chunk :: rest =>
      let chunks_processed := S (cnt_chunks_processed c) in
      let original_len := Z.of_nat (length chunk) in
      let chunk := apply_state_filter state_filter chunk in
      let filtered_rows :=
        if filter_given state_filter
        then cnt_filtered_rows c + (original_len - Z.of_nat (length chunk))
        else cnt_filtered_rows c in
      let chunk_rows := Z.of_nat (length chunk) in
      let c :=
        {| cnt_chunks_processed := chunks_processed;
           cnt_total_rows := cnt_total_rows c + chunk_rows;
           cnt_total_events_processed := cnt_total_events_processed c + chunk_rows;
           cnt_filtered_rows := filtered_rows |} in
      if reached_max_chunks max_chunks chunks_processed then c
      else count_chunks state_filter max_chunks rest c
  end.

(** [sum(len(days) for days in daily_weather.values())]. *)
Definition count_daily_records (daily_weather : gmap string (gmap date daily_entry)) : Z :=
  foldl (λ acc days, acc + Z.of_nat (size days)) 0 (snd <$> map_to_list daily_weather).

Definition preprocessing_summary (chunks : list (list event))
    (state_filter : option (list string)) (max_chunks : option nat) : summary :=
  let st := read_chunks state_filter max_chunks chunks 0 no_aggregates in
  let c :=
    count_chunks state_filter max_chunks chunks
      {| cnt_chunks_processed := 0; cnt_total_rows := 0;
         cnt_total_events_processed := 0; cnt_filtered_rows := 0 |} in
  {| total_rows := cnt_total_rows c;
     chunks_processed := Z.of_nat (cnt_chunks_processed c);
     filtered_rows := if filter_given state_filter then cnt_filtered_rows c else 0;
     total_events_processed := cnt_total_events_processed c;
     locations_processed := Z.of_nat (size (location_data st));
     daily_records_created := count_daily_records (daily_weather st) |}.

(** The chunks that the loop reads: all of them, or the first [max_chunks]. *)
Definition chunks_read (max_chunks : option nat) (chunks : list (list event)) :
    list (list event) :=
  match max_chunks with
  | Some (S n) => take (S n) chunks
  | _ => chunks
  end.

(** ** generate_degree_day_data

    The function writes one file [<state>_degree_days.json] per state of the
    locations table.  Its content is modelled as the pair of the dicts
    under ['monthly']['hdd'] and ['monthly']['cdd']: a number per year and
    month. *)

(** [location_states]: the location ids of each state, in cursor order. *)
Definition location_states (locations : gmap string Db.location_cols) :
    gmap string (list string) :=
  foldl (λ ls (r : string * Db.location_cols),
           let state := Db.state r.2 in
           <[state := default [] (ls !! state) ++ [r.1]]> ls)
        ∅ (map_to_list locations).

(** The body of the loop over the months of a year: both lists are created
    when the month is new in the hdd dict; a month with temperatures adds
    one sample to the side of 65 on which its mean lies.  The test
    [if month in monthly_stats[location_id][year]] of the source always
    holds inside this loop. *)
Definition add_month (month : Z) (data : monthly_entry)
    (acc : gmap Z (list Q) * gmap Z (list Q)) :
    gmap Z (list Q) * gmap Z (list Q) :=
  let '(hdd, cdd) := acc in
  let '(hdd, cdd) :=
    match hdd !! month with
    | None => (<[month := []]> hdd, <[month := []]> cdd)
    | Some _ => (hdd, cdd)
    end in
  match me_temp_values data with
  | [] => (hdd, cdd)
  | _ =>
      let avg_temp := Py.mean (me_temp_values data) in
      let hdd :=
        if Qlt_le_dec avg_temp BASE_TEMP_HEATING then
          let days_in_month := 30%Q in
          alter (λ l, l ++ [((BASE_TEMP_HEATING - avg_temp) * days_in_month)%Q]) month hdd
        else hdd in
      let cdd :=
        if Qlt_le_dec BASE_TEMP_COOLING avg_temp then
          let days_in_month := 30%Q in
          alter (λ l, l ++ [((avg_temp - BASE_TEMP_COOLING) * days_in_month)%Q]) month cdd
        else cdd in
      (hdd, cdd)
  end.

(** The body of the loop over the years of a location. *)
Definition add_year (year : Z) (months : gmap Z monthly_entry)
    (acc : gmap Z (gmap Z (list Q)) * gmap Z (gmap Z (list Q))) :
    gmap Z (gmap Z (list Q)) * gmap Z (gmap Z (list Q)) :=
  let '(hdd, cdd) := acc in
  let '(hdd, cdd) :=
    match hdd !! year with
    | None => (<[year := ∅]> hdd, <[year := ∅]> cdd)
    | Some _ => (hdd, cdd)
    end in
  let '(hdd_year, cdd_year) :=
    foldl (λ a (r : Z * monthly_entry), add_month r.1 r.2 a)
          (default ∅ (hdd !! year), default ∅ (cdd !! year)) (map_to_list months) in
  (<[year := hdd_year]> hdd, <[year := cdd_year]> cdd).

(** The body of the loop over the locations of a state. *)
Definition add_location (monthly_stats : gmap string (gmap Z (gmap Z monthly_entry)))
    (location_id : string)
    (acc : gmap Z (gmap Z (list Q)) * gmap Z (gmap Z (list Q))) :
    gmap Z (gmap Z (list Q)) * gmap Z (gmap Z (list Q)) :=
  match monthly_stats !! location_id with
  | None => acc
  | Some years => foldl (λ a (r : Z * gmap Z monthly_entry), add_year r.1 r.2 a)
                        acc (map_to_list years)
  end.

(** The content of the file of one state: each sample list is replaced by
    its mean, or by 0 when it is empty.  The second loop runs over the keys
    of the hdd dict, which are those of the cdd dict as well. *)
Definition state_degree_days
    (monthly_stats : gmap string (gmap Z (gmap Z monthly_entry)))
    (location_ids : list string) : gmap Z (gmap Z Q) * gmap Z (gmap Z Q) :=
  let '(hdd, cdd) :=
    foldl (λ a location_id, add_location monthly_stats location_id a)
          (∅, ∅) location_ids in
  ((λ months : gmap Z (list Q), mean_or_zero <$> months) <$> hdd,
   (λ months : gmap Z (list Q), mean_or_zero <$> months) <$> cdd).

Definition generate_degree_day_data
    (monthly_stats : gmap string (gmap Z (gmap Z monthly_entry)))
    (locations : gmap string Db.location_cols) :
    gmap string (gmap Z (gmap Z Q) * gmap Z (gmap Z Q)) :=
  state_degree_days monthly_stats <$> location_states locations.

(** The files that a run of [preprocess_weather_data] writes: the function
    is called after the four tables are saved. *)
Definition degree_day_files (chunks : list (list event))
    (state_filter : option (list string)) (max_chunks : option nat) (db : Db.t) :
    gmap string (gmap Z (gmap Z Q) * gmap Z (gmap Z Q)) :=
  let st := read_chunks state_filter max_chunks chunks 0 no_aggregates in
  generate_degree_day_data (monthly_stats st)
    (Db.locations (preprocess_weather_data chunks state_filter max_chunks db)).

(** The value of a file under a year and month. *)
Definition file_value (file : gmap Z (gmap Z Q)) (year month : Z) : option Q :=
  file !! year ≫= (.!! month).

(** What holds of the sample lists while they are filled: every sample is
    positive and at most [hi]. *)
Definition samples_ok (hi : Q) (samples : gmap Z (list Q)) : Prop :=
  ∀ m l, samples !! m = Some l → Forall (λ v, 0 < v <= hi)%Q l.

(** The dict has an entry under the year and month. *)
Definition has_month {A} (d : gmap Z (gmap Z A)) (year month : Z) : Prop :=
  ∃ months, d !! year = Some months ∧ is_Some (months !! month).

(** The two dicts of a state hold the same years and months, and their
    samples are within the bounds that temperatures in [10, 105] give. *)
Definition years_ok (hdd cdd : gmap Z (gmap Z (list Q))) : Prop :=
  dom hdd = dom cdd
  ∧ (∀ y hm cm, hdd !! y = Some hm → cdd !! y = Some cm → dom hm = dom cm)
  ∧ (∀ y hm, hdd !! y = Some hm → samples_ok 1650 hm)
  ∧ (∀ y cm, cdd !! y = Some cm → samples_ok 1200 cm).

(** The temperatures of every aggregated month are inferred ones. *)
Definition inferred_temperatures
    (monthly_stats : gmap string (gmap Z (gmap Z monthly_entry))) : Prop :=
  ∀ location_id years y months m data,
    monthly_stats !! location_id = Some years → years !! y = Some months →
    months !! m = Some data →
    Forall (λ t, 10 <= t <= 105)%Q (me_temp_values data).

(** * Notions used to state further properties of the pipeline *)

(** Every daily, monthly and event row belongs to a stored location: the
    foreign keys that [create_tables] declares. *)
Definition referential_integrity (db : Db.t) : Prop :=
  (∀ d location_id row,
     Db.daily_weather db !! (d, location_id) = Some row →
     is_Some (Db.locations db !! location_id))
  ∧ (∀ year month location_id row,
       Db.monthly_stats db !! (year, month, location_id) = Some row →
       is_Some (Db.locations db !! location_id))
  ∧ (∀ location_id event_type row,
       Db.event_stats db !! (location_id, event_type) = Some row →
       is_Some (Db.locations db !! location_id)).

(** The four aggregators hold the same locations. *)
Definition same_locations (st : aggregates) : Prop :=
  dom (daily_weather st) = dom (location_data st)
  ∧ dom (monthly_stats st) = dom (location_data st)
  ∧ dom (event_stats st) = dom (location_data st).

(** The location id under which [process_chunk] counts a row; [None] for a
    row that [dropna] removes or the loop skips. *)
Definition event_location_id (ev : event) : option string :=
  match Type_ ev, Severity ev, StartTime ev, EndTime ev, ZipCode ev, State ev with
  | Some _, Some _, Some _, Some _, Some zip, Some state =>
      Some (zip +:+ "_" +:+ state)%string
  | _, _, _, _, _, _ => None
  end.

(** The rows of the input that are counted for a location. *)
Definition events_of_location (location_id : string) (rows : list event) : list event :=
  List.filter (λ ev, bool_decide (event_location_id ev = Some location_id)) rows.

(** A sample input row: a three-hour extreme cold event. *)
Definition cold_event : event :=
  {| EventId := "W-1"; Type_ := Some "Cold"%string; Severity := Some "Extreme"%string;
     StartTime := Some {| ts_date := (2021, 1, 5); ts_seconds := 0 |};
     EndTime := Some {| ts_date := (2021, 1, 5); ts_seconds := 10800 |};
     Precipitation := Some 0.5%Q; TimeZone := None;
     LocationLat := 34.1%Q; LocationLng := (-118.4)%Q;
     City := Some "Beverly Hills"%string; County := Some "Los Angeles"%string;
     State := Some "CA"%string; ZipCode := Some "90210"%string |}.

(** A row without a zip code, which the loop skips. *)
Definition unlocated_event : event :=
  {| EventId := "W-2"; Type_ := Some "Rain"%string; Severity := Some "Light"%string;
     StartTime := Some {| ts_date := (2021, 1, 6); ts_seconds := 0 |};
     EndTime := Some {| ts_date := (2021, 1, 6); ts_seconds := 3600 |};
     Precipitation := None; TimeZone := None;
     LocationLat := 40.7%Q; LocationLng := (-74)%Q;
     City := None; County := None;
     State := Some "NY"%string; ZipCode := None |}.

(** A row with a zip code and a state but without a severity, which
    [dropna] removes. *)
Definition unrated_event : event :=
  {| EventId := "W-3"; Type_ := Some "Snow"%string; Severity := None;
     StartTime := Some {| ts_date := (2021, 1, 7); ts_seconds := 0 |};
     EndTime := Some {| ts_date := (2021, 1, 7); ts_seconds := 7200 |};
     Precipitation := None; TimeZone := None;
     LocationLat := 40.7%Q; LocationLng := (-74)%Q;
     City := Some "New York"%string; County := None;
     State := Some "NY"%string; ZipCode := Some "10001"%string |}.

(** *** Zip codes as the reader renders them

    [pd.read_csv] infers the type of the ZipCode column chunk by chunk, and
    [process_chunk] builds the location id from the value as it was read
    ([f"{event['ZipCode']}_{event['State']}"]).  The field [ZipCode] of the
    model is that rendered text.  When every zip code of the input is a
    decimal integer without a leading zero (of at most 18 digits), every
    chunk is read as integers and the rendered text is the text of the
    file, whatever the chunking.  A chunk with an absent zip code is read
    as floats, and the same zip code is then rendered differently from one
    chunk to another; the properties that compare inputs or chunkings are
    stated for inputs of integer zip codes. *)
Definition is_digit (c : Ascii.ascii) : bool :=
  (48 <=? Ascii.N_of_ascii c)%N && (Ascii.N_of_ascii c <=? 57)%N.

Definition integer_text (s : string) : bool :=
  match s with
  | EmptyString => false
  | String c EmptyString => is_digit c
  | String c _ =>
      negb (Ascii.N_of_ascii c =? 48)%N
      && forallb is_digit (String.list_ascii_of_string s)
      && (String.length s <=? 18)%nat
  end.

Definition has_integer_zip (ev : event) : bool :=
  match ZipCode ev with
  | Some zip => integer_text zip
  | None => false
  end.

Definition integer_zips (rows : list event) : Prop :=
  forallb has_integer_zip rows = true.

(** What holds of every entry of [location_data]: its key is built from its
    zip code and state, its zone is the one estimated from its coordinates,
    and it has counted at least one event. *)
Definition location_entry_ok (location_id : string) (e : location_entry) : Prop :=
  location_id = (le_zip_code e +:+ "_" +:+ le_state e)%string
  ∧ le_climate_zone e = estimate_climate_zone (le_latitude e) (le_longitude e)
  ∧ 1 <= le_event_count e.

(** The events counted so far for a location; 0 for a location not seen. *)
Definition event_count (st : aggregates) (location_id : string) : Z :=
  from_option le_event_count 0 (location_data st !! location_id).

(** What holds of every entry that the loop builds: temperatures are the
    inferred ones, scores are capped, counters count. *)
Definition daily_entry_ok (e : daily_entry) : Prop :=
  Forall (λ t, 10 <= t <= 105)%Q (de_temp_values e)
  ∧ Forall (λ s, s <= 10)%Q (de_impact_scores e)
  ∧ 0 <= de_severe_events e <= Z.of_nat (length (de_impact_scores e)).

Definition monthly_entry_ok (e : monthly_entry) : Prop :=
  Forall (λ t, 10 <= t <= 105)%Q (me_temp_values e)
  ∧ Forall (λ s, s <= 10)%Q (me_impact_scores e).

Definition event_entry_ok (e : event_entry) : Prop :=
  ee_count e = Z.of_nat (length (ee_severity_values e))
  ∧ length (ee_severity_values e) = length (ee_impact_scores e)
  ∧ Forall (λ s, 1 <= s <= 4)%Q (ee_severity_values e)
  ∧ Forall (λ s, s <= 10)%Q (ee_impact_scores e).

(** A store whose twelve months of 2021 hold no degree days at all. *)
Definition zero_row : Db.monthly_cols :=
  {| Db.month_avg_temp := None; Db.total_heating_degree_days := 0;
     Db.total_cooling_degree_days := 0; Db.month_precipitation := 1.5;
     Db.severe_event_days := 0; Db.avg_impact_score := 2 |}.

Definition zero_db : Db.t :=
  {| Db.locations := {[ "90210_CA"%string := beverly_hills ]};
     Db.daily_weather := ∅;
     Db.monthly_stats :=
       list_to_map ((λ m, ((2021, m, "90210_CA"%string), zero_row)) <$> seqZ 1 12);
     Db.event_stats := ∅ |}.

(** * Properties *)

Local Open Scope Q_scope.

#[local] Instance Qeq_decision (x y : Q) : Decision (x == y) := Qeq_dec x y.

(** [lra] after turning divisions by literals into multiplications. *)
Ltac qlra := unfold Qdiv in *; cbn [Qinv Qnum Qden] in *; lra.

Lemma py_min_Qmin a b : Py.min a b == Qmin a b.
Proof.
  unfold Py.min. destruct (Qlt_le_dec b a) as [Hlt | Hle].
  - symmetry. apply Q.min_r. lra.
  - symmetry. apply Q.min_l. exact Hle.
Qed.

Lemma py_max_Qmax a b : Py.max a b == Qmax a b.
Proof.
  unfold Py.max. destruct (Qlt_le_dec a b) as [Hlt | Hle].
  - symmetry. apply Q.max_r. lra.
  - symmetry. apply Q.max_l. exact Hle.
Qed.

Lemma dict_get_table_get (tbl : list (string * Q)) k d :
  Py.dict_get tbl k d = table_get tbl d k.
Proof.
  unfold table_get. induction tbl as [| [k' v] tbl IH]; simpl.
  - by rewrite lookup_empty.
  - destruct (String.eqb_spec k k') as [-> | Hne].
    + by rewrite lookup_insert_eq.
    + rewrite lookup_insert_ne by congruence. exact IH.
Qed.

(** C5: the extracted temperature is read off the two step tables from the
    event type and the severity alone: Cold gives 10, 20, 30 for Extreme,
    Severe, Moderate and 40 otherwise; Heat gives 105, 100, 95 and 90
    otherwise; any other type gives no temperature. *)
Theorem extract_temperature_step_table (severity event_type : string) :
  extract_temperature severity event_type =
    match List.find (λ e, String.eqb event_type e.1) step_table with
    | Some (_, (steps, other)) => Some (Py.dict_get steps severity other)
    | None => None
    end
  ∧ extract_temperature "Extreme" "Cold" = Some 10
  ∧ extract_temperature "Severe" "Cold" = Some 20
  ∧ extract_temperature "Moderate" "Cold" = Some 30
  ∧ (severity ∉ ["Extreme"; "Severe"; "Moderate"]%string →
     extract_temperature severity "Cold" = Some 40)
  ∧ extract_temperature "Extreme" "Heat" = Some 105
  ∧ extract_temperature "Severe" "Heat" = Some 100
  ∧ extract_temperature "Moderate" "Heat" = Some 95
  ∧ (severity ∉ ["Extreme"; "Severe"; "Moderate"]%string →
     extract_temperature severity "Heat" = Some 90)
  ∧ (event_type ∉ ["Cold"; "Heat"]%string →
     extract_temperature severity event_type = None).
Proof.
  split_and!; try reflexivity.
  - unfold extract_temperature, step_table. cbn [List.find fst].
    destruct (String.eqb event_type "Cold"); [| destruct (String.eqb event_type "Heat")];
      cbn [Py.dict_get];
      repeat match goal with
             | |- context [String.eqb severity ?s] => destruct (String.eqb severity s)
             end; reflexivity.
  - intros Hother. unfold extract_temperature. simpl.
    repeat match goal with
           | |- context [String.eqb severity ?s] =>
               destruct (String.eqb_spec severity s) as [-> | _];
               [exfalso; apply Hother; set_solver |]
           end. reflexivity.
  - intros Hother. unfold extract_temperature. simpl.
    repeat match goal with
           | |- context [String.eqb severity ?s] =>
               destruct (String.eqb_spec severity s) as [-> | _];
               [exfalso; apply Hother; set_solver |]
           end. reflexivity.
  - intros Hother. unfold extract_temperature.
    repeat match goal with
           | |- context [String.eqb event_type ?s] =>
               destruct (String.eqb_spec event_type s) as [-> | _];
               [exfalso; apply Hother; set_solver |]
           end. reflexivity.
Qed.

Lemma extract_temperature_step_table_witness :
  ("Light"%string ∉ ["Extreme"; "Severe"; "Moderate"]%string)
  ∧ ("Rain"%string ∉ ["Cold"; "Heat"]%string)
  ∧ extract_temperature "Light" "Cold" = Some 40
  ∧ extract_temperature "Light" "Heat" = Some 90
  ∧ extract_temperature "Light" "Rain" = None.
Proof.
  assert (Hsev : "Light"%string ∉ ["Extreme"; "Severe"; "Moderate"]%string).
  { apply (bool_decide_unpack _). reflexivity. }
  assert (Htype : "Rain"%string ∉ ["Cold"; "Heat"]%string).
  { apply (bool_decide_unpack _). reflexivity. }
  destruct (extract_temperature_step_table "Light" "Rain")
    as (_ & _ & _ & _ & Hcold & _ & _ & _ & Hheat & Hnone).
  split_and!; [exact Hsev | exact Htype | exact (Hcold Hsev) | exact (Hheat Hsev)
              | exact (Hnone Htype)].
Defined.

(** C2: the score is min(10, base * mult * (0.5 + 0.5 * min(duration, 24) / 24))
    with the two lookup tables and their defaults 1.0 and 0.5; a Cold event
    of severity Extreme lasting 3 hours scores 9.0 * 1.0 * 0.5625 = 5.0625. *)
Theorem impact_score_formula (event_type severity : string) (duration : Q) :
  calculate_event_impact_score event_type severity duration
    == score_formula event_type severity duration
  /\ calculate_event_impact_score "Cold" "Extreme" 3 == 9 * 1 * 0.5625
  /\ 9 * 1 * 0.5625 == 5.0625.
Proof.
  split; [| split; reflexivity].
  unfold calculate_event_impact_score, score_formula.
  rewrite !dict_get_table_get, !py_min_Qmin. reflexivity.
Qed.


Lemma dict_get_bounds (tbl : list (string * Q)) (lo hi d : Q) k :
  Forall (λ e, lo <= e.2 <= hi) tbl → lo <= d <= hi →
  lo <= Py.dict_get tbl k d <= hi.
Proof.
  intros Htbl Hd. induction Htbl as [| [k' v] tbl Hv _ IH]; simpl; [done |].
  destruct (String.eqb k k'); [exact Hv | exact IH].
Qed.

Lemma base_impact_bounds k : 0 <= Py.dict_get base_impacts k 1 <= 10.
Proof.
  apply dict_get_bounds; [| lra].
  unfold base_impacts. repeat constructor; simpl; lra.
Qed.

Lemma severity_multiplier_bounds k : 0 <= Py.dict_get severity_multipliers k 0.5 <= 1.
Proof.
  apply dict_get_bounds; [| lra].
  unfold severity_multipliers. repeat constructor; simpl; lra.
Qed.

Lemma py_min_le_mono a b c : a <= b → Py.min a c <= Py.min b c.
Proof. intros. rewrite !py_min_Qmin. apply Q.min_le_compat_r. done. Qed.

Lemma py_min_le_mono_r a b c : a <= b → Py.min c a <= Py.min c b.
Proof. intros. rewrite !py_min_Qmin. apply Q.min_le_compat_l. done. Qed.

Lemma impact_score_le_10 t s d : calculate_event_impact_score t s d <= 10.
Proof.
  unfold calculate_event_impact_score. rewrite py_min_Qmin. apply Q.le_min_l.
Qed.

Lemma impact_score_nonneg t s d :
  -24 <= d → 0 <= calculate_event_impact_score t s d.
Proof.
  intros Hd. unfold calculate_event_impact_score.
  pose proof (base_impact_bounds t) as [Hb _].
  pose proof (severity_multiplier_bounds s) as [Hm _].
  set (b := Py.dict_get base_impacts t 1) in *.
  set (m := Py.dict_get severity_multipliers s 0.5) in *.
  assert (Hf : 0 <= 0.5 + 0.5 * (Py.min d 24 / 24)).
  { unfold Py.min. destruct (Qlt_le_dec 24 d); qlra. }
  rewrite py_min_Qmin. apply Q.min_glb; [lra |].
  apply Qmult_le_0_compat; [apply Qmult_le_0_compat |]; done.
Qed.

Lemma impact_score_monotone t s d1 d2 :
  d1 <= d2 →
  calculate_event_impact_score t s d1 <= calculate_event_impact_score t s d2.
Proof.
  intros Hd. unfold calculate_event_impact_score.
  pose proof (base_impact_bounds t) as [Hb _].
  pose proof (severity_multiplier_bounds s) as [Hm _].
  set (b := Py.dict_get base_impacts t 1) in *.
  set (m := Py.dict_get severity_multipliers s 0.5) in *.
  apply py_min_le_mono_r.
  assert (Hbm : 0 <= b * m) by (apply Qmult_le_0_compat; done).
  assert (Hmin : Py.min d1 24 <= Py.min d2 24) by (apply py_min_le_mono; done).
  assert (Hf : 0.5 + 0.5 * (Py.min d1 24 / 24) <= 0.5 + 0.5 * (Py.min d2 24 / 24)) by qlra.
  rewrite !(Qmult_comm (b * m)).
  apply Qmult_le_compat_r; done.
Qed.

Lemma impact_score_constant_above_24 t s d1 d2 :
  24 <= d1 → 24 <= d2 →
  calculate_event_impact_score t s d1 == calculate_event_impact_score t s d2.
Proof.
  intros H1 H2. unfold calculate_event_impact_score.
  assert (E1 : Py.min d1 24 == 24).
  { unfold Py.min. destruct (Qlt_le_dec 24 d1); lra. }
  assert (E2 : Py.min d2 24 == 24).
  { unfold Py.min. destruct (Qlt_le_dec 24 d2); lra. }
  rewrite !py_min_Qmin in *. rewrite E1, E2. reflexivity.
Qed.

(** C3: the score is meant to lie in [0, 10]; the lemmas above give the
    upper bound for every duration, the lower bound from -24 hours on,
    monotonicity in the duration and constancy above 24 hours; but an event
    that ends 48 hours before it starts scores -4.5, below the range. *)
Theorem impact_score_negative_duration :
  calculate_event_impact_score "Cold" "Extreme" (-48) == -4.5
  /\ ~ (0 <= calculate_event_impact_score "Cold" "Extreme" (-48)).
Proof. split; [reflexivity | vm_compute; congruence]. Qed.

(** ** Writes to a table *)

Section WriteLemmas.
Context `{Countable K} {V : Type}.
Implicit Types (table : gmap K V) (rows : list (K * V)).

(** The rows of a batch as a map in which a later row wins. *)
Lemma executemany_replace_union table rows :
  Db.executemany_replace table rows = list_to_map (reverse rows) ∪ table.
Proof.
  unfold Db.executemany_replace. revert table.
  induction rows as [| [k v] rows IH]; intros table; simpl.
  - by rewrite (left_id_L ∅ (∪)).
  - rewrite IH, reverse_cons, list_to_map_app. simpl.
    rewrite insert_empty, <- (assoc_L (∪)), <- insert_union_singleton_l. done.
Qed.

Lemma foldl_executemany_concat table (bs : list (list (K * V))) :
  foldl Db.executemany_replace table bs = Db.executemany_replace table (concat bs).
Proof.
  revert table. induction bs as [| b bs IH]; intros table; simpl; [done |].
  rewrite IH. unfold Db.executemany_replace. by rewrite foldl_app.
Qed.

Lemma batch_concat_take (l : list (K * V)) (bs n : nat) :
  concat ((λ i, take bs (drop i l)) <$> ((λ k, k * bs)%nat <$> seq 0 n))
  = take (n * bs) l.
Proof.
  induction n as [| n IH]; [done |].
  rewrite seq_S, !fmap_app, concat_app, IH. simpl.
  rewrite app_nil_r, take_take_drop. f_equal. lia.
Qed.

Lemma concat_batches (bs : nat) (l : list (K * V)) :
  (0 < bs)%nat → concat (Db.batches bs l) = l.
Proof.
  intros Hbs. unfold Db.batches, Db.batch_starts.
  rewrite batch_concat_take. apply take_ge.
  pose proof (Nat.div_mod_eq (length l + bs - 1) bs) as Hdiv.
  pose proof (Nat.mod_upper_bound (length l + bs - 1) bs) as Hmod.
  nia.
Qed.

Lemma insert_in_batches_union table rows :
  Db.insert_in_batches table rows = list_to_map (reverse rows) ∪ table.
Proof.
  unfold Db.insert_in_batches.
  rewrite foldl_executemany_concat, concat_batches by lia.
  apply executemany_replace_union.
Qed.

(** Writing the same rows a second time changes nothing. *)
Lemma insert_in_batches_idemp table rows :
  Db.insert_in_batches (Db.insert_in_batches table rows) rows
  = Db.insert_in_batches table rows.
Proof.
  rewrite !insert_in_batches_union.
  by rewrite (assoc_L (∪)), (idemp_L (∪)).
Qed.

(** A row written under a key that occurs once is the row stored. *)
Lemma insert_in_batches_lookup table rows k v :
  NoDup rows.*1 → (k, v) ∈ rows → Db.insert_in_batches table rows !! k = Some v.
Proof.
  intros Hnd Hin. rewrite insert_in_batches_union.
  apply lookup_union_Some_l, elem_of_list_to_map_1.
  - by rewrite fmap_reverse, reverse_Permutation.
  - by apply elem_of_reverse.
Qed.

(** Keys that are not written keep their row. *)
Lemma insert_in_batches_lookup_other table rows k :
  k ∉ rows.*1 → Db.insert_in_batches table rows !! k = table !! k.
Proof.
  intros Hk. rewrite insert_in_batches_union.
  apply lookup_union_r, not_elem_of_list_to_map_1.
  rewrite fmap_reverse, elem_of_reverse. done.
Qed.
End WriteLemmas.

(** C6: running the pipeline a second time on the same input, over the
    store that the first run left, yields that same store: every table is
    a map on its primary key, and each row is replaced by an equal row. *)
Theorem pipeline_idempotent (chunks : list (list event))
    (state_filter : option (list string)) (max_chunks : option nat) (db : Db.t) :
  preprocess_weather_data chunks state_filter max_chunks
    (preprocess_weather_data chunks state_filter max_chunks db)
  = preprocess_weather_data chunks state_filter max_chunks db.
Proof.
  unfold preprocess_weather_data; simpl.
  unfold save_daily_weather_data, save_location_data, save_monthly_statistics,
    save_event_statistics.
  by rewrite !insert_in_batches_idemp.
Qed.

(** ** The rows that a flush writes *)

Section FlushRows.
Context `{Countable K1} `{Countable K2} {A V : Type}.

Lemma map_to_list_key_inj (m : gmap K1 A) (x1 x2 : K1 * A) :
  x1 ∈ map_to_list m → x2 ∈ map_to_list m → x1.1 = x2.1 → x1 = x2.
Proof.
  destruct x1 as [k1 a1], x2 as [k2 a2]; simpl.
  rewrite !elem_of_map_to_list. intros H1 H2 ->. congruence.
Qed.

Lemma NoDup_fst_bind {B} (l : list B) (f : B → list (K2 * V)) :
  (∀ x1 x2 k, x1 ∈ l → x2 ∈ l → k ∈ (f x1).*1 → k ∈ (f x2).*1 → x1 = x2) →
  (∀ x, x ∈ l → NoDup (f x).*1) →
  NoDup l → NoDup (l ≫= f).*1.
Proof.
  intros Hinj Hf Hl. induction Hl as [| x l Hx Hl IH]; simpl; [constructor |].
  rewrite fmap_app. apply NoDup_app. split_and!.
  - apply Hf. left.
  - intros k Hk1 Hk2.
    apply list_elem_of_fmap in Hk2 as [[k' v] [-> Hkv]].
    apply list_elem_of_bind in Hkv as [y [Hy Hyl]].
    assert (x = y) as ->.
    { apply (Hinj x y k'); [left | by right | done |].
      apply list_elem_of_fmap. by exists (k', v). }
    done.
  - apply IH.
    + intros x1 x2 k H1 H2. apply Hinj; by right.
    + intros y Hy. apply Hf. by right.
Qed.

(** Rows produced entry by entry from a dict have distinct keys when the
    key of each row determines the dict key it came from. *)
Lemma NoDup_fst_bind_map (m : gmap K1 A) (f : K1 * A → list (K2 * V))
    (proj : K2 → K1) :
  (∀ x k, x ∈ map_to_list m → k ∈ (f x).*1 → proj k = x.1) →
  (∀ x, x ∈ map_to_list m → NoDup (f x).*1) →
  NoDup (map_to_list m ≫= f).*1.
Proof.
  intros Hproj Hf. apply NoDup_fst_bind; [| done | apply NoDup_map_to_list].
  intros x1 x2 k H1 H2 Hk1 Hk2. apply (map_to_list_key_inj m); [done .. |].
  by rewrite <- (Hproj x1 k), <- (Hproj x2 k).
Qed.
End FlushRows.

Lemma daily_rows_NoDup (dw : gmap string (gmap date daily_entry)) :
  NoDup (daily_data_to_insert dw).*1.
Proof.
  unfold daily_data_to_insert.
  apply (NoDup_fst_bind_map _ _ snd).
  - intros [loc dates] k _ Hk. apply list_elem_of_fmap in Hk as [[k' v] [-> Hkv]].
    apply list_elem_of_bind in Hkv as [[d data] [Hrow _]].
    apply list_elem_of_singleton in Hrow. by inversion Hrow.
  - intros [loc dates] _. apply (NoDup_fst_bind_map _ _ fst).
    + intros [d data] k _ Hk. simpl in Hk.
      apply list_elem_of_singleton in Hk. by subst.
    + intros [d data] _. simpl. apply NoDup_singleton.
Qed.

Lemma daily_rows_elem (dw : gmap string (gmap date daily_entry)) loc dates d data :
  dw !! loc = Some dates → dates !! d = Some data →
  ((d, loc), daily_row data) ∈ daily_data_to_insert dw.
Proof.
  intros Hloc Hd. unfold daily_data_to_insert.
  apply list_elem_of_bind. exists (loc, dates). split; [| by apply elem_of_map_to_list].
  apply list_elem_of_bind. exists (d, data). split; [| by apply elem_of_map_to_list].
  apply list_elem_of_singleton. done.
Qed.

Lemma save_daily_lookup (dw : gmap string (gmap date daily_entry)) table loc dates d data :
  dw !! loc = Some dates → dates !! d = Some data →
  save_daily_weather_data dw table !! (d, loc) = Some (daily_row data).
Proof.
  intros Hloc Hd. unfold save_daily_weather_data.
  apply insert_in_batches_lookup; [apply daily_rows_NoDup | by eapply daily_rows_elem].
Qed.

Lemma monthly_rows_NoDup (ms : gmap string (gmap Z (gmap Z monthly_entry))) :
  NoDup (monthly_data_to_insert ms).*1.
Proof.
  unfold monthly_data_to_insert.
  apply (NoDup_fst_bind_map _ _ snd).
  - intros [loc years] k _ Hk. apply list_elem_of_fmap in Hk as [[k' v] [-> Hkv]].
    apply list_elem_of_bind in Hkv as [[y months] [Hrow _]].
    apply list_elem_of_bind in Hrow as [[m data] [Hrow _]].
    apply list_elem_of_singleton in Hrow. by inversion Hrow.
  - intros [loc years] _. apply (NoDup_fst_bind_map _ _ (λ k, k.1.1)).
    + intros [y months] k _ Hk. apply list_elem_of_fmap in Hk as [[k' v] [-> Hkv]].
      apply list_elem_of_bind in Hkv as [[m data] [Hrow _]].
      apply list_elem_of_singleton in Hrow. by inversion Hrow.
    + intros [y months] _. apply (NoDup_fst_bind_map _ _ (λ k, k.1.2)).
      * intros [m data] k _ Hk. simpl in Hk.
        apply list_elem_of_singleton in Hk. by subst.
      * intros [m data] _. simpl. apply NoDup_singleton.
Qed.

Lemma save_monthly_lookup (ms : gmap string (gmap Z (gmap Z monthly_entry))) table
    loc years y months m data :
  ms !! loc = Some years → years !! y = Some months → months !! m = Some data →
  save_monthly_statistics ms table !! (y, m, loc) = Some (monthly_row data).
Proof.
  intros Hloc Hy Hm. unfold save_monthly_statistics.
  apply insert_in_batches_lookup; [apply monthly_rows_NoDup |].
  unfold monthly_data_to_insert.
  apply list_elem_of_bind. exists (loc, years). split; [| by apply elem_of_map_to_list].
  apply list_elem_of_bind. exists (y, months). split; [| by apply elem_of_map_to_list].
  apply list_elem_of_bind. exists (m, data). split; [| by apply elem_of_map_to_list].
  apply list_elem_of_singleton. done.
Qed.

Lemma py_max_0_cases x :
  (x <= 0 ∧ Py.max 0 x == 0) ∨ (0 < x ∧ Py.max 0 x == x).
Proof. unfold Py.max. destruct (Qlt_le_dec 0 x); [right | left]; split; lra. Qed.

(** C4: at daily flush time the row stored under (date, location) has
    hdd = max(0, 65 - avgTemp) and cdd = max(0, avgTemp - 65) for the mean
    avgTemp of a non-empty sample list, so one of the two is zero and both are
    zero exactly when avgTemp = 65; with no sample the three temperature
    columns are absent and hdd = cdd = 0. *)
Theorem daily_flush_degree_days
    (daily_weather : gmap string (gmap date daily_entry))
    (table : gmap (date * string) Db.daily_cols)
    (location_id : string) (dates : gmap date daily_entry) (d : date)
    (data : daily_entry) :
  daily_weather !! location_id = Some dates →
  dates !! d = Some data →
  ∃ row,
    save_daily_weather_data daily_weather table !! (d, location_id) = Some row
    ∧ (de_temp_values data = [] →
         Db.avg_temp row = None ∧ Db.min_temp row = None ∧ Db.max_temp row = None
         ∧ Db.heating_degree_days row == 0 ∧ Db.cooling_degree_days row == 0)
    ∧ (de_temp_values data ≠ [] →
         let avgTemp := Py.mean (de_temp_values data) in
         let hdd := Db.heating_degree_days row in
         let cdd := Db.cooling_degree_days row in
         Db.avg_temp row = Some avgTemp
         ∧ hdd == Qmax 0 (65 - avgTemp)
         ∧ cdd == Qmax 0 (avgTemp - 65)
         ∧ (hdd == 0 ∨ cdd == 0)
         ∧ (hdd == 0 ∧ cdd == 0 ↔ avgTemp == 65)).
Proof.
  intros Hloc Hd. exists (daily_row data).
  split; [by eapply save_daily_lookup |].
  unfold daily_row. destruct (de_temp_values data) as [| x xs]; simpl.
  - split; [intros _ | done]. repeat split; reflexivity.
  - split; [done | intros _].
    unfold BASE_TEMP_HEATING, BASE_TEMP_COOLING.
    set (avg := Py.mean (x :: xs)).
    rewrite <- !py_max_Qmax.
    destruct (py_max_0_cases (65 - avg)) as [[H1 E1] | [H1 E1]];
      destruct (py_max_0_cases (avg - 65)) as [[H2 E2] | [H2 E2]];
      rewrite ?E1, ?E2; repeat split; try reflexivity; try lra;
      try (left; lra); try (right; lra); intros; lra.
Qed.


Lemma daily_flush_degree_days_witness :
  ({[ "90210_CA"%string := {[ (2021, 1, 5)%Z := sample_daily_entry ]} ]}
     : gmap string (gmap date daily_entry)) !! "90210_CA"%string
    = Some {[ (2021, 1, 5)%Z := sample_daily_entry ]}
  ∧ ({[ (2021, 1, 5)%Z := sample_daily_entry ]} : gmap date daily_entry)
      !! (2021, 1, 5)%Z = Some sample_daily_entry
  ∧ ∃ row,
      save_daily_weather_data
        {[ "90210_CA"%string := {[ (2021, 1, 5)%Z := sample_daily_entry ]} ]} ∅
        !! ((2021, 1, 5)%Z, "90210_CA"%string) = Some row
      ∧ Db.avg_temp row = Some (Py.mean [10; 20])
      ∧ Db.heating_degree_days row == 50
      ∧ Db.cooling_degree_days row == 0.
Proof.
  split; [apply lookup_singleton_eq |]. split; [apply lookup_singleton_eq |].
  destruct (daily_flush_degree_days
              {[ "90210_CA"%string := {[ (2021, 1, 5)%Z := sample_daily_entry ]} ]} ∅
              "90210_CA" {[ (2021, 1, 5)%Z := sample_daily_entry ]} (2021, 1, 5)%Z
              sample_daily_entry (lookup_singleton_eq _ _) (lookup_singleton_eq _ _))
    as (row & Hrow & _ & Hsome).
  exists row. split; [exact Hrow |].
  destruct Hsome as (Havg & Hh & Hc & _); [discriminate |].
  split; [exact Havg |]. split.
  - rewrite Hh. reflexivity.
  - rewrite Hc. reflexivity.
Defined.

(** C8: at monthly flush time the row stored under (year, month, location)
    has total_hdd = max(0, 65 - avgTemp) * 30 and
    total_cdd = max(0, avgTemp - 65) * 30 for the mean avgTemp of a non-empty
    sample list, whatever the month; with no sample both totals are 0.  With
    the samples 80, 82, 78 the total_cdd is 15 * 30. *)
Theorem monthly_flush_degree_days
    (monthly_stats : gmap string (gmap Z (gmap Z monthly_entry)))
    (table : gmap (Z * Z * string) Db.monthly_cols)
    (location_id : string) (years : gmap Z (gmap Z monthly_entry)) (year : Z)
    (months : gmap Z monthly_entry) (month : Z) (data : monthly_entry) :
  monthly_stats !! location_id = Some years →
  years !! year = Some months →
  months !! month = Some data →
  ∃ row,
    save_monthly_statistics monthly_stats table !! (year, month, location_id)
      = Some row
    ∧ (me_temp_values data = [] →
         Db.total_heating_degree_days row == 0
         ∧ Db.total_cooling_degree_days row == 0)
    ∧ (me_temp_values data ≠ [] →
         let avgTemp := Py.mean (me_temp_values data) in
         Db.total_heating_degree_days row == Qmax 0 (65 - avgTemp) * 30
         ∧ Db.total_cooling_degree_days row == Qmax 0 (avgTemp - 65) * 30)
    ∧ (me_temp_values data = [80; 82; 78] →
         Db.total_cooling_degree_days row == 15 * 30).
Proof.
  intros Hloc Hy Hm. exists (monthly_row data).
  split; [by eapply save_monthly_lookup |].
  unfold monthly_row. destruct (me_temp_values data) as [| x xs] eqn:Htemps; simpl.
  - split; [intros _; split; reflexivity |]. split; [done | discriminate].
  - split; [discriminate |].
    unfold BASE_TEMP_HEATING, BASE_TEMP_COOLING. split.
    + intros _. rewrite <- !py_max_Qmax. split; reflexivity.
    + intros [= -> ->]. reflexivity.
Qed.


Lemma monthly_flush_degree_days_witness :
  ({[ "90210_CA"%string := {[ 2021%Z := {[ 7%Z := july_entry ]} ]} ]}
     : gmap string (gmap Z (gmap Z monthly_entry))) !! "90210_CA"%string
    = Some {[ 2021%Z := {[ 7%Z := july_entry ]} ]}
  ∧ ({[ 2021%Z := {[ 7%Z := july_entry ]} ]} : gmap Z (gmap Z monthly_entry))
      !! 2021%Z = Some {[ 7%Z := july_entry ]}
  ∧ ({[ 7%Z := july_entry ]} : gmap Z monthly_entry) !! 7%Z = Some july_entry
  ∧ ∃ row,
      save_monthly_statistics
        {[ "90210_CA"%string := {[ 2021%Z := {[ 7%Z := july_entry ]} ]} ]} ∅
        !! (2021%Z, 7%Z, "90210_CA"%string) = Some row
      ∧ Db.total_heating_degree_days row == 0
      ∧ Db.total_cooling_degree_days row == 15 * 30.
Proof.
  split; [apply lookup_singleton_eq |]. split; [apply lookup_singleton_eq |].
  split; [apply lookup_singleton_eq |].
  destruct (monthly_flush_degree_days
              {[ "90210_CA"%string := {[ 2021%Z := {[ 7%Z := july_entry ]} ]} ]} ∅
              "90210_CA" {[ 2021%Z := {[ 7%Z := july_entry ]} ]} 2021%Z
              {[ 7%Z := july_entry ]} 7%Z july_entry
              (lookup_singleton_eq _ _) (lookup_singleton_eq _ _)
              (lookup_singleton_eq _ _))
    as (row & Hrow & _ & Hsome & Hscenario).
  exists row. split; [exact Hrow |]. split.
  - destruct Hsome as [Hh _]; [discriminate |]. rewrite Hh. reflexivity.
  - apply Hscenario. reflexivity.
Defined.

(** ** Degree-day queries *)

Lemma sql_avg_fmap_cons {A} (f : A → Q) x xs :
  sql_avg (f <$> x :: xs) = Some (Py.mean (f <$> x :: xs)).
Proof. reflexivity. Qed.

Lemma get_degree_days_tiers (db : Db.t) (location_id : string)
    (start_date end_date : date) :
  Date.valid start_date = true → Date.valid end_date = true →
  get_degree_days db location_id start_date end_date =
    Returns (default (generic_tier start_date end_date)
               (first_producing
                  [ exact_tier db location_id start_date end_date;
                    monthly_tier db location_id start_date end_date;
                    climate_zone_tier db location_id start_date end_date ])).
Proof.
  intros Hs He.
  unfold get_degree_days, exact_tier, monthly_tier, climate_zone_tier, strptime.
  rewrite Hs, He.
  destruct (select_daily db location_id start_date end_date) as [| r rows]; simpl.
  - destruct (select_monthly db location_id start_date end_date) as [| m months]; simpl.
    + destruct (Db.locations db !! location_id) as [loc |]; simpl; [| done].
      destruct (zone_lookup (Db.climate_zone loc)) as [[h c] |]; simpl; done.
    + done.
  - done.
Qed.

Lemma filter_nil_all_false {A} (f : A → bool) (l : list A) :
  (∀ x, x ∈ l → f x = false) → List.filter f l = [].
Proof.
  induction l as [| x l IH]; intros Hf; simpl; [done |].
  rewrite (Hf x) by left. apply IH. intros y Hy. apply Hf. by right.
Qed.

Lemma absent_select_daily db location_id start_date end_date :
  location_absent db location_id →
  select_daily db location_id start_date end_date = [].
Proof.
  intros (_ & Hdaily & _ & _). unfold select_daily.
  rewrite filter_nil_all_false; [done |].
  intros [[d l] row] Hin. apply elem_of_map_to_list in Hin. simpl.
  destruct (String.eqb_spec l location_id) as [-> | _]; [| done].
  rewrite Hdaily in Hin. done.
Qed.

Lemma absent_select_monthly db location_id start_date end_date :
  location_absent db location_id →
  select_monthly db location_id start_date end_date = [].
Proof.
  intros (_ & _ & Hmonthly & _). unfold select_monthly.
  rewrite filter_nil_all_false; [done |].
  intros [[[y m] l] row] Hin. apply elem_of_map_to_list in Hin. simpl.
  destruct (String.eqb_spec l location_id) as [-> | _]; [| done].
  rewrite Hmonthly in Hin. done.
Qed.

(** C1: the four tiers are tried in order and the first that produces an
    estimate is the result, unmixed; with no daily row and at least one
    monthly row in the range, the result is the monthly estimate (the mean
    of the total/30 rates, times the days of the range), flagged as
    estimated and carrying neither the climate-zone nor the generic tag. *)
Theorem degree_days_first_tier_wins (db : Db.t) (location_id : string)
    (start_date end_date : date) :
  Date.valid start_date = true → Date.valid end_date = true →
  ∃ est,
    get_degree_days db location_id start_date end_date = Returns est
    ∧ first_producing
        [ exact_tier db location_id start_date end_date;
          monthly_tier db location_id start_date end_date;
          climate_zone_tier db location_id start_date end_date;
          Some (generic_tier start_date end_date) ] = Some est
    ∧ (select_daily db location_id start_date end_date = [] →
       select_monthly db location_id start_date end_date ≠ [] →
       let months := select_monthly db location_id start_date end_date in
       let days := inject_Z (days_in_range start_date end_date) in
       avg_hdd est = Py.mean ((λ r, Db.total_heating_degree_days r / 30) <$> months)
       ∧ avg_cdd est = Py.mean ((λ r, Db.total_cooling_degree_days r / 30) <$> months)
       ∧ total_hdd est = avg_hdd est * days
       ∧ total_cdd est = avg_cdd est * days
       ∧ days_count est = days_in_range start_date end_date
       ∧ is_estimated est = true
       ∧ estimation_method est = None).
Proof.
  intros Hs He. rewrite get_degree_days_tiers by done.
  eexists. split; [reflexivity |]. split.
  - simpl. destruct (exact_tier _ _ _ _); [done |].
    destruct (monthly_tier _ _ _ _); [done |].
    destruct (climate_zone_tier _ _ _ _); done.
  - intros Hdaily Hmonthly. unfold exact_tier, monthly_tier. rewrite Hdaily.
    destruct (select_monthly db location_id start_date end_date); [done |].
    simpl. done.
Qed.

Lemma degree_days_first_tier_wins_witness :
  Date.valid (2021, 7, 1)%Z = true ∧ Date.valid (2021, 7, 31)%Z = true
  ∧ select_daily monthly_only_db "90210_CA" (2021, 7, 1)%Z (2021, 7, 31)%Z = []
  ∧ select_monthly monthly_only_db "90210_CA" (2021, 7, 1)%Z (2021, 7, 31)%Z ≠ []
  ∧ ∃ est,
      get_degree_days monthly_only_db "90210_CA" (2021, 7, 1)%Z (2021, 7, 31)%Z
        = Returns est
      ∧ avg_cdd est == 15 ∧ total_cdd est == 15 * 31
      ∧ days_count est = 31%Z
      ∧ is_estimated est = true ∧ estimation_method est = None.
Proof.
  assert (Hs : Date.valid (2021, 7, 1)%Z = true) by reflexivity.
  assert (He : Date.valid (2021, 7, 31)%Z = true) by reflexivity.
  assert (Hd : select_daily monthly_only_db "90210_CA" (2021, 7, 1)%Z (2021, 7, 31)%Z = [])
    by (vm_compute; reflexivity).
  assert (Hm : select_monthly monthly_only_db "90210_CA" (2021, 7, 1)%Z (2021, 7, 31)%Z
               = [july_row]) by (vm_compute; reflexivity).
  split; [exact Hs |]. split; [exact He |]. split; [exact Hd |].
  split; [rewrite Hm; discriminate |].
  destruct (degree_days_first_tier_wins monthly_only_db "90210_CA"
              (2021, 7, 1)%Z (2021, 7, 31)%Z Hs He) as (est & Hest & _ & Hmonthly).
  exists est. split; [exact Hest |].
  destruct Hmonthly as (Hah & Hac & Hth & Htc & Hdays & Hflag & Hmethod);
    [exact Hd | rewrite Hm; discriminate |].
  rewrite Htc, Hac, Hdays, Hm. repeat split; try done; reflexivity.
Defined.

(** ** Seasonal adjustment factors *)

Lemma clamp_factor_bounds x : 0.6 <= clamp_factor x <= 1.8.
Proof.
  unfold clamp_factor, Py.max, Py.min.
  destruct (Qlt_le_dec x 1.8); destruct (Qlt_le_dec 0.6 _); lra.
Qed.

Lemma clamp_factor_one x : x == 1 → clamp_factor x == 1.
Proof.
  intros Hx. unfold clamp_factor, Py.max, Py.min.
  destruct (Qlt_le_dec x 1.8); destruct (Qlt_le_dec 0.6 _); lra.
Qed.

Lemma fill_missing_months_from (ms : list Z) (md : gmap Z (Q * Q)) :
  let filled :=
    foldl (λ md month,
             match md !! month with
             | None => <[month := seasonal_placeholder month]> md
             | Some _ => md
             end) md ms in
  (∀ m, is_Some (md !! m) → filled !! m = md !! m)
  ∧ (∀ m, m ∈ ms → is_Some (filled !! m)).
Proof.
  revert md. induction ms as [| k ms IH]; intros md; simpl.
  - split; [done |]. intros m Hm. by apply elem_of_nil in Hm.
  - destruct (md !! k) as [v |] eqn:Hk.
    + destruct (IH md) as [Hkeep Hcover]. split; [done |].
      intros m [-> | Hm]%elem_of_cons; [| by apply Hcover].
      rewrite Hkeep; by rewrite Hk.
    + destruct (IH (<[k := seasonal_placeholder k]> md)) as [Hkeep Hcover]. split.
      * intros m Hm. assert (k ≠ m) by (intros ->; rewrite Hk in Hm; by destruct Hm).
        rewrite Hkeep; rewrite lookup_insert_ne by done; done.
      * intros m [-> | Hm]%elem_of_cons; [| by apply Hcover].
        rewrite Hkeep; rewrite lookup_insert_eq; done.
Qed.

Lemma fill_missing_months_covers (md : gmap Z (Q * Q)) (m : Z) :
  (1 <= m <= 12)%Z → is_Some (fill_missing_months md !! m).
Proof.
  intros Hm. apply (fill_missing_months_from (seqZ 1 12) md).
  apply elem_of_seqZ. lia.
Qed.

Lemma fill_missing_months_complete (md : gmap Z (Q * Q)) :
  (∀ m, (1 <= m <= 12)%Z → is_Some (md !! m)) → fill_missing_months md = md.
Proof.
  intros Hall. unfold fill_missing_months.
  assert (Hms : ∀ m, m ∈ seqZ 1 12 → is_Some (md !! m)).
  { intros m Hm%elem_of_seqZ. apply Hall. lia. }
  induction (seqZ 1 12) as [| k ms IH]; simpl; [done |].
  destruct (Hms k) as [v ->]; [left |]. apply IH. intros m Hm. apply Hms. by right.
Qed.

Lemma py_sum_uniform (c : Q) (xs : list Q) :
  Forall (λ x, x == c) xs → Py.sum xs == Py.len xs * c.
Proof.
  unfold Py.sum, Py.len. intros Hxs.
  assert (Hgen : ∀ a, foldl Qplus a xs == a + inject_Z (Z.of_nat (length xs)) * c).
  { induction Hxs as [| x xs Hx _ IH]; intros a; simpl length.
    - simpl. change (inject_Z (Z.of_nat 0)) with 0. lra.
    - simpl foldl. rewrite IH, Nat2Z.inj_succ. unfold Z.succ.
      rewrite inject_Z_plus, Hx. change (inject_Z 1) with 1. lra. }
  rewrite Hgen. lra.
Qed.

Lemma or0_eq x : Py.or0 x == x.
Proof.
  unfold Py.or0. destruct (Qeq_bool x 0) eqn:E; [| reflexivity].
  apply Qeq_bool_eq in E. by rewrite E.
Qed.

(** The grouping loop behind [monthly_averages]. *)
Lemma monthly_groups_inv (location_id : string)
    (rows : list (Z * Z * string * Db.monthly_cols))
    (g0 : gmap Z (list Db.monthly_cols)) :
  let g :=
    foldl (λ g (r : Z * Z * string * Db.monthly_cols),
             if String.eqb r.1.2 location_id
             then <[r.1.1.2 := default [] (g !! r.1.1.2) ++ [r.2]]> g else g)
          g0 rows in
  (∀ m, is_Some (g !! m) ↔
        is_Some (g0 !! m)
        ∨ ∃ r, r ∈ rows ∧ r.1.2 = location_id ∧ r.1.1.2 = m)
  ∧ ((∀ m l, g0 !! m = Some l → l ≠ []) → ∀ m l, g !! m = Some l → l ≠ []).
Proof.
  revert g0. induction rows as [| r rows IH]; intros g0; simpl.
  - split; [| done]. intros m. split; [by left |].
    intros [? | (r & Hr & _)]; [done |]. by apply elem_of_nil in Hr.
  - destruct (String.eqb_spec r.1.2 location_id) as [Hloc | Hloc].
    + destruct (IH (<[r.1.1.2 := default [] (g0 !! r.1.1.2) ++ [r.2]]> g0))
        as [Hdom Hne].
      split.
      * intros m. rewrite Hdom. split.
        -- intros [Hins | (r' & Hr' & ? & ?)].
           ++ destruct (decide (r.1.1.2 = m)) as [<- | Hm].
              ** right. exists r. split; [left | done].
              ** left. by rewrite lookup_insert_ne in Hins.
           ++ right. exists r'. split; [by right | done].
        -- intros [Hg0 | (r' & Hr' & ? & ?)].
           ++ left. destruct (decide (r.1.1.2 = m)) as [<- | Hm].
              ** rewrite lookup_insert_eq. by eexists.
              ** by rewrite lookup_insert_ne.
           ++ apply elem_of_cons in Hr' as [-> | Hr'].
              ** left. subst m. rewrite lookup_insert_eq. by eexists.
              ** right. by exists r'.
      * intros Hg0. apply Hne. intros m l.
        destruct (decide (r.1.1.2 = m)) as [<- | Hm].
        -- rewrite lookup_insert_eq. intros [= <-].
           by destruct (default [] (g0 !! r.1.1.2)).
        -- rewrite lookup_insert_ne by done. apply Hg0.
    + destruct (IH g0) as [Hdom Hne]. split; [| done].
      intros m. rewrite Hdom. split.
      * intros [? | (r' & Hr' & ? & ?)]; [by left |].
        right. exists r'. split; [by right | done].
      * intros [? | (r' & Hr' & ? & ?)]; [by left |].
        apply elem_of_cons in Hr' as [-> | Hr']; [done |].
        right. by exists r'.
Qed.

(** A month has averages exactly when the table has a row of that month
    for the location. *)
Lemma monthly_averages_is_Some (db : Db.t) (location_id : string) (m : Z) :
  is_Some (monthly_averages db location_id !! m) ↔
  ∃ year row, Db.monthly_stats db !! (year, m, location_id) = Some row.
Proof.
  unfold monthly_averages. rewrite lookup_fmap, fmap_is_Some.
  rewrite (proj1 (monthly_groups_inv location_id _ ∅)).
  rewrite lookup_empty. split.
  - intros [[? ?] | ([[[y m'] l] row] & Hr & Hl & Hm)]; [done |].
    simpl in *. subst. apply elem_of_map_to_list in Hr. by exists y, row.
  - intros (y & row & Hrow). right. exists ((y, m, location_id), row).
    split; [by apply elem_of_map_to_list | done].
Qed.

(** Both averages of a month that has rows are numbers. *)
Lemma monthly_averages_numbers (db : Db.t) (location_id : string) (m : Z)
    (row : option Q * option Q) :
  monthly_averages db location_id !! m = Some row →
  ∃ hdd cdd, row = (Some hdd, Some cdd).
Proof.
  unfold monthly_averages. rewrite lookup_fmap. intros [rs [Hrs ->]]%fmap_Some.
  apply (proj2 (monthly_groups_inv location_id _ ∅)) in Hrs; [| done].
  destruct rs as [| r rs]; [done |]. by eexists _, _.
Qed.

(** ** Nearest location *)

Lemma head_filter_elem {A} (f : A → bool) (l : list A) x :
  head (List.filter f l) = Some x → x ∈ l.
Proof.
  intros Hhead. apply head_Some_elem_of in Hhead.
  apply list_elem_of_In, filter_In in Hhead as [Hin _]. by apply list_elem_of_In.
Qed.

(** The first row that passes a filter: the rows before it do not pass. *)
Lemma head_filter_split {A} (f : A → bool) (l : list A) (x : A) :
  head (List.filter f l) = Some x →
  ∃ before after,
    l = before ++ x :: after ∧ f x = true ∧ Forall (λ y, f y = false) before.
Proof.
  induction l as [| y l IH]; [done |]. simpl.
  destruct (f y) eqn:Hy.
  - intros [= ->]. exists [], l. by split_and!.
  - intros Hhead. destruct (IH Hhead) as (before & after & -> & Hx & Hbefore).
    exists (y :: before), after. split_and!; [done | done |].
    by apply Forall_cons.
Qed.

(** The rows of a scan are the entries of the table. *)
Lemma scan_of_elem (table : gmap string Db.location_cols) (rows : list location)
    (id : string) (loc : Db.location_cols) :
  scan_of table rows → (id, loc) ∈ rows ↔ table !! id = Some loc.
Proof.
  intros [Hnodup <-]. by apply elem_of_list_to_map.
Qed.

Lemma scan_of_empty (table : gmap string Db.location_cols) (rows : list location) :
  scan_of table rows → rows = [] ↔ table = ∅.
Proof.
  intros [_ <-]. split; [by intros -> |].
  destruct rows as [| [id loc] rows]; [done |]. simpl. intros Hempty.
  by apply insert_non_empty in Hempty.
Qed.

(** C10: for every scan [rows] of the locations table, hence for the scan
    in rowid order that the queries perform, the result is absent exactly
    when the table is empty; on a non-empty table it is a stored location;
    and when no stored location matches the zip code (and the state, when
    given), the result is the first row of the scan that has the given
    state if a state is given and some row has it, and the first row of the
    scan otherwise. *)
Theorem find_nearest_location_fallback (db : Db.t) (rows : list location)
    (zip_code : string) (state : option string) :
  scan_of (Db.locations db) rows →
  (find_nearest_location rows zip_code state = None ↔ Db.locations db = ∅)
  ∧ (Db.locations db ≠ ∅ →
     ∃ loc, find_nearest_location rows zip_code state = Some loc
            ∧ Db.locations db !! loc.1 = Some loc.2)
  ∧ ((∀ id loc,
        Db.locations db !! id = Some loc →
        ¬ (Db.zip_code loc = zip_code
           ∧ (Py.truthy state = true → Some (Db.state loc) = state))) →
     ∀ found,
       find_nearest_location rows zip_code state = Some found →
       ∃ before after,
         rows = before ++ found :: after
         ∧ (Py.truthy state = true →
            (∃ id loc, Db.locations db !! id = Some loc
                       ∧ Some (Db.state loc) = state) →
            Some (Db.state found.2) = state
            ∧ Forall (λ r : location, Some (Db.state r.2) ≠ state) before)
         ∧ (Py.truthy state = false
            ∨ (∀ id loc, Db.locations db !! id = Some loc →
                         Some (Db.state loc) ≠ state) →
            before = [])).
Proof.
  intros Horder.
  assert (Helem : ∀ id loc, (id, loc) ∈ rows ↔ Db.locations db !! id = Some loc)
    by (intros id loc; by apply scan_of_elem).
  pose proof (scan_of_empty _ _ Horder) as Hnil.
  unfold find_nearest_location.
  set (result := match head (locations_matching rows zip_code state) with
                 | Some row => Some row
                 | None => _
                 end).
  assert (Hstored : ∀ loc : location,
            result = Some loc → Db.locations db !! loc.1 = Some loc.2).
  { intros [k v] Hloc. apply Helem.
    unfold result, locations_matching, locations_in_state in Hloc.
    destruct (Py.truthy state);
      repeat match type of Hloc with
             | match head ?l with _ => _ end = _ =>
                 let E := fresh "E" in destruct (head l) eqn:E
             end; simplify_eq; try (by eapply head_filter_elem);
      by apply head_Some_elem_of. }
  assert (Hempty : result = None ↔ Db.locations db = ∅).
  { rewrite <- Hnil. unfold result. split.
    - destruct (head (locations_matching _ _ _)); [done |].
      destruct (if Py.truthy state then _ else _); [done |].
      by destruct rows.
    - intros ->. unfold locations_matching, locations_in_state.
      by destruct (Py.truthy state). }
  split_and!.
  - exact Hempty.
  - intros Hne. destruct result as [loc |].
    + exists loc. split; [done |]. by apply Hstored.
    + destruct Hne. by apply Hempty.
  - intros Hnone found. unfold result.
    assert (Hmatching : locations_matching rows zip_code state = []).
    { unfold locations_matching.
      destruct (Py.truthy state) eqn:Htruthy; apply filter_nil_all_false;
        intros [id loc] Hin%Helem; simpl; apply not_true_is_false; intros Hf;
        apply (Hnone id loc Hin).
      - apply andb_true_iff in Hf as [Hz Hs].
        apply String.eqb_eq in Hz. apply bool_decide_eq_true_1 in Hs. done.
      - apply String.eqb_eq in Hf. done. }
    rewrite Hmatching. simpl. unfold locations_in_state.
    destruct (Py.truthy state) eqn:Htruthy.
    + destruct (head (List.filter _ rows)) as [row |] eqn:Hhead.
      * intros [= ->].
        destruct (head_filter_split _ _ _ Hhead)
          as (before & after & Hrows & Hfound & Hbefore).
        exists before, after. split; [exact Hrows |]. split.
        -- intros _ _. split; [by apply bool_decide_eq_true_1 in Hfound |].
           eapply Forall_impl; [exact Hbefore |]. intros r Hr. simpl in Hr.
           by apply bool_decide_eq_false_1 in Hr.
        -- intros [? | Hnostate]; [done |]. exfalso.
           destruct found as [id loc].
           apply (Hnostate id loc).
           ++ apply Helem. rewrite Hrows. apply elem_of_app. right. by left.
           ++ by apply bool_decide_eq_true_1 in Hfound.
      * intros Hfirst. destruct rows as [| row rows']; [done |].
        simpl in Hfirst. injection Hfirst as <-.
        exists [], rows'. split; [done |]. split; [| done].
        intros _ (id & loc & Hloc & Hstate). exfalso.
        apply Helem in Hloc.
        assert (Hin : In (id, loc)
                  (List.filter
                     (λ r : location, bool_decide (Some (Db.state r.2) = state))
                     (row :: rows'))).
        { apply filter_In. split; [by apply list_elem_of_In |].
          by apply bool_decide_eq_true_2. }
        destruct (List.filter _ (row :: rows')); [destruct Hin | done].
    + intros Hfirst. destruct rows as [| row rows']; [done |].
      simpl in Hfirst. injection Hfirst as <-.
      exists [], rows'. split; [done |]. split; [done | done].
Qed.

Lemma find_nearest_location_fallback_witness :
  scan_of (Db.locations two_locations_db) two_location_rows
  ∧ find_nearest_location two_location_rows "60601" (Some "CA"%string)
    = Some ("90210_CA"%string, beverly_hills)
  ∧ ∃ before after,
      two_location_rows = before ++ ("90210_CA"%string, beverly_hills) :: after
      ∧ Forall (λ r : location, Some (Db.state r.2) ≠ Some "CA"%string) before.
Proof.
  assert (Horder : scan_of (Db.locations two_locations_db) two_location_rows).
  { split; [apply (bool_decide_unpack _); by vm_compute | by vm_compute]. }
  assert (Hfound : find_nearest_location two_location_rows "60601" (Some "CA"%string)
                   = Some ("90210_CA"%string, beverly_hills)) by reflexivity.
  split; [exact Horder |]. split; [exact Hfound |].
  destruct (find_nearest_location_fallback two_locations_db two_location_rows
              "60601" (Some "CA"%string) Horder) as (_ & _ & Hfallback).
  destruct (Hfallback) with (found := ("90210_CA"%string, beverly_hills))
    as (before & after & Hrows & Hstate & _).
  - intros id loc Hloc [Hzip _].
    apply (scan_of_elem _ _ id loc Horder) in Hloc.
    apply list_elem_of_In in Hloc. simpl in Hloc.
    destruct Hloc as [[= <- <-] | [[= <- <-] | []]]; discriminate Hzip.
  - exact Hfound.
  - exists before, after. split; [exact Hrows |].
    apply Hstate; [reflexivity |].
    exists "90210_CA"%string, beverly_hills. split; [by vm_compute | reflexivity].
Defined.

(** ** Binary64 rounding *)

Lemma round_half_even_error (y : Q) :
  - (1 # 2) <= inject_Z (B64.round_half_even y) - y <= 1 # 2.
Proof.
  unfold B64.round_half_even.
  pose proof (Qfloor_le y) as Hlo. pose proof (Qlt_floor y) as Hhi.
  rewrite inject_Z_plus in Hhi. change (inject_Z 1) with 1 in Hhi.
  destruct (Qcompare_spec (y - inject_Z (Qfloor y)) (1 # 2)) as [He | Hl | Hg].
  - destruct (Z.even (Qfloor y)); [lra |].
    rewrite inject_Z_plus. change (inject_Z 1) with 1. lra.
  - lra.
  - rewrite inject_Z_plus. change (inject_Z 1) with 1. lra.
Qed.

Lemma pow2_pos (k : Z) : 0 < 2 ^ k.
Proof. by apply Qpower_0_lt. Qed.

Lemma pow2_add (m n : Z) : 2 ^ (m + n) == 2 ^ m * 2 ^ n.
Proof. by apply Qpower_plus. Qed.

Lemma pow2_inject (k : Z) : (0 <= k)%Z → inject_Z (2 ^ k) == 2 ^ k.
Proof. intros Hk. by rewrite Zpower_Qpower. Qed.

Lemma pow2_le (m n : Z) : (m <= n)%Z → 2 ^ m <= 2 ^ n.
Proof. intros Hmn. by apply Qpower_le_compat_l. Qed.

Lemma Qabs_as_quotient (x : Q) :
  Qabs x == inject_Z (Z.abs (Qnum x)) / inject_Z (Zpos (Qden x)).
Proof. destruct x as [n d]. simpl. apply Qmake_Qdiv. Qed.

Lemma Qnum_nonzero (x : Q) : ¬ x == 0 → (0 < Z.abs (Qnum x))%Z.
Proof.
  intros Hx. destruct x as [n d]. simpl.
  assert (n ≠ 0%Z); [| lia]. intros ->. apply Hx. reflexivity.
Qed.

(** The binade of [x] is the integer part of its binary logarithm. *)
Lemma binade_spec (x : Q) :
  ¬ x == 0 → 2 ^ B64.binade x <= Qabs x < 2 ^ (B64.binade x + 1).
Proof.
  intros Hx. pose proof (Qnum_nonzero x Hx) as Hnum.
  unfold B64.binade.
  set (N := Z.abs (Qnum x)) in *. set (D := Zpos (Qden x)).
  assert (HD : (0 < D)%Z) by done.
  destruct (Z.log2_spec N Hnum) as [HNlo HNhi].
  destruct (Z.log2_spec D HD) as [HDlo HDhi].
  pose proof (Z.log2_nonneg N) as HaN. pose proof (Z.log2_nonneg D) as HaD.
  set (a := Z.log2 N) in *. set (d := Z.log2 D) in *.
  rewrite (Qabs_as_quotient x). fold N D.
  assert (HDq : 0 < inject_Z D) by (by rewrite <- (Zlt_Qlt 0)).
  rewrite Zle_Qle, pow2_inject in HNlo by done.
  rewrite Zlt_Qlt, pow2_inject in HNhi by lia.
  rewrite Zle_Qle, pow2_inject in HDlo by done.
  rewrite Zlt_Qlt, pow2_inject in HDhi by lia.
  pose proof (pow2_pos (a - d)) as Hpos.
  pose proof (pow2_pos (a - d - 1)) as Hpos'.
  destruct (Qle_bool (2 ^ (a - d)) (inject_Z N / inject_Z D)) eqn:Hcheck.
  - apply Qle_bool_iff in Hcheck. split; [exact Hcheck |].
    apply Qlt_shift_div_r; [exact HDq |].
    assert (Hsplit : 2 ^ (Z.succ a) == 2 ^ (a - d + 1) * 2 ^ d).
    { rewrite <- pow2_add. by replace (a - d + 1 + d)%Z with (Z.succ a) by lia. }
    pose proof (pow2_pos (a - d + 1)).
    assert (2 ^ (a - d + 1) * 2 ^ d <= 2 ^ (a - d + 1) * inject_Z D).
    { apply Qmult_le_l; done. }
    rewrite Hsplit in HNhi. lra.
  - assert (Hlt : inject_Z N / inject_Z D < 2 ^ (a - d)).
    { apply Qnot_le_lt. intros Hle. apply Qle_bool_iff in Hle. congruence. }
    split; [| by replace (a - d - 1 + 1)%Z with (a - d)%Z by lia].
    apply Qle_shift_div_l; [exact HDq |].
    assert (Hsplit : 2 ^ a == 2 ^ (a - d - 1) * 2 ^ (Z.succ d)).
    { rewrite <- pow2_add. by replace (a - d - 1 + Z.succ d)%Z with a by lia. }
    assert (2 ^ (a - d - 1) * inject_Z D <= 2 ^ (a - d - 1) * 2 ^ (Z.succ d)).
    { apply Qmult_le_l; [done |]. lra. }
    rewrite Hsplit in HNlo. lra.
Qed.

Lemma binade_unique (x : Q) (b : Z) :
  2 ^ b <= Qabs x → Qabs x < 2 ^ (b + 1) → B64.binade x = b.
Proof.
  intros Hlo Hhi.
  assert (Hx : ¬ x == 0).
  { intros Hx. apply Qabs_wd in Hx. change (Qabs 0) with 0 in Hx.
    pose proof (pow2_pos b). lra. }
  destruct (binade_spec x Hx) as [Hlo' Hhi'].
  assert (H1 : 2 ^ b < 2 ^ (B64.binade x + 1)) by lra.
  assert (H2 : 2 ^ B64.binade x < 2 ^ (b + 1)) by lra.
  apply Qpower_lt_compat_l_inv in H1; [| done].
  apply Qpower_lt_compat_l_inv in H2; [| done]. lia.
Qed.

Lemma binade_comp (x y : Q) : x == y → ¬ x == 0 → B64.binade x = B64.binade y.
Proof.
  intros Hxy Hx. symmetry. destruct (binade_spec x Hx) as [Hlo Hhi].
  apply binade_unique; by rewrite <- (Qabs_wd _ _ Hxy).
Qed.

Lemma round_half_even_comp (x y : Q) :
  x == y → B64.round_half_even x = B64.round_half_even y.
Proof.
  intros Hxy. unfold B64.round_half_even.
  rewrite (Qfloor_comp _ _ Hxy).
  assert (Hc : (x - inject_Z (Qfloor y) ?= 1 # 2) = (y - inject_Z (Qfloor y) ?= 1 # 2)).
  { apply Qcompare_comp; [by rewrite Hxy | reflexivity]. }
  by rewrite Hc.
Qed.

(** Rounding sees the number, not the fraction that denotes it. *)
Lemma round_comp (x y : Q) : x == y → B64.round x == B64.round y.
Proof.
  intros Hxy. unfold B64.round.
  destruct (Qeq_bool x 0) eqn:Hx.
  - apply Qeq_bool_iff in Hx.
    assert (Hy : Qeq_bool y 0 = true) by (apply Qeq_bool_iff; by rewrite <- Hxy).
    rewrite Hy. reflexivity.
  - apply Qeq_bool_neq in Hx.
    assert (Hy : Qeq_bool y 0 = false).
    { destruct (Qeq_bool y 0) eqn:Hy; [| done].
      apply Qeq_bool_iff in Hy. destruct Hx. by rewrite Hxy. }
    rewrite Hy. unfold B64.ulp. rewrite <- (binade_comp x y Hxy Hx).
    set (q := 2 ^ _).
    assert (Hq : x / q == y / q) by (by rewrite Hxy).
    by rewrite (round_half_even_comp _ _ Hq).
Qed.

#[local] Instance round_proper : Proper (Qeq ==> Qeq) B64.round.
Proof. intros x y. apply round_comp. Qed.

(** The unit roundoff 2^-53. *)
Lemma round_error (x : Q) :
  2 ^ (-1022) <= Qabs x →
  Qabs (B64.round x - x) <= (1 # 9007199254740992) * Qabs x.
Proof.
  intros Hnormal.
  assert (Hx : ¬ x == 0).
  { intros Hx. apply Qabs_wd in Hx. change (Qabs 0) with 0 in Hx.
    pose proof (pow2_pos (-1022)). lra. }
  unfold B64.round.
  destruct (Qeq_bool x 0) eqn:Hx'; [apply Qeq_bool_iff in Hx'; done |].
  destruct (binade_spec x Hx) as [Hlo _].
  unfold B64.ulp. set (k := Z.max (B64.binade x - 52) (-1074)).
  pose proof (pow2_pos k) as Hq.
  assert (Hulp : 2 ^ k <= (1 # 4503599627370496) * Qabs x).
  { assert (H52 : (2 : Q) ^ (-52) == 1 # 4503599627370496) by reflexivity.
    rewrite <- H52. unfold k.
    destruct (Z.max_spec (B64.binade x - 52) (-1074)) as [[_ ->] | [_ ->]].
    - replace (-1074)%Z with (-52 + -1022)%Z by lia. rewrite pow2_add.
      apply Qmult_le_l; [apply pow2_pos | exact Hnormal].
    - replace (B64.binade x - 52)%Z with (-52 + B64.binade x)%Z by lia.
      rewrite pow2_add. apply Qmult_le_l; [apply pow2_pos | exact Hlo]. }
  pose proof (round_half_even_error (x / 2 ^ k)) as [Hn1 Hn2].
  set (n := inject_Z (B64.round_half_even (x / 2 ^ k))) in *. clearbody n.
  set (q := 2 ^ k) in *. clearbody q. clear Hlo Hnormal k Hx'.
  assert (Hxq : x / q * q == x) by (field; lra).
  set (y := x / q) in *. clearbody y.
  apply Qabs_Qle_condition.
  assert (Hm1 : (n - y) * q <= (1 # 2) * q) by (apply Qmult_le_compat_r; lra).
  assert (Hm2 : - (1 # 2) * q <= (n - y) * q) by (apply Qmult_le_compat_r; lra).
  set (ax := Qabs x) in *. clearbody ax.
  split; lra.
Qed.

(** The error of a rounding, whatever the size of the number: half a unit
    in the last place, which is at most 2^-53 of the number or 2^-1075. *)
Lemma round_within (z B : Q) :
  - B <= z <= B →
  z - (1 # 9007199254740992) * (B + 2 ^ (-1022)) <= B64.round z
  ∧ B64.round z <= z + (1 # 9007199254740992) * (B + 2 ^ (-1022)).
Proof.
  intros HB. pose proof (pow2_pos (-1022)) as Hp.
  unfold B64.round. destruct (Qeq_bool z 0) eqn:Hz.
  - apply Qeq_bool_iff in Hz. set (p := 2 ^ (-1022)) in *. clearbody p. lra.
  - apply Qeq_bool_neq in Hz.
    destruct (binade_spec z Hz) as [Hlo _].
    unfold B64.ulp. set (k := Z.max (B64.binade z - 52) (-1074)).
    pose proof (pow2_pos k) as Hq.
    assert (Habs : Qabs z <= B) by (by apply Qabs_Qle_condition).
    assert (Hulp : 2 ^ k <= (1 # 4503599627370496) * (B + 2 ^ (-1022))).
    { assert (H52 : 2 ^ (-52) == 1 # 4503599627370496) by reflexivity.
      rewrite <- H52. unfold k. pose proof (pow2_pos (-52)) as H52pos.
      destruct (Z.max_spec (B64.binade z - 52) (-1074)) as [[_ ->] | [_ ->]].
      - replace (-1074)%Z with (-52 + -1022)%Z by lia. rewrite pow2_add.
        apply Qmult_le_l; [exact H52pos |].
        pose proof (Qabs_nonneg z). lra.
      - replace (B64.binade z - 52)%Z with (-52 + B64.binade z)%Z by lia.
        rewrite pow2_add. apply Qmult_le_l; [exact H52pos |]. lra. }
    pose proof (round_half_even_error (z / 2 ^ k)) as [Hn1 Hn2].
    set (n := inject_Z (B64.round_half_even (z / 2 ^ k))) in *. clearbody n.
    set (q := 2 ^ k) in *. clearbody q. clear Hlo k Habs.
    assert (Hzq : z / q * q == z) by (field; lra).
    set (y := z / q) in *. clearbody y.
    assert (Hm1 : (n - y) * q <= (1 # 2) * q) by (apply Qmult_le_compat_r; lra).
    assert (Hm2 : - (1 # 2) * q <= (n - y) * q) by (apply Qmult_le_compat_r; lra).
    set (p := 2 ^ (-1022)) in *. clearbody p.
    split; lra.
Qed.

(** ** Sums of twelve equal floats *)

(** One rounded addition of a value [x == c] to a partial sum between
    [l c] and [h c]. *)
Lemma add_step (c s x l h : Q) :
  2 ^ (-1022) <= c → x == c → 0 <= l → l * c <= s <= h * c →
  (l + 1) * (1 - (1 # 9007199254740992)) * c <= B64.add s x
  ∧ B64.add s x <= (h + 1) * (1 + (1 # 9007199254740992)) * c.
Proof.
  intros Hc Hx Hl [Hlo Hhi]. unfold B64.add.
  pose proof (pow2_pos (-1022)) as Hp.
  pose proof (round_error (s + x)) as Herr.
  set (p := 2 ^ (-1022)) in *. clearbody p.
  assert (Hlc : 0 <= l * c) by (apply Qmult_le_0_compat; lra).
  assert (Hy : p <= s + x) by lra.
  rewrite Qabs_pos in Herr by lra.
  specialize (Herr Hy). apply Qabs_Qle_condition in Herr.
  set (r := B64.round (s + x)) in *. clearbody r.
  assert (Hleft : (l + 1) * (1 - (1 # 9007199254740992)) * c
                  == (l * c + c) * (1 - (1 # 9007199254740992))) by ring.
  assert (Hright : (h + 1) * (1 + (1 # 9007199254740992)) * c
                   == (h * c + c) * (1 + (1 # 9007199254740992))) by ring.
  rewrite Hleft, Hright. clear Hleft Hright.
  set (lc := l * c) in *. set (hc := h * c) in *. clearbody lc hc.
  split; lra.
Qed.

(** The left-to-right sum of twelve equal values. *)
Lemma naive_sum_accurate : accurate_sum B64.sum.
Proof.
  intros c xs Hlo _ Hlen Hall.
  assert (Hmin : 2 ^ (-1022) <= c).
  { pose proof (pow2_le (-1022) (-1000)) as H. apply Qle_trans with (2 ^ (-1000)); [apply H; lia | exact Hlo]. }
  pose proof (pow2_pos (-1022)) as Hp.
  clear Hlo. set (p := 2 ^ (-1022)) in *. 
  do 13 (destruct xs as [| ? xs]; [discriminate Hlen || idtac |]);
    [| discriminate Hlen].
  repeat match goal with
         | H : Forall _ (_ :: _) |- _ =>
             apply Forall_cons_1 in H; destruct H as [? H]
         end.
  unfold B64.sum. cbn [foldl].
  assert (Hstart : 0 * c <= 0 <= 0 * c) by lra.
  repeat match goal with
         | H : ?l * c <= ?s <= ?h * c |- context [B64.add ?s ?x] =>
             let Hx := fresh "Hstep" in
             pose proof (add_step c s x l h Hmin ltac:(assumption)
                           ltac:(vm_compute; discriminate) H) as Hx;
             clear H; set (B64.add s x) in *
         end.
  clearbody p.
  match goal with
  | H : _ <= ?s ∧ ?s <= _ |- _ => destruct H as [Hlower Hupper]; clearbody s
  end.
  split; lra.
Qed.

(** One step of the compensated sum on a value [x == c], after a part [s]
    of the sum (a multiple of [c], at most eleven times [c]): the running
    sum [hi] follows the plain sum, the compensation [lo] stays small, and
    [hi + lo] follows the exact sum much closer than [hi] does. *)
Lemma compensated_step_bounds (c x s : Q) (acc : Q * Q) :
  2 ^ (-1000) <= c → x == c → 0 <= s → s <= 11 * c →
  s * (1 - (14 # 9007199254740992)) <= acc.1 →
  acc.1 <= s * (1 + (14 # 9007199254740992)) →
  - (s * (30 # 9007199254740992)) <= acc.2 →
  acc.2 <= s * (30 # 9007199254740992) →
  s * (1 - (2 # 9007199254740992)) <= acc.1 + acc.2 →
  acc.1 + acc.2 <= s * (1 + (2 # 9007199254740992)) →
  let acc' := B64.compensated_step acc x in
  (s + c) * (1 - (14 # 9007199254740992)) <= acc'.1
  ∧ acc'.1 <= (s + c) * (1 + (14 # 9007199254740992))
  ∧ - ((s + c) * (30 # 9007199254740992)) <= acc'.2
  ∧ acc'.2 <= (s + c) * (30 # 9007199254740992)
  ∧ (s + c) * (1 - (2 # 9007199254740992)) <= acc'.1 + acc'.2
  ∧ acc'.1 + acc'.2 <= (s + c) * (1 + (2 # 9007199254740992)).
Proof.
  intros Hc Hx Hs0 Hs11 Hhi1 Hhi2 Hlo1 Hlo2 HT1 HT2. cbv zeta.
  destruct acc as [hi lo]. cbn [fst snd] in *.
  pose proof (pow2_pos (-1022)) as Hp.
  assert (Hpc : 4194304 * 2 ^ (-1022) <= c).
  { assert (Hsplit : 2 ^ 22 * 2 ^ (-1022) == 2 ^ (-1000)) by (by rewrite <- pow2_add).
    change (2 ^ 22) with 4194304 in Hsplit. rewrite Hsplit. exact Hc. }
  clear Hc.
  unfold B64.compensated_step, B64.add, B64.sub. cbn [fst snd].
  assert (Hwithin : ∀ z B, - B <= z <= B →
            z - (1 # 9007199254740992) * (B + 2 ^ (-1022)) <= B64.round z
            ∧ B64.round z <= z + (1 # 9007199254740992) * (B + 2 ^ (-1022)))
    by apply round_within.
  set (p := 2 ^ (-1022)) in *. clearbody p.
  assert (Hhi0 : 0 <= hi) by lra.
  destruct (Hwithin (hi + x) (12 * c + c)) as [Ht1 Ht2]; [lra |].
  set (t := B64.round (hi + x)) in *. clearbody t.
  assert (Hz1 : ∀ z1 z2 lo',
            - (c + (1 # 9007199254740992) * (12 * c + c + p)) <= z1 →
            z1 <= (c + (1 # 9007199254740992) * (12 * c + c + p)) →
            B64.round z1 + z2 == hi + x - t + (B64.round z1 - z1) →
            lo' = B64.round (lo + B64.round (B64.round z1 + z2)) →
            (s + c) * (1 - (14 # 9007199254740992)) <= t
            ∧ t <= (s + c) * (1 + (14 # 9007199254740992))
            ∧ - ((s + c) * (30 # 9007199254740992)) <= lo'
            ∧ lo' <= (s + c) * (30 # 9007199254740992)
            ∧ (s + c) * (1 - (2 # 9007199254740992)) <= t + lo'
            ∧ t + lo' <= (s + c) * (1 + (2 # 9007199254740992))).
  { intros z1 z2 lo' Hz1lo Hz1hi Hsum ->.
    destruct (Hwithin z1 (c + (1 # 9007199254740992) * (12 * c + c + p)))
      as [Hc1 Hc2]; [lra |].
    set (c1 := B64.round z1) in *. clearbody c1.
    destruct (Hwithin (c1 + z2) ((1 # 9007199254740992) * (30 * c)))
      as [Hcc1 Hcc2]; [lra |].
    set (cc := B64.round (c1 + z2)) in *. clearbody cc.
    destruct (Hwithin (lo + cc) ((1 # 9007199254740992) * (400 * c)))
      as [Hl1 Hl2]; [lra |].
    set (lo' := B64.round (lo + cc)) in *. clearbody lo'.
    split_and!; lra. }
  destruct (Qle_bool (Qabs x) (Qabs hi)) eqn:Hbranch.
  - apply (Hz1 (hi - t) x); [lra | lra | ring | reflexivity].
  - assert (Hlt : hi < x).
    { apply Qnot_le_lt. intros Hle.
      assert (Hle' : Qle_bool (Qabs x) (Qabs hi) = true).
      { apply Qle_bool_iff. rewrite !Qabs_pos by lra. exact Hle. }
      congruence. }
    apply (Hz1 (x - t) hi); [lra | lra | ring | reflexivity].
Qed.

(** The compensated sum of twelve equal values. *)
Lemma compensated_sum_accurate : accurate_sum B64.compensated_sum.
Proof.
  intros c xs Hlo _ Hlen Hall.
  pose proof (pow2_pos (-1000)) as HP.
  assert (Hc : 0 < c) by lra.
  do 13 (destruct xs as [| ? xs]; [discriminate Hlen || idtac |]);
    [| discriminate Hlen].
  repeat match goal with
         | H : Forall _ (_ :: _) |- _ =>
             apply Forall_cons_1 in H; destruct H as [? H]
         end.
  unfold B64.compensated_sum. cbn [foldl].
  assert (Hstart : 0 * (1 - (14 # 9007199254740992)) <= (0, 0).1
                   ∧ (0, 0).1 <= 0 * (1 + (14 # 9007199254740992))
                   ∧ - (0 * (30 # 9007199254740992)) <= (0, 0).2
                   ∧ (0, 0).2 <= 0 * (30 # 9007199254740992)
                   ∧ 0 * (1 - (2 # 9007199254740992)) <= (0, 0).1 + (0, 0).2
                   ∧ (0, 0).1 + (0, 0).2 <= 0 * (1 + (2 # 9007199254740992)))
    by (cbn [fst snd]; split_and!; lra).
  repeat match goal with
         | H : ?s * _ <= ?acc.1 ∧ _ |- context [B64.compensated_step ?acc ?x] =>
             let Hx := fresh "Hstep" in
             destruct H as (? & ? & ? & ? & ? & ?);
             pose proof (compensated_step_bounds c x s acc Hlo ltac:(assumption)
                           ltac:(lra) ltac:(lra) ltac:(assumption) ltac:(assumption)
                           ltac:(assumption) ltac:(assumption) ltac:(assumption)
                           ltac:(assumption)) as Hx;
             cbv zeta in Hx;
             set (B64.compensated_step acc x) in *
         end.
  match goal with
  | H : _ <= ?acc.1 ∧ _ |- _ =>
      destruct H as (Hhi1 & Hhi2 & Hlo1 & Hlo2 & HT1 & HT2); clearbody acc;
      destruct acc as [hi lo]
  end.
  cbn [fst snd] in *.
  destruct (Qeq_bool lo 0) eqn:Hzero.
  - apply Qeq_bool_iff in Hzero. split; lra.
  - unfold B64.add.
    assert (Hpc : 2 ^ (-1022) <= c).
    { apply Qle_trans with (2 ^ (-1000)); [apply pow2_le; lia | exact Hlo]. }
    pose proof (pow2_pos (-1022)) as Hp.
    destruct (round_within (hi + lo) (13 * c)) as [Hr1 Hr2]; [lra |].
    set (r := B64.round (hi + lo)) in *. clearbody r.
    set (tiny := 2 ^ (-1022)) in *. clearbody tiny.
    split; lra.
Qed.

(** ** Seasonal factors, with the rounding *)

(** The factor of a month that holds the common value: the mean of the
    twelve values is the value up to rounding, and so the quotient is 1 up
    to rounding. *)
Lemma uniform_ratio (py_sum : list Q → Q) (c x : Q) (xs : list Q) :
  accurate_sum py_sum →
  2 ^ (-1000) <= c → c <= 2 ^ 1000 →
  length xs = 12%nat → Forall (λ y, y == c) xs → x == c →
  0 < B64.div (py_sum xs) 12
  ∧ 1 - (1 # 281474976710656) <= B64.div x (B64.div (py_sum xs) 12)
  ∧ B64.div x (B64.div (py_sum xs) 12) <= 1 + (1 # 281474976710656).
Proof.
  intros Hacc Hlo Hhi Hlen Hall Hx.
  destruct (Hacc c xs Hlo Hhi Hlen Hall) as [Slo Shi].
  set (S := py_sum xs) in *. clearbody S. clear Hacc Hall Hlen Hhi.
  pose proof (pow2_pos (-1022)) as Hp.
  assert (HpP : 2 * 2 ^ (-1022) <= 2 ^ (-1000)).
  { pose proof (pow2_add 1 (-1022)) as Hsplit. pose proof (pow2_le (1 + -1022) (-1000)).
    change (2 ^ 1) with 2 in Hsplit. rewrite <- Hsplit. auto with zarith. }
  assert (HP1 : 2 ^ (-1000) <= 1) by (apply (pow2_le (-1000) 0); lia).
  unfold B64.div.
  pose proof (round_error (S / 12)) as Hmean.
  assert (Hy : (1 - (1 # 562949953421312)) * c <= S / 12
               ∧ S / 12 <= (1 + (1 # 562949953421312)) * c) by (split; qlra).
  destruct Hy as [Hylo Hyhi]. set (y := S / 12) in *. clearbody y. clear Slo Shi S.
  set (avg := B64.round y) in *.
  set (p := 2 ^ (-1022)) in *. set (P := 2 ^ (-1000)) in *.
  assert (Herror : ∀ z, p <= Qabs z →
                        Qabs (B64.round z - z) <= (1 # 9007199254740992) * Qabs z)
    by apply round_error.
  clearbody p P.
  rewrite Qabs_pos in Hmean by lra.
  assert (Hy : p <= y) by lra. specialize (Hmean Hy).
  apply Qabs_Qle_condition in Hmean. clearbody avg.
  assert (Havg : 0 < avg) by lra.
  split; [exact Havg |].
  assert (Hqlo : 1 - (9 # 4503599627370496) <= x / avg).
  { apply Qle_shift_div_l; [exact Havg |]. lra. }
  assert (Hqhi : x / avg <= 1 + (9 # 4503599627370496)).
  { apply Qle_shift_div_r; [exact Havg |]. lra. }
  set (q := x / avg) in *. clearbody q.
  pose proof (Herror q) as Hquot. clear Herror.
  set (f := B64.round q) in *. clearbody f.
  rewrite Qabs_pos in Hquot by lra.
  assert (Hq : p <= q) by lra. specialize (Hquot Hq).
  apply Qabs_Qle_condition in Hquot.
  split; lra.
Qed.

(** The dict of a cursor that covers the twelve months lists them, each
    once. *)
Lemma insertion_order_complete (cursor : gmap Z (option Q * option Q)) :
  dom cursor = list_to_set (seqZ 1 12) →
  length (insertion_order cursor) = 12%nat
  ∧ ∀ m, m ∈ insertion_order cursor → is_Some (cursor !! m).
Proof.
  intros Hdom. unfold insertion_order.
  set (months := merge_sort Z.le (map_to_list cursor).*1).
  assert (Hperm : months ≡ₚ (map_to_list cursor).*1)
    by apply merge_sort_Permutation.
  assert (Hin : ∀ m, m ∈ months ↔ is_Some (cursor !! m)).
  { intros m. rewrite Hperm, list_elem_of_fmap. split.
    - intros ([k v] & -> & Hkv). apply elem_of_map_to_list in Hkv. by eexists.
    - intros [v Hv]. exists (m, v). split; [done |]. by apply elem_of_map_to_list. }
  rewrite filter_nil_all_false.
  - rewrite app_nil_r. split; [| intros m; apply Hin].
    rewrite Hperm, length_fmap, length_map_to_list, <- size_dom, Hdom.
    by vm_compute.
  - intros m Hm. apply negb_false_iff, bool_decide_eq_true_2, Hin.
    apply elem_of_dom. rewrite Hdom. by apply elem_of_list_to_set.
Qed.

Lemma omap_all_Some {A B} (f : A → option B) (P : B → Prop) (l : list A) :
  (∀ a, a ∈ l → ∃ b, f a = Some b ∧ P b) →
  length (omap f l) = length l ∧ Forall P (omap f l).
Proof.
  induction l as [| a l IH]; intros Hall; [by split |].
  destruct (Hall a) as (b & Hb & HP); [by left |].
  destruct IH as [Hlen HForall]; [intros a' Ha'; apply Hall; by right |].
  simpl. rewrite Hb. simpl. split; [by f_equal | by apply Forall_cons].
Qed.

Lemma clamp_factor_b64_bounds (x : Q) :
  B64.round 0.6 <= clamp_factor_b64 x <= B64.round 1.8.
Proof.
  assert (Hle : B64.round 0.6 <= B64.round 1.8) by (vm_compute; discriminate).
  unfold clamp_factor_b64, Py.max, Py.min.
  set (lo := B64.round 0.6) in *. set (hi := B64.round 1.8) in *. clearbody lo hi.
  destruct (Qlt_le_dec x hi); destruct (Qlt_le_dec lo _); lra.
Qed.

(** The clamp leaves a number near 1 as it is. *)
Lemma clamp_factor_b64_idle (x : Q) :
  1 - (1 # 281474976710656) <= x → x <= 1 + (1 # 281474976710656) →
  clamp_factor_b64 x = x.
Proof.
  intros Hlo Hhi.
  assert (Hlow : B64.round 0.6 <= 0.7) by (vm_compute; discriminate).
  assert (Hhigh : 1.7 <= B64.round 1.8) by (vm_compute; discriminate).
  unfold clamp_factor_b64, Py.max, Py.min.
  set (lo := B64.round 0.6) in *. set (hi := B64.round 1.8) in *. clearbody lo hi.
  destruct (Qlt_le_dec x hi); [| lra]. destruct (Qlt_le_dec lo x); [done | lra].
Qed.


(** * Further properties *)

(** ** Impact score and climate zone *)

Lemma duration_factor_le_1 d : 0.5 + 0.5 * (Py.min d 24 / 24) <= 1.
Proof. unfold Py.min. destruct (Qlt_le_dec 24 d); qlra. Qed.

Lemma base_times_multiplier_bounds t s :
  0 <= Py.dict_get base_impacts t 1 * Py.dict_get severity_multipliers s 0.5 <= 10.
Proof.
  pose proof (base_impact_bounds t) as [Hb0 Hb10].
  pose proof (severity_multiplier_bounds s) as [Hm0 Hm1].
  set (b := Py.dict_get base_impacts t 1) in *.
  set (m := Py.dict_get severity_multipliers s 0.5) in *.
  split; [by apply Qmult_le_0_compat |].
  apply Qle_trans with (b * 1); [| lra].
  rewrite !(Qmult_comm b). by apply Qmult_le_compat_r.
Qed.

Lemma impact_score_uncapped event_type severity duration_hours :
  calculate_event_impact_score event_type severity duration_hours
  == Py.dict_get base_impacts event_type 1
     * Py.dict_get severity_multipliers severity 0.5
     * (0.5 + 0.5 * (Py.min duration_hours 24 / 24))
  ∧ Py.dict_get base_impacts event_type 1
    * Py.dict_get severity_multipliers severity 0.5
    * (0.5 + 0.5 * (Py.min duration_hours 24 / 24))
    <= Py.dict_get base_impacts event_type 1
       * Py.dict_get severity_multipliers severity 0.5.
Proof.
  pose proof (base_times_multiplier_bounds event_type severity) as [Hbm0 Hbm10].
  pose proof (duration_factor_le_1 duration_hours) as Hf.
  set (base := Py.dict_get base_impacts event_type 1) in *.
  set (mult := Py.dict_get severity_multipliers severity 0.5) in *.
  set (f := 0.5 + 0.5 * (Py.min duration_hours 24 / 24)) in *.
  assert (Hprod : base * mult * f <= base * mult).
  { apply Qle_trans with (base * mult * 1); [| rewrite Qmult_1_r; apply Qle_refl].
    rewrite !(Qmult_comm (base * mult)). by apply Qmult_le_compat_r. }
  split; [| exact Hprod].
  unfold calculate_event_impact_score. fold base mult f.
  unfold Py.min at 1. destruct (Qlt_le_dec (base * mult * f) 10); lra.
Qed.

(** X1: the cap at 10 never changes a score: base <= 10, multiplier <= 1 and
    the duration term <= 1, so the product is the score itself and stays
    below base * multiplier. *)
Theorem impact_score_cap_is_idle (event_type severity : string) (duration_hours : Q) :
  let base := Py.dict_get base_impacts event_type 1 in
  let mult := Py.dict_get severity_multipliers severity 0.5 in
  calculate_event_impact_score event_type severity duration_hours
    == base * mult * (0.5 + 0.5 * (Py.min duration_hours 24 / 24))
  ∧ calculate_event_impact_score event_type severity duration_hours <= base * mult
  ∧ base * mult <= 10.
Proof.
  intros base mult.
  destruct (impact_score_uncapped event_type severity duration_hours)
    as [Hscore Hprod].
  fold base mult in Hscore, Hprod.
  split_and!; [exact Hscore | rewrite Hscore; exact Hprod |].
  apply base_times_multiplier_bounds.
Qed.

(** X2: for a duration that is not negative the score lies in [0, 10],
    never below half of base * multiplier; it does not decrease when the
    duration grows and no longer changes from 24 hours on. *)
Theorem impact_score_nonnegative_duration (event_type severity : string)
    (d1 d2 : Q) :
  0 <= d1 → d1 <= d2 →
  let base := Py.dict_get base_impacts event_type 1 in
  let mult := Py.dict_get severity_multipliers severity 0.5 in
  0 <= base * mult * 0.5
  ∧ base * mult * 0.5 <= calculate_event_impact_score event_type severity d1
  ∧ calculate_event_impact_score event_type severity d1
    <= calculate_event_impact_score event_type severity d2
  ∧ calculate_event_impact_score event_type severity d2 <= 10
  ∧ (24 <= d1 →
     calculate_event_impact_score event_type severity d1 == base * mult
     ∧ calculate_event_impact_score event_type severity d2 == base * mult).
Proof.
  intros Hd1 Hd12 base mult.
  pose proof (base_times_multiplier_bounds event_type severity) as [Hbm0 _].
  fold base mult in Hbm0.
  destruct (impact_score_uncapped event_type severity d1) as (E1 & _).
  destruct (impact_score_uncapped event_type severity d2) as (E2 & _).
  fold base mult in E1, E2.
  split_and!.
  - lra.
  - rewrite E1. rewrite !(Qmult_comm (base * mult)).
    apply Qmult_le_compat_r; [| done].
    unfold Py.min. destruct (Qlt_le_dec 24 d1); qlra.
  - by apply impact_score_monotone.
  - apply impact_score_le_10.
  - intros H24. rewrite E1, E2. unfold Py.min.
    destruct (Qlt_le_dec 24 d1); destruct (Qlt_le_dec 24 d2); split; try qlra.
    all: try (assert (d1 == 24) as -> by lra); try (assert (d2 == 24) as -> by lra);
      try qlra.
Qed.

Lemma impact_score_nonnegative_duration_witness :
  0 <= 3 ∧ 3 <= 30
  ∧ 4.5 <= calculate_event_impact_score "Cold" "Extreme" 3
  ∧ calculate_event_impact_score "Cold" "Extreme" 3
    <= calculate_event_impact_score "Cold" "Extreme" 30
  ∧ calculate_event_impact_score "Cold" "Extreme" 30 <= 10.
Proof.
  assert (H1 : 0 <= 3) by lra. assert (H2 : 3 <= 30) by lra.
  destruct (impact_score_nonnegative_duration "Cold" "Extreme" 3 30 H1 H2)
    as (_ & Hhalf & Hmono & Hcap & _).
  split_and!; [exact H1 | exact H2 | | exact Hmono | exact Hcap].
  eapply Qle_trans; [| exact Hhalf]. by vm_compute.
Defined.

Lemma estimate_climate_zone_bounds latitude longitude :
  (1 <= estimate_climate_zone latitude longitude <= 5)%Z.
Proof. unfold estimate_climate_zone. cbv zeta. repeat destruct (Qlt_le_dec _ _); lia. Qed.

(** X3: the climate zone is one of 1..5 for every latitude, does not depend
    on the longitude or on the sign of the latitude, does not decrease as
    the latitude moves away from the equator, and always has an entry in the
    table of per-zone estimates. *)
Theorem estimate_climate_zone_range (latitude longitude : Q) :
  (1 <= estimate_climate_zone latitude longitude <= 5)%Z
  ∧ (∀ longitude', estimate_climate_zone latitude longitude'
                   = estimate_climate_zone latitude longitude)
  ∧ estimate_climate_zone (- latitude) longitude
    = estimate_climate_zone latitude longitude
  ∧ (∀ latitude', Qabs latitude <= Qabs latitude' →
       (estimate_climate_zone latitude longitude
        <= estimate_climate_zone latitude' longitude)%Z)
  ∧ is_Some (zone_lookup (estimate_climate_zone latitude longitude)).
Proof.
  unfold estimate_climate_zone. split; [| split; [| split; [| split]]].
  - cbv zeta. repeat destruct (Qlt_le_dec _ _); lia.
  - intros longitude'. reflexivity.
  - cbv zeta. pose proof (Qabs_opp latitude) as Hopp.
    repeat destruct (Qlt_le_dec _ _); try reflexivity; lra.
  - intros latitude' Habs. cbv zeta.
    repeat destruct (Qlt_le_dec _ _); try lia; lra.
  - cbv zeta. repeat destruct (Qlt_le_dec _ _); by eexists.
Qed.

(** ** Invariants of the aggregation loop *)

Lemma process_chunk_invariant (I : aggregates → Prop) :
  (∀ ev st, I st → I (process_event ev st)) →
  ∀ chunk st, I st → I (process_chunk chunk st).
Proof.
  intros Hstep chunk. unfold process_chunk.
  induction (dropna chunk) as [| ev evs IH]; intros st Hst; simpl; [done |].
  apply IH, Hstep, Hst.
Qed.

Lemma read_chunks_invariant (I : aggregates → Prop) :
  (∀ ev st, I st → I (process_event ev st)) →
  ∀ state_filter max_chunks chunks chunks_processed st,
    I st → I (read_chunks state_filter max_chunks chunks chunks_processed st).
Proof.
  intros Hstep state_filter max_chunks chunks.
  induction chunks as [| chunk rest IH]; intros n st Hst; simpl; [done |].
  destruct (reached_max_chunks max_chunks (S n)).
  - by apply process_chunk_invariant.
  - apply IH. by apply process_chunk_invariant.
Qed.

Lemma dom_update_location ev zip state location_id (ld : gmap string location_entry) :
  dom (update_location ev zip state location_id ld) = {[location_id]} ∪ dom ld.
Proof.
  unfold update_location. rewrite dom_alter_L.
  destruct (ld !! location_id) eqn:Hld.
  - apply elem_of_dom_2 in Hld. symmetry. apply subseteq_union_1_L.
    by apply singleton_subseteq_l.
  - by rewrite dom_insert_L.
Qed.

Lemma process_event_same_locations ev st :
  same_locations st → same_locations (process_event ev st).
Proof.
  intros (Hd & Hm & He). unfold process_event.
  destruct (Type_ ev), (Severity ev), (StartTime ev), (EndTime ev); try done.
  destruct (ZipCode ev), (State ev); try done.
  unfold same_locations; simpl.
  unfold update_daily, update_monthly, update_event_stats.
  rewrite dom_update_location, !dom_insert_L, Hd, Hm, He. done.
Qed.

Lemma read_chunks_same_locations state_filter max_chunks chunks :
  same_locations (read_chunks state_filter max_chunks chunks 0 no_aggregates).
Proof.
  apply read_chunks_invariant; [apply process_event_same_locations |].
  unfold same_locations; simpl. by rewrite !dom_empty_L.
Qed.

(** ** What a flush writes, and what it leaves *)

Section WriteInversion.
Context `{Countable K} {V : Type}.
Implicit Types (table : gmap K V) (rows : list (K * V)).

Lemma insert_in_batches_lookup_inv table rows k v :
  Db.insert_in_batches table rows !! k = Some v →
  (k, v) ∈ rows ∨ table !! k = Some v.
Proof.
  rewrite insert_in_batches_union. intros [Hnew | [_ Hold]]%lookup_union_Some_raw.
  - left. apply elem_of_list_to_map_2 in Hnew. by apply elem_of_reverse.
  - by right.
Qed.

Lemma insert_in_batches_keeps_keys table rows k :
  is_Some (table !! k) → is_Some (Db.insert_in_batches table rows !! k).
Proof.
  intros Hk. rewrite insert_in_batches_union. apply lookup_union_is_Some. by right.
Qed.
End WriteInversion.

Lemma daily_rows_inv (dw : gmap string (gmap date daily_entry)) d loc row :
  ((d, loc), row) ∈ daily_data_to_insert dw →
  ∃ dates data, dw !! loc = Some dates ∧ dates !! d = Some data ∧ row = daily_row data.
Proof.
  unfold daily_data_to_insert.
  intros [[loc' dates] [Hin Hloc]]%list_elem_of_bind.
  apply list_elem_of_bind in Hin as [[d' data] [Hin Hd]].
  apply list_elem_of_singleton in Hin. simplify_eq.
  apply elem_of_map_to_list in Hloc, Hd. by exists dates, data.
Qed.

Lemma monthly_rows_inv (ms : gmap string (gmap Z (gmap Z monthly_entry))) y m loc row :
  ((y, m, loc), row) ∈ monthly_data_to_insert ms →
  ∃ years months data,
    ms !! loc = Some years ∧ years !! y = Some months ∧ months !! m = Some data
    ∧ row = monthly_row data.
Proof.
  unfold monthly_data_to_insert.
  intros [[loc' years] [Hin Hloc]]%list_elem_of_bind.
  apply list_elem_of_bind in Hin as [[y' months] [Hin Hy]].
  apply list_elem_of_bind in Hin as [[m' data] [Hin Hm]].
  apply list_elem_of_singleton in Hin. simplify_eq.
  apply elem_of_map_to_list in Hloc, Hy, Hm. by exists years, months, data.
Qed.

Lemma event_rows_inv (es : gmap string (gmap string event_entry)) loc t row :
  ((loc, t), row) ∈ event_data_to_insert es →
  ∃ types data, es !! loc = Some types ∧ types !! t = Some data ∧ row = event_row data.
Proof.
  unfold event_data_to_insert.
  intros [[loc' types] [Hin Hloc]]%list_elem_of_bind.
  apply list_elem_of_bind in Hin as [[t' data] [Hin Ht]].
  apply list_elem_of_singleton in Hin. simplify_eq.
  apply elem_of_map_to_list in Hloc, Ht. by exists types, data.
Qed.

Lemma event_rows_NoDup (es : gmap string (gmap string event_entry)) :
  NoDup (event_data_to_insert es).*1.
Proof.
  unfold event_data_to_insert.
  apply (NoDup_fst_bind_map _ _ fst).
  - intros [loc types] k _ Hk. apply list_elem_of_fmap in Hk as [[k' v] [-> Hkv]].
    apply list_elem_of_bind in Hkv as [[t data] [Hrow _]].
    apply list_elem_of_singleton in Hrow. by inversion Hrow.
  - intros [loc types] _. apply (NoDup_fst_bind_map _ _ snd).
    + intros [t data] k _ Hk. simpl in Hk.
      apply list_elem_of_singleton in Hk. by subst.
    + intros [t data] _. simpl. apply NoDup_singleton.
Qed.

Lemma save_event_lookup (es : gmap string (gmap string event_entry)) table
    loc types t data :
  es !! loc = Some types → types !! t = Some data →
  save_event_statistics es table !! (loc, t) = Some (event_row data).
Proof.
  intros Hloc Ht. unfold save_event_statistics.
  apply insert_in_batches_lookup; [apply event_rows_NoDup |].
  unfold event_data_to_insert.
  apply list_elem_of_bind. exists (loc, types). split; [| by apply elem_of_map_to_list].
  apply list_elem_of_bind. exists (t, data). split; [| by apply elem_of_map_to_list].
  apply list_elem_of_singleton. done.
Qed.

Lemma location_rows_NoDup (ld : gmap string location_entry) :
  NoDup (location_data_to_insert ld).*1.
Proof.
  unfold location_data_to_insert. apply (NoDup_fst_bind_map _ _ id).
  - intros [loc data] k _ Hk. simpl in Hk.
    apply list_elem_of_singleton in Hk. by subst.
  - intros [loc data] _. simpl. apply NoDup_singleton.
Qed.

Lemma location_rows_elem (ld : gmap string location_entry) loc row :
  (loc, row) ∈ location_data_to_insert ld ↔
  ∃ data, ld !! loc = Some data ∧ row = location_row data.
Proof.
  unfold location_data_to_insert. rewrite list_elem_of_bind. split.
  - intros [[loc' data] [Hin Hloc]].
    apply list_elem_of_singleton in Hin. simplify_eq.
    apply elem_of_map_to_list in Hloc. by exists data.
  - intros (data & Hloc & ->). exists (loc, data).
    split; [by apply list_elem_of_singleton | by apply elem_of_map_to_list].
Qed.

Lemma save_location_lookup (ld : gmap string location_entry) table loc data :
  ld !! loc = Some data →
  save_location_data ld table !! loc = Some (location_row data).
Proof.
  intros Hloc. unfold save_location_data.
  apply insert_in_batches_lookup; [apply location_rows_NoDup |].
  apply location_rows_elem. by exists data.
Qed.

Lemma save_location_lookup_other (ld : gmap string location_entry) table loc :
  ld !! loc = None → save_location_data ld table !! loc = table !! loc.
Proof.
  intros Hloc. unfold save_location_data. apply insert_in_batches_lookup_other.
  intros [[loc' row] [-> Hin]]%list_elem_of_fmap.
  apply location_rows_elem in Hin as (data & Hdata & _). simpl in *. congruence.
Qed.

(** X4: a run keeps the declared foreign keys: if every daily, monthly and
    event row of the store belongs to a stored location before the run, so
    does every such row after it.  SQLite itself does not enforce them. *)
Theorem pipeline_keeps_referential_integrity (chunks : list (list event))
    (state_filter : option (list string)) (max_chunks : option nat) (db : Db.t) :
  referential_integrity db →
  referential_integrity (preprocess_weather_data chunks state_filter max_chunks db).
Proof.
  intros (Hdaily & Hmonthly & Hevents).
  pose proof (read_chunks_same_locations state_filter max_chunks chunks)
    as (Hd & Hm & He).
  unfold preprocess_weather_data.
  set (st := read_chunks state_filter max_chunks chunks 0 no_aggregates) in *.
  assert (Hseen : ∀ loc, loc ∈ dom (location_data st) →
            is_Some (save_location_data (location_data st) (Db.locations db) !! loc)).
  { intros loc [data Hdata]%elem_of_dom.
    rewrite (save_location_lookup _ _ _ _ Hdata). by eexists. }
  assert (Hold : ∀ loc, is_Some (Db.locations db !! loc) →
            is_Some (save_location_data (location_data st) (Db.locations db) !! loc)).
  { intros loc. apply insert_in_batches_keeps_keys. }
  split_and!; simpl.
  - intros d loc row [Hnew | Hrow]%insert_in_batches_lookup_inv.
    + apply daily_rows_inv in Hnew as (dates & _ & Hloc & _).
      apply Hseen. rewrite <- Hd. by apply elem_of_dom_2 in Hloc.
    + by eapply Hold, Hdaily.
  - intros y m loc row [Hnew | Hrow]%insert_in_batches_lookup_inv.
    + apply monthly_rows_inv in Hnew as (years & _ & _ & Hloc & _).
      apply Hseen. rewrite <- Hm. by apply elem_of_dom_2 in Hloc.
    + by eapply Hold, Hmonthly.
  - intros loc t row [Hnew | Hrow]%insert_in_batches_lookup_inv.
    + apply event_rows_inv in Hnew as (types & _ & Hloc & _).
      apply Hseen. rewrite <- He. by apply elem_of_dom_2 in Hloc.
    + by eapply Hold, Hevents.
Qed.

Lemma pipeline_keeps_referential_integrity_witness :
  referential_integrity monthly_only_db
  ∧ referential_integrity
      (preprocess_weather_data [[cold_event; unlocated_event]] None None monthly_only_db).
Proof.
  assert (Hdb : referential_integrity monthly_only_db).
  { split_and!; simpl.
    - intros d loc row. by rewrite lookup_empty.
    - intros y m loc row [[= _ _ <-] _]%lookup_singleton_Some.
      rewrite lookup_singleton_eq. by eexists.
    - intros loc t row. by rewrite lookup_empty. }
  split; [exact Hdb |].
  exact (pipeline_keeps_referential_integrity _ None None monthly_only_db Hdb).
Defined.

(** ** Chunks, limits and skipped rows *)

Lemma dropna_app (a b : list event) : dropna (a ++ b) = dropna a ++ dropna b.
Proof. apply List.filter_app. Qed.

Lemma apply_state_filter_app state_filter (a b : list event) :
  apply_state_filter state_filter (a ++ b)
  = apply_state_filter state_filter a ++ apply_state_filter state_filter b.
Proof.
  unfold apply_state_filter. destruct state_filter as [[| s ss] |]; try done.
  apply List.filter_app.
Qed.

Lemma process_chunk_app (a b : list event) st :
  process_chunk (a ++ b) st = process_chunk b (process_chunk a st).
Proof. unfold process_chunk. by rewrite dropna_app, foldl_app. Qed.

Lemma read_chunks_no_limit state_filter chunks chunks_processed st :
  read_chunks state_filter None chunks chunks_processed st
  = process_chunk (apply_state_filter state_filter (concat chunks)) st.
Proof.
  revert chunks_processed st.
  induction chunks as [| chunk rest IH]; intros n st; simpl.
  - by destruct state_filter as [[| s ss] |].
  - by rewrite IH, apply_state_filter_app, process_chunk_app.
Qed.

(** X5: for an input whose zip codes are all integers, and without a chunk
    limit, the result depends on the rows only, not on how the reader cuts
    them into chunks: two inputs with the same rows in the same order give
    the same store. *)
Theorem chunking_does_not_matter (chunks1 chunks2 : list (list event))
    (state_filter : option (list string)) (db : Db.t) :
  integer_zips (concat chunks1) →
  concat chunks1 = concat chunks2 →
  preprocess_weather_data chunks1 state_filter None db
  = preprocess_weather_data chunks2 state_filter None db.
Proof.
  intros _ Hrows. unfold preprocess_weather_data.
  by rewrite !read_chunks_no_limit, Hrows.
Qed.

Lemma chunking_does_not_matter_witness :
  integer_zips (concat [[cold_event; unrated_event]; [cold_event]])
  ∧ concat [[cold_event; unrated_event]; [cold_event]]
    = concat [[cold_event]; [unrated_event]; [cold_event]]
  ∧ preprocess_weather_data [[cold_event; unrated_event]; [cold_event]]
      None None Db.empty
    = preprocess_weather_data [[cold_event]; [unrated_event]; [cold_event]]
        None None Db.empty.
Proof.
  split; [reflexivity |]. split; [reflexivity |].
  apply chunking_does_not_matter; reflexivity.
Defined.

Lemma read_chunks_limit_zero state_filter chunks chunks_processed st :
  read_chunks state_filter (Some 0%nat) chunks chunks_processed st
  = read_chunks state_filter None chunks chunks_processed st.
Proof.
  revert chunks_processed st.
  induction chunks as [| chunk rest IH]; intros n st; simpl; [done | apply IH].
Qed.

Lemma read_chunks_limit state_filter (limit : nat) chunks chunks_processed st :
  (chunks_processed < limit)%nat →
  read_chunks state_filter (Some limit) chunks chunks_processed st
  = read_chunks state_filter None (take (limit - chunks_processed) chunks)
      chunks_processed st.
Proof.
  revert chunks_processed st.
  induction chunks as [| chunk rest IH]; intros n st Hn.
  - by rewrite take_nil.
  - destruct limit as [| limit]; [lia |].
    replace (S limit - n)%nat with (S (limit - n)) by lia. simpl.
    destruct (Nat.leb_spec limit n) as [Hle | Hgt].
    + replace (limit - n)%nat with 0%nat by lia. by rewrite take_0.
    + rewrite IH by lia. by replace (S limit - S n)%nat with (limit - n)%nat by lia.
Qed.

(** X6: a chunk limit n >= 1 makes the run read the first n chunks and
    nothing else; the limit 0 is no limit at all, the whole input is read. *)
Theorem max_chunks_reads_a_prefix (chunks : list (list event))
    (state_filter : option (list string)) (db : Db.t) :
  preprocess_weather_data chunks state_filter (Some 0%nat) db
  = preprocess_weather_data chunks state_filter None db
  ∧ ∀ n : nat,
      preprocess_weather_data chunks state_filter (Some (S n)) db
      = preprocess_weather_data (take (S n) chunks) state_filter None db.
Proof.
  unfold preprocess_weather_data. split.
  - by rewrite read_chunks_limit_zero.
  - intros n. rewrite read_chunks_limit by lia.
    by replace (S n - 0)%nat with (S n) by lia.
Qed.

Lemma process_event_skips ev st :
  event_location_id ev = None → process_event ev st = st.
Proof.
  unfold event_location_id, process_event.
  destruct (Type_ ev), (Severity ev), (StartTime ev), (EndTime ev); try done.
  by destruct (ZipCode ev), (State ev).
Qed.

Lemma dropna_keeps_located ev :
  is_Some (event_location_id ev) →
  (bool_decide (is_Some (StartTime ev)) && bool_decide (is_Some (EndTime ev))
   && bool_decide (is_Some (Type_ ev)) && bool_decide (is_Some (Severity ev))) = true.
Proof.
  unfold event_location_id.
  destruct (Type_ ev), (Severity ev), (StartTime ev), (EndTime ev);
    intros [? ?]; done.
Qed.

Lemma process_chunk_located (chunk : list event) st :
  process_chunk chunk st
  = foldl (λ st ev, process_event ev st) st
      (List.filter (λ ev, bool_decide (is_Some (event_location_id ev))) chunk).
Proof.
  unfold process_chunk, dropna. revert st.
  induction chunk as [| ev chunk IH]; intros st; simpl; [done |].
  destruct (event_location_id ev) as [loc |] eqn:Hloc.
  - rewrite dropna_keeps_located by (rewrite Hloc; by eexists).
    rewrite (bool_decide_eq_true_2 (is_Some (Some loc))) by (by eexists).
    simpl. apply IH.
  - rewrite (bool_decide_eq_false_2 (is_Some None)) by apply is_Some_None.
    destruct (_ && _); simpl; [| apply IH].
    rewrite process_event_skips by done. apply IH.
Qed.

Lemma list_filter_filter {A} (f g : A → bool) (l : list A) :
  List.filter f (List.filter g l) = List.filter (λ x, g x && f x) l.
Proof.
  induction l as [| x l IH]; simpl; [done |].
  destruct (g x); simpl; [destruct (f x) |]; by rewrite IH.
Qed.

(** X7: in an input whose zip codes are all integers, rows that lack a
    type, a severity, a start or end time or a state contribute nothing:
    the run gives the same store as on the input with those rows removed. *)
Theorem incomplete_rows_contribute_nothing (chunks : list (list event))
    (state_filter : option (list string)) (max_chunks : option nat) (db : Db.t) :
  integer_zips (concat chunks) →
  preprocess_weather_data chunks state_filter max_chunks db
  = preprocess_weather_data
      (List.filter (λ ev, bool_decide (is_Some (event_location_id ev))) <$> chunks)
      state_filter max_chunks db.
Proof.
  intros _. unfold preprocess_weather_data.
  assert (Hsame : ∀ n st,
            read_chunks state_filter max_chunks chunks n st
            = read_chunks state_filter max_chunks
                (List.filter (λ ev, bool_decide (is_Some (event_location_id ev)))
                   <$> chunks) n st).
  { induction chunks as [| chunk rest IH]; intros n st; simpl; [done |].
    assert (Hchunk :
              process_chunk (apply_state_filter state_filter chunk) st
              = process_chunk
                  (apply_state_filter state_filter
                     (List.filter (λ ev, bool_decide (is_Some (event_location_id ev)))
                        chunk)) st).
    { rewrite (process_chunk_located (apply_state_filter _ chunk)).
      rewrite (process_chunk_located (apply_state_filter _ (List.filter _ chunk))).
      f_equal. unfold apply_state_filter.
      destruct state_filter as [[| s ss] |];
        rewrite !list_filter_filter; apply List.filter_ext; intros ev;
        destruct (State ev); simpl;
        destruct (bool_decide (is_Some (event_location_id ev))); simpl;
        try done; by destruct (bool_decide _). }
    rewrite <- Hchunk. destruct (reached_max_chunks _ _); [done | apply IH]. }
  by rewrite Hsame.
Qed.

Lemma incomplete_rows_contribute_nothing_witness :
  integer_zips (concat [[cold_event; unrated_event]; [cold_event]])
  ∧ List.filter (λ ev, bool_decide (is_Some (event_location_id ev)))
      <$> [[cold_event; unrated_event]; [cold_event]]
    = [[cold_event]; [cold_event]]
  ∧ preprocess_weather_data [[cold_event; unrated_event]; [cold_event]]
      None (Some 1%nat) Db.empty
    = preprocess_weather_data
        (List.filter (λ ev, bool_decide (is_Some (event_location_id ev)))
           <$> [[cold_event; unrated_event]; [cold_event]])
        None (Some 1%nat) Db.empty.
Proof.
  split; [reflexivity |]. split; [reflexivity |].
  apply incomplete_rows_contribute_nothing. reflexivity.
Defined.

(** ** Locations and their event counts *)

Lemma read_chunks_invariant_on (I : aggregates → Prop) (Q : event → Prop)
    state_filter :
  (∀ ev st, Q ev → I st → I (process_event ev st)) →
  (∀ chunk ev, ev ∈ apply_state_filter state_filter chunk → Q ev) →
  ∀ max_chunks chunks chunks_processed st,
    I st → I (read_chunks state_filter max_chunks chunks chunks_processed st).
Proof.
  intros Hstep Hq max_chunks chunks.
  assert (Hchunk : ∀ chunk st, I st →
            I (process_chunk (apply_state_filter state_filter chunk) st)).
  { intros chunk. unfold process_chunk.
    assert (Hin : ∀ ev, ev ∈ dropna (apply_state_filter state_filter chunk) → Q ev).
    { intros ev Hev. apply (Hq chunk).
      apply list_elem_of_In, filter_In in Hev as [Hev _]. by apply list_elem_of_In. }
    induction (dropna (apply_state_filter state_filter chunk)) as [| ev evs IH];
      intros st Hst; simpl; [done |].
    apply IH; [intros ev' Hev'; apply Hin; by right |].
    apply Hstep; [apply Hin; left | done]. }
  induction chunks as [| chunk rest IH]; intros n st Hst; simpl; [done |].
  destruct (reached_max_chunks max_chunks (S n)); [by apply Hchunk |].
  by apply IH, Hchunk.
Qed.

Lemma process_event_located ev st location_id :
  event_location_id ev = Some location_id →
  ∃ zip state,
    ZipCode ev = Some zip ∧ State ev = Some state
    ∧ location_id = (zip +:+ "_" +:+ state)%string
    ∧ location_data (process_event ev st)
      = update_location ev zip state location_id (location_data st).
Proof.
  unfold event_location_id, process_event.
  destruct (Type_ ev), (Severity ev), (StartTime ev), (EndTime ev); try done.
  destruct (ZipCode ev) as [zip |], (State ev) as [state |]; try done.
  intros [= <-]. by exists zip, state.
Qed.

Lemma update_location_lookup ev zip state location_id
    (ld : gmap string location_entry) loc :
  update_location ev zip state location_id ld !! loc =
    if decide (location_id = loc) then
      Some (match ld !! location_id with
            | Some e =>
                {| le_zip_code := le_zip_code e; le_city := le_city e;
                   le_county := le_county e; le_state := le_state e;
                   le_latitude := le_latitude e; le_longitude := le_longitude e;
                   le_event_count := le_event_count e + 1;
                   le_climate_zone := le_climate_zone e |}
            | None =>
                {| le_zip_code := zip; le_city := City ev; le_county := County ev;
                   le_state := state; le_latitude := LocationLat ev;
                   le_longitude := LocationLng ev; le_event_count := 0 + 1;
                   le_climate_zone :=
                     estimate_climate_zone (LocationLat ev) (LocationLng ev) |}
            end)
    else ld !! loc.
Proof.
  unfold update_location. destruct (decide (location_id = loc)) as [<- | Hne].
  - rewrite lookup_alter_eq. destruct (ld !! location_id) as [e |] eqn:Hld.
    + by rewrite Hld.
    + by rewrite lookup_insert_eq.
  - rewrite lookup_alter_ne by done.
    destruct (ld !! location_id); [done | by rewrite lookup_insert_ne].
Qed.

Lemma process_event_location_entries ev st :
  (∀ loc e, location_data st !! loc = Some e → location_entry_ok loc e) →
  ∀ loc e, location_data (process_event ev st) !! loc = Some e →
           location_entry_ok loc e.
Proof.
  intros Hok loc e.
  destruct (event_location_id ev) as [id |] eqn:Hid;
    [| rewrite process_event_skips by done; apply Hok].
  destruct (process_event_located ev st id Hid) as (zip & state & _ & _ & -> & ->).
  rewrite update_location_lookup. case_decide as Hloc; [| apply Hok].
  subst loc. destruct (location_data st !! _) as [old |] eqn:Hold; intros [= <-].
  - destruct (Hok _ _ Hold) as (Hkey & Hzone & Hcount).
    unfold location_entry_ok; simpl. split_and!; [done | done | lia].
  - unfold location_entry_ok; simpl. split_and!; [done | done | lia].
Qed.

Lemma read_chunks_location_entries state_filter max_chunks chunks loc e :
  location_data (read_chunks state_filter max_chunks chunks 0 no_aggregates) !! loc
    = Some e →
  location_entry_ok loc e.
Proof.
  revert loc e.
  apply (read_chunks_invariant
           (λ st, ∀ loc e, location_data st !! loc = Some e → location_entry_ok loc e)).
  - intros ev st. apply process_event_location_entries.
  - intros loc e. simpl. by rewrite lookup_empty.
Qed.

Lemma read_chunks_states_filtered s ss max_chunks chunks loc e :
  location_data (read_chunks (Some (s :: ss)) max_chunks chunks 0 no_aggregates) !! loc
    = Some e →
  le_state e ∈ s :: ss.
Proof.
  revert loc e.
  apply (read_chunks_invariant_on
           (λ st, ∀ loc e, location_data st !! loc = Some e → le_state e ∈ s :: ss)
           (λ ev, ∀ state, State ev = Some state → state ∈ s :: ss)).
  - intros ev st Hev Hst loc e.
    destruct (event_location_id ev) as [id |] eqn:Hid;
      [| rewrite process_event_skips by done; apply Hst].
    destruct (process_event_located ev st id Hid)
      as (zip & state & _ & Hstate & -> & ->).
    rewrite update_location_lookup. case_decide as Hloc; [| apply Hst].
    destruct (location_data st !! _) as [old |] eqn:Hold; intros [= <-]; simpl.
    + by eapply Hst.
    + by apply Hev.
  - intros chunk ev Hin state Hstate. simpl in Hin.
    apply list_elem_of_In, filter_In in Hin as [_ Hin].
    rewrite Hstate in Hin. by apply bool_decide_eq_true_1 in Hin.
  - intros loc e. simpl. by rewrite lookup_empty.
Qed.

Lemma empty_table_rows_are_written `{Countable K} {V} (rows : list (K * V)) k v :
  Db.insert_in_batches (∅ : gmap K V) rows !! k = Some v → (k, v) ∈ rows.
Proof.
  intros [Hin | Hold]%insert_in_batches_lookup_inv; [done |].
  by rewrite lookup_empty in Hold.
Qed.

(** X8: on a fresh store, every location row that a run writes has the key
    zip_state of its own zip code and state, the climate zone that its
    stored coordinates give (one of 1..5), an event frequency of at least
    1/7 (one counted event), and a state of the state filter when one is
    given. *)
Theorem location_rows_of_a_run (chunks : list (list event))
    (state_filter : option (list string)) (max_chunks : option nat)
    (location_id : string) (row : Db.location_cols) :
  Db.locations (preprocess_weather_data chunks state_filter max_chunks Db.empty)
    !! location_id = Some row →
  location_id = (Db.zip_code row +:+ "_" +:+ Db.state row)%string
  ∧ Db.climate_zone row = estimate_climate_zone (Db.latitude row) (Db.longitude row)
  ∧ (1 <= Db.climate_zone row <= 5)%Z
  ∧ 1 / 7 <= Db.event_frequency row
  ∧ (∀ s ss, state_filter = Some (s :: ss) → Db.state row ∈ s :: ss).
Proof.
  unfold preprocess_weather_data; simpl. unfold save_location_data.
  intros Hrow. apply empty_table_rows_are_written in Hrow.
  apply location_rows_elem in Hrow as (e & He & ->).
  destruct (read_chunks_location_entries _ _ _ _ _ He) as (Hkey & Hzone & Hcount).
  simpl. split; [done | split; [done | split; [| split]]].
  - rewrite Hzone. apply estimate_climate_zone_bounds.
  - unfold Qdiv. apply Qmult_le_compat_r; [| done].
    rewrite <- (Zle_Qle 1). exact Hcount.
  - intros s ss ->. by eapply read_chunks_states_filtered.
Qed.

Lemma location_rows_of_a_run_witness :
  ∃ row,
    Db.locations (preprocess_weather_data [[cold_event; cold_event]] (Some ["CA"%string])
                    None Db.empty) !! "90210_CA"%string = Some row
    ∧ Db.zip_code row = "90210"%string ∧ Db.state row = "CA"%string
    ∧ Db.climate_zone row = 3%Z
    ∧ 1 / 7 <= Db.event_frequency row.
Proof.
  assert (Hrow : ∃ row,
            Db.locations (preprocess_weather_data [[cold_event; cold_event]]
                            (Some ["CA"%string]) None Db.empty) !! "90210_CA"%string
            = Some row ∧ Db.zip_code row = "90210"%string
            ∧ Db.state row = "CA"%string ∧ Db.climate_zone row = 3%Z).
  { eexists. split; [by vm_compute | by vm_compute]. }
  destruct Hrow as (row & Hrow & Hzip & Hstate & Hzone).
  exists row. split_and!; [done .. |].
  exact (proj1 (proj2 (proj2 (proj2
           (location_rows_of_a_run _ _ _ _ _ Hrow))))).
Defined.

Lemma process_event_count ev st loc :
  event_count (process_event ev st) loc
  = (event_count st loc
     + if bool_decide (event_location_id ev = Some loc) then 1 else 0)%Z.
Proof.
  unfold event_count.
  destruct (event_location_id ev) as [id |] eqn:Hid.
  - destruct (process_event_located ev st id Hid) as (zip & state & _ & _ & _ & ->).
    rewrite update_location_lookup. case_decide as Hloc.
    + subst id. rewrite bool_decide_eq_true_2 by done.
      by destruct (location_data st !! loc).
    + rewrite bool_decide_eq_false_2 by congruence. lia.
  - rewrite process_event_skips by done.
    rewrite bool_decide_eq_false_2 by done. lia.
Qed.

Lemma foldl_process_event_count (evs : list event) st loc :
  event_count (foldl (λ st ev, process_event ev st) st evs) loc
  = (event_count st loc + Z.of_nat (length (events_of_location loc evs)))%Z.
Proof.
  revert st. induction evs as [| ev evs IH]; intros st; simpl; [lia |].
  rewrite IH, process_event_count.
  destruct (bool_decide (event_location_id ev = Some loc)); simpl; lia.
Qed.

Lemma process_chunk_count (chunk : list event) st loc :
  event_count (process_chunk chunk st) loc
  = (event_count st loc + Z.of_nat (length (events_of_location loc chunk)))%Z.
Proof.
  rewrite process_chunk_located, foldl_process_event_count. do 3 f_equal.
  unfold events_of_location. rewrite list_filter_filter.
  apply List.filter_ext. intros ev.
  by destruct (event_location_id ev).
Qed.

(** X9: for an input whose zip codes are all integers, and without a chunk
    limit, the event frequency stored for a location is the number of
    complete input rows of that location (after the state filter) divided
    by 7; a location without such a row keeps whatever row the store had
    for it. *)
Theorem event_frequency_counts_rows (chunks : list (list event))
    (state_filter : option (list string)) (db : Db.t) (location_id : string) :
  integer_zips (concat chunks) →
  let rows := apply_state_filter state_filter (concat chunks) in
  let n := length (events_of_location location_id rows) in
  let db' := preprocess_weather_data chunks state_filter None db in
  (n = 0%nat → Db.locations db' !! location_id = Db.locations db !! location_id)
  ∧ (n ≠ 0%nat →
     ∃ row, Db.locations db' !! location_id = Some row
            ∧ Db.event_frequency row = inject_Z (Z.of_nat n) / 7).
Proof.
  intros _ rows n db'. unfold db', preprocess_weather_data; simpl.
  pose proof (read_chunks_location_entries state_filter None chunks location_id)
    as Hok.
  rewrite read_chunks_no_limit in *. fold rows in Hok |- *.
  pose proof (process_chunk_count rows no_aggregates location_id) as Hcount.
  fold n in Hcount. unfold event_count in Hcount. simpl in Hcount.
  rewrite lookup_empty in Hcount. simpl in Hcount.
  destruct (location_data (process_chunk rows no_aggregates) !! location_id)
    as [e |] eqn:He; simpl in Hcount.
  - destruct (Hok e eq_refl) as (_ & _ & Hpos). split; [lia |].
    intros _. exists (location_row e).
    split; [by apply save_location_lookup |].
    unfold location_row; simpl. by rewrite Hcount.
  - split; [| lia]. intros _. by apply save_location_lookup_other.
Qed.

Lemma event_frequency_counts_rows_witness :
  integer_zips (concat [[cold_event; unrated_event]; [cold_event]])
  ∧ length (events_of_location "90210_CA"
              (apply_state_filter None
                 (concat [[cold_event; unrated_event]; [cold_event]]))) = 2%nat
  ∧ ∃ row,
      Db.locations
        (preprocess_weather_data [[cold_event; unrated_event]; [cold_event]]
           None None monthly_only_db) !! "90210_CA"%string = Some row
      ∧ Db.event_frequency row = inject_Z 2 / 7.
Proof.
  split; [reflexivity |]. split; [reflexivity |].
  assert (Hzips : integer_zips (concat [[cold_event; unrated_event]; [cold_event]]))
    by reflexivity.
  exact (proj2 (event_frequency_counts_rows
                  [[cold_event; unrated_event]; [cold_event]] None
                  monthly_only_db "90210_CA" Hzips) ltac:(discriminate)).
Defined.

(** ** Sums, means and extrema of samples *)

Lemma py_sum_le (hi : Q) (xs : list Q) :
  Forall (λ x, x <= hi) xs → Py.sum xs <= Py.len xs * hi.
Proof.
  unfold Py.sum, Py.len. intros Hxs.
  assert (Hgen : ∀ a, foldl Qplus a xs <= a + inject_Z (Z.of_nat (length xs)) * hi).
  { induction Hxs as [| x xs Hx _ IH]; intros a; simpl length.
    - simpl. change (inject_Z (Z.of_nat 0)) with 0. lra.
    - simpl foldl. eapply Qle_trans; [apply IH |].
      rewrite Nat2Z.inj_succ. unfold Z.succ.
      rewrite inject_Z_plus. change (inject_Z 1) with 1. lra. }
  eapply Qle_trans; [apply Hgen | lra].
Qed.

Lemma py_sum_ge (lo : Q) (xs : list Q) :
  Forall (λ x, lo <= x) xs → Py.len xs * lo <= Py.sum xs.
Proof.
  unfold Py.sum, Py.len. intros Hxs.
  assert (Hgen : ∀ a, a + inject_Z (Z.of_nat (length xs)) * lo <= foldl Qplus a xs).
  { induction Hxs as [| x xs Hx _ IH]; intros a; simpl length.
    - simpl. change (inject_Z (Z.of_nat 0)) with 0. lra.
    - simpl foldl. eapply Qle_trans; [| apply IH].
      rewrite Nat2Z.inj_succ. unfold Z.succ.
      rewrite inject_Z_plus. change (inject_Z 1) with 1. lra. }
  eapply Qle_trans; [| apply Hgen]. lra.
Qed.

Lemma py_len_pos {A} (xs : list A) : xs ≠ [] → 0 < Py.len xs.
Proof.
  intros Hne. unfold Py.len. destruct xs as [| x xs]; [done |].
  rewrite <- (Zlt_Qlt 0). simpl length. lia.
Qed.

Lemma py_mean_le (hi : Q) (xs : list Q) :
  xs ≠ [] → Forall (λ x, x <= hi) xs → Py.mean xs <= hi.
Proof.
  intros Hne Hxs. unfold Py.mean.
  apply Qle_shift_div_r; [by apply py_len_pos |].
  rewrite Qmult_comm. by apply py_sum_le.
Qed.

Lemma py_mean_ge (lo : Q) (xs : list Q) :
  xs ≠ [] → Forall (λ x, lo <= x) xs → lo <= Py.mean xs.
Proof.
  intros Hne Hxs. unfold Py.mean.
  apply Qle_shift_div_l; [by apply py_len_pos |].
  rewrite Qmult_comm. by apply py_sum_ge.
Qed.

Lemma mean_or_zero_le (hi : Q) (xs : list Q) :
  0 <= hi → Forall (λ x, x <= hi) xs → mean_or_zero xs <= hi.
Proof.
  intros Hhi Hxs. unfold mean_or_zero. destruct xs as [| x xs]; [done |].
  by apply py_mean_le.
Qed.

Lemma list_min_spec (x : Q) (xs : list Q) :
  list_min x xs ∈ x :: xs ∧ Forall (λ y, list_min x xs <= y) (x :: xs).
Proof.
  unfold list_min. revert x. induction xs as [| y ys IH]; intros x; simpl.
  - split; [left | constructor; [lra | constructor]].
  - destruct (Qlt_le_dec y x) as [Hlt | Hle].
    + destruct (IH y) as [Hin Hall]. split.
      * right. exact Hin.
      * apply Forall_cons in Hall as [Hy Hys]. constructor; [lra | by constructor].
    + destruct (IH x) as [Hin Hall]. split.
      * apply elem_of_cons in Hin as [-> | Hin]; [left | right; by right].
      * apply Forall_cons in Hall as [Hx Hys].
        constructor; [done | constructor; [lra | done]].
Qed.

Lemma list_max_spec (x : Q) (xs : list Q) :
  list_max x xs ∈ x :: xs ∧ Forall (λ y, y <= list_max x xs) (x :: xs).
Proof.
  unfold list_max. revert x. induction xs as [| y ys IH]; intros x; simpl.
  - split; [left | constructor; [lra | constructor]].
  - destruct (Qlt_le_dec x y) as [Hlt | Hle].
    + destruct (IH y) as [Hin Hall]. split.
      * right. exact Hin.
      * apply Forall_cons in Hall as [Hy Hys]. constructor; [lra | by constructor].
    + destruct (IH x) as [Hin Hall]. split.
      * apply elem_of_cons in Hin as [-> | Hin]; [left | right; by right].
      * apply Forall_cons in Hall as [Hx Hys].
        constructor; [done | constructor; [lra | done]].
Qed.

(** X10: in a daily row the minimum and maximum temperature are two of the
    day's samples and the average lies between them. *)
Theorem daily_row_min_avg_max (data : daily_entry) (lo avg hi : Q) :
  Db.min_temp (daily_row data) = Some lo →
  Db.avg_temp (daily_row data) = Some avg →
  Db.max_temp (daily_row data) = Some hi →
  lo ∈ de_temp_values data ∧ hi ∈ de_temp_values data
  ∧ lo <= avg <= hi
  ∧ Forall (λ t, lo <= t <= hi) (de_temp_values data).
Proof.
  unfold daily_row. destruct (de_temp_values data) as [| x xs]; simpl; [done |].
  intros [= <-] [= <-] [= <-].
  destruct (list_min_spec x xs) as [Hmin_in Hmin].
  destruct (list_max_spec x xs) as [Hmax_in Hmax].
  split_and!; [done | done | | |].
  - by apply py_mean_ge.
  - by apply py_mean_le.
  - rewrite Forall_forall in Hmin, Hmax. apply Forall_forall. intros t Ht.
    split; [by apply Hmin | by apply Hmax].
Qed.

Lemma daily_row_min_avg_max_witness :
  Db.min_temp (daily_row sample_daily_entry) = Some 10
  ∧ Db.avg_temp (daily_row sample_daily_entry) = Some (Py.mean [10; 20])
  ∧ Db.max_temp (daily_row sample_daily_entry) = Some 20
  ∧ 10 <= Py.mean [10; 20] <= 20.
Proof.
  split_and!; [reflexivity | reflexivity | reflexivity | |];
    apply (daily_row_min_avg_max sample_daily_entry 10 (Py.mean [10; 20]) 20
             eq_refl eq_refl eq_refl).
Defined.

(** ** Ranges of the rows that a run writes *)

Lemma extract_temperature_range severity event_type t :
  extract_temperature severity event_type = Some t → 10 <= t <= 105.
Proof.
  unfold extract_temperature.
  repeat match goal with
         | |- context [String.eqb ?a ?b] => destruct (String.eqb a b)
         end; intros [= <-]; lra.
Qed.

Lemma append_if_some_Forall (P : Q → Prop) xs x :
  Forall P xs → (∀ v, x = Some v → P v) → Forall P (append_if_some xs x).
Proof.
  intros Hxs Hx. destruct x as [v |]; simpl; [| done].
  apply Forall_app. split; [done |]. constructor; [by apply Hx | constructor].
Qed.

Lemma new_daily_entry_ok : daily_entry_ok new_daily_entry.
Proof. unfold daily_entry_ok; simpl. split_and!; [constructor .. | lia | lia]. Qed.

Lemma process_event_daily_ok ev st :
  (∀ loc dates d e, daily_weather st !! loc = Some dates → dates !! d = Some e →
                    daily_entry_ok e) →
  ∀ loc dates d e, daily_weather (process_event ev st) !! loc = Some dates →
                   dates !! d = Some e → daily_entry_ok e.
Proof.
  intros Hok loc dates d e. unfold process_event.
  destruct (Type_ ev) as [ty |], (Severity ev) as [sev |],
    (StartTime ev) as [start |], (EndTime ev) as [end_ |]; try apply Hok.
  destruct (ZipCode ev) as [zip |], (State ev) as [state |]; try apply Hok.
  simpl. unfold update_daily.
  set (id := (zip +:+ "_" +:+ state)%string).
  set (old_dates := default ∅ (daily_weather st !! id)).
  set (old := default new_daily_entry (old_dates !! ts_date start)).
  assert (Hold_dates : ∀ d' e', old_dates !! d' = Some e' → daily_entry_ok e').
  { intros d' e'. unfold old_dates.
    destruct (daily_weather st !! id) as [ds |] eqn:Hds; simpl; [by eapply Hok |].
    by rewrite lookup_empty. }
  assert (Hold : daily_entry_ok old).
  { unfold old. destruct (old_dates !! ts_date start) eqn:E; simpl;
      [by eapply Hold_dates | apply new_daily_entry_ok]. }
  rewrite lookup_insert. case_decide as Hloc; [| apply Hok].
  intros [= <-]. rewrite lookup_insert. case_decide as Hd; [| apply Hold_dates].
  intros [= <-]. destruct Hold as (Htemps & Hscores & Hsev0 & Hsev1).
  unfold daily_entry_ok; simpl. split_and!.
  - apply append_if_some_Forall; [done |]. apply extract_temperature_range.
  - apply Forall_app. split; [done |].
    constructor; [apply impact_score_le_10 | constructor].
  - destruct (is_severe ty); lia.
  - rewrite length_app. simpl. destruct (is_severe ty); lia.
Qed.

Lemma process_event_monthly_ok ev st :
  (∀ loc years y months m e, monthly_stats st !! loc = Some years →
     years !! y = Some months → months !! m = Some e → monthly_entry_ok e) →
  ∀ loc years y months m e, monthly_stats (process_event ev st) !! loc = Some years →
     years !! y = Some months → months !! m = Some e → monthly_entry_ok e.
Proof.
  intros Hok loc years y months m e. unfold process_event.
  destruct (Type_ ev) as [ty |], (Severity ev) as [sev |],
    (StartTime ev) as [start |], (EndTime ev) as [end_ |]; try apply Hok.
  destruct (ZipCode ev) as [zip |], (State ev) as [state |]; try apply Hok.
  simpl. unfold update_monthly.
  set (id := (zip +:+ "_" +:+ state)%string).
  set (old_years := default ∅ (monthly_stats st !! id)).
  set (old_months := default ∅ (old_years !! Date.year (ts_date start))).
  set (old := default new_monthly_entry (old_months !! Date.month (ts_date start))).
  assert (Hold_years : ∀ y' ms m' e', old_years !! y' = Some ms →
            ms !! m' = Some e' → monthly_entry_ok e').
  { intros y' ms m' e'. unfold old_years.
    destruct (monthly_stats st !! id) as [ys |] eqn:Hys; simpl; [by eapply Hok |].
    by rewrite lookup_empty. }
  assert (Hold_months : ∀ m' e', old_months !! m' = Some e' → monthly_entry_ok e').
  { intros m' e'. unfold old_months.
    destruct (old_years !! Date.year (ts_date start)) as [ms |] eqn:Hms; simpl;
      [by eapply Hold_years | by rewrite lookup_empty]. }
  assert (Hold : monthly_entry_ok old).
  { unfold old. destruct (old_months !! Date.month (ts_date start)) eqn:E; simpl;
      [by eapply Hold_months |].
    unfold monthly_entry_ok; simpl. split; constructor. }
  rewrite lookup_insert. case_decide as Hloc; [| apply Hok].
  intros [= <-]. rewrite lookup_insert. case_decide as Hy; [| apply Hold_years].
  intros [= <-]. rewrite lookup_insert. case_decide as Hm; [| apply Hold_months].
  intros [= <-]. destruct Hold as (Htemps & Hscores).
  unfold monthly_entry_ok; simpl. split.
  - apply append_if_some_Forall; [done |]. apply extract_temperature_range.
  - apply Forall_app. split; [done |].
    constructor; [apply impact_score_le_10 | constructor].
Qed.

Lemma severity_value_range severity :
  1 <= Py.dict_get severity_map severity 2 <= 4.
Proof.
  apply dict_get_bounds; [| lra].
  unfold severity_map. repeat constructor; simpl; lra.
Qed.

Lemma process_event_events_ok ev st :
  (∀ loc types t e, event_stats st !! loc = Some types → types !! t = Some e →
                    event_entry_ok e ∧ 1 <= ee_count e)%Z →
  ∀ loc types t e, event_stats (process_event ev st) !! loc = Some types →
                   types !! t = Some e → (event_entry_ok e ∧ 1 <= ee_count e)%Z.
Proof.
  intros Hok loc types t e. unfold process_event.
  destruct (Type_ ev) as [ty |], (Severity ev) as [sev |],
    (StartTime ev) as [start |], (EndTime ev) as [end_ |]; try apply Hok.
  destruct (ZipCode ev) as [zip |], (State ev) as [state |]; try apply Hok.
  simpl. unfold update_event_stats.
  set (id := (zip +:+ "_" +:+ state)%string).
  set (old_types := default ∅ (event_stats st !! id)).
  set (old := default new_event_entry (old_types !! ty)).
  assert (Hold_types : ∀ t' e', old_types !! t' = Some e' →
            (event_entry_ok e' ∧ 1 <= ee_count e')%Z).
  { intros t' e'. unfold old_types.
    destruct (event_stats st !! id) as [ts |] eqn:Hts; simpl; [by eapply Hok |].
    by rewrite lookup_empty. }
  assert (Hold : event_entry_ok old).
  { unfold old. destruct (old_types !! ty) eqn:E; simpl;
      [by eapply Hold_types |].
    unfold event_entry_ok; simpl. split_and!; [done | done | constructor ..]. }
  rewrite lookup_insert. case_decide as Hloc; [| apply Hok].
  intros [= <-]. rewrite lookup_insert. case_decide as Ht; [| apply Hold_types].
  intros [= <-]. destruct Hold as (Hcount & Hlen & Hsev & Hscores).
  unfold event_entry_ok; simpl. rewrite !length_app; simpl. split_and!.
  - lia.
  - lia.
  - apply Forall_app. split; [done |].
    constructor; [apply severity_value_range | constructor].
  - apply Forall_app. split; [done |].
    constructor; [apply impact_score_le_10 | constructor].
  - lia.
Qed.

Lemma read_chunks_daily_ok state_filter max_chunks chunks loc dates d e :
  daily_weather (read_chunks state_filter max_chunks chunks 0 no_aggregates) !! loc
    = Some dates →
  dates !! d = Some e → daily_entry_ok e.
Proof.
  revert loc dates d e.
  apply (read_chunks_invariant
           (λ st, ∀ loc dates d e, daily_weather st !! loc = Some dates →
                                   dates !! d = Some e → daily_entry_ok e)).
  - intros ev st. apply process_event_daily_ok.
  - intros loc dates d e. simpl. by rewrite lookup_empty.
Qed.

Lemma read_chunks_monthly_ok state_filter max_chunks chunks loc years y months m e :
  monthly_stats (read_chunks state_filter max_chunks chunks 0 no_aggregates) !! loc
    = Some years →
  years !! y = Some months → months !! m = Some e → monthly_entry_ok e.
Proof.
  revert loc years y months m e.
  apply (read_chunks_invariant
           (λ st, ∀ loc years y months m e, monthly_stats st !! loc = Some years →
              years !! y = Some months → months !! m = Some e → monthly_entry_ok e)).
  - intros ev st. apply process_event_monthly_ok.
  - intros loc years y months m e. simpl. by rewrite lookup_empty.
Qed.

Lemma read_chunks_events_ok state_filter max_chunks chunks loc types t e :
  event_stats (read_chunks state_filter max_chunks chunks 0 no_aggregates) !! loc
    = Some types →
  types !! t = Some e → event_entry_ok e ∧ (1 <= ee_count e)%Z.
Proof.
  revert loc types t e.
  apply (read_chunks_invariant
           (λ st, ∀ loc types t e, event_stats st !! loc = Some types →
              types !! t = Some e → event_entry_ok e ∧ (1 <= ee_count e)%Z)).
  - intros ev st. apply process_event_events_ok.
  - intros loc types t e. simpl. by rewrite lookup_empty.
Qed.

Lemma degree_day_ranges (avg : Q) :
  10 <= avg <= 105 →
  0 <= Py.max 0 (BASE_TEMP_HEATING - avg) <= 55
  ∧ 0 <= Py.max 0 (avg - BASE_TEMP_COOLING) <= 40
  ∧ (Py.max 0 (BASE_TEMP_HEATING - avg) == 0 ∨ Py.max 0 (avg - BASE_TEMP_COOLING) == 0).
Proof.
  intros Havg. unfold BASE_TEMP_HEATING, BASE_TEMP_COOLING.
  destruct (py_max_0_cases (65 - avg)) as [[H1 E1] | [H1 E1]];
    destruct (py_max_0_cases (avg - 65)) as [[H2 E2] | [H2 E2]];
    rewrite ?E1, ?E2; split_and!; try lra; try (left; lra); right; lra.
Qed.

(** The ranges of a daily row written to a fresh store. *)
Lemma daily_rows_in_range (chunks : list (list event))
    (state_filter : option (list string)) (max_chunks : option nat)
    (d : date) (location_id : string) (row : Db.daily_cols) :
  Db.daily_weather (preprocess_weather_data chunks state_filter max_chunks Db.empty)
    !! (d, location_id) = Some row →
  0 <= Db.heating_degree_days row <= 55
  ∧ 0 <= Db.cooling_degree_days row <= 40
  ∧ (Db.heating_degree_days row == 0 ∨ Db.cooling_degree_days row == 0)
  ∧ (∀ t, Db.avg_temp row = Some t → 10 <= t <= 105)
  ∧ (0 <= Db.severe_events row)%Z
  ∧ Db.impact_score row <= 10.
Proof.
  unfold preprocess_weather_data; simpl. unfold save_daily_weather_data.
  intros Hrow. apply empty_table_rows_are_written in Hrow.
  apply daily_rows_inv in Hrow as (dates & data & Hloc & Hd & ->).
  destruct (read_chunks_daily_ok _ _ _ _ _ _ _ Hloc Hd) as (Htemps & Hscores & Hsev & _).
  assert (Himpact : Db.impact_score (daily_row data) <= 10).
  { unfold daily_row. destruct (de_temp_values data); simpl;
      by apply mean_or_zero_le. }
  unfold daily_row in *. destruct (de_temp_values data) as [| x xs] eqn:Hxs; simpl in *.
  - split_and!; try lra; try done; left; reflexivity.
  - assert (Havg : 10 <= Py.mean (x :: xs) <= 105).
    { split; [apply py_mean_ge | apply py_mean_le]; try done;
        eapply Forall_impl; try exact Htemps; simpl; intros; lra. }
    destruct (degree_day_ranges _ Havg) as (Hh & Hc & Hone).
    split; [exact Hh |]. split; [exact Hc |]. split; [exact Hone |].
    split; [by intros t [= <-] |]. split; [done | exact Himpact].
Qed.

(** The ranges of a monthly row written to a fresh store. *)
Lemma monthly_rows_in_range (chunks : list (list event))
    (state_filter : option (list string)) (max_chunks : option nat)
    (year month : Z) (location_id : string) (row : Db.monthly_cols) :
  Db.monthly_stats (preprocess_weather_data chunks state_filter max_chunks Db.empty)
    !! (year, month, location_id) = Some row →
  0 <= Db.total_heating_degree_days row <= 55 * 30
  ∧ 0 <= Db.total_cooling_degree_days row <= 40 * 30
  ∧ (Db.total_heating_degree_days row == 0 ∨ Db.total_cooling_degree_days row == 0)
  ∧ (∀ t, Db.month_avg_temp row = Some t → 10 <= t <= 105)
  ∧ (0 <= Db.severe_event_days row)%Z
  ∧ Db.avg_impact_score row <= 10.
Proof.
  unfold preprocess_weather_data; simpl. unfold save_monthly_statistics.
  intros Hrow. apply empty_table_rows_are_written in Hrow.
  apply monthly_rows_inv in Hrow as (years & months & data & Hloc & Hy & Hm & ->).
  destruct (read_chunks_monthly_ok _ _ _ _ _ _ _ _ _ Hloc Hy Hm) as (Htemps & Hscores).
  assert (Himpact : Db.avg_impact_score (monthly_row data) <= 10).
  { unfold monthly_row. destruct (me_temp_values data); simpl;
      by apply mean_or_zero_le. }
  assert (Hdays : (0 <= Db.severe_event_days (monthly_row data))%Z).
  { unfold monthly_row. destruct (me_temp_values data); simpl; lia. }
  unfold monthly_row in *. destruct (me_temp_values data) as [| x xs] eqn:Hxs; simpl in *.
  - split_and!; try lra; try done; left; reflexivity.
  - assert (Havg : 10 <= Py.mean (x :: xs) <= 105).
    { split; [apply py_mean_ge | apply py_mean_le]; try done;
        eapply Forall_impl; try exact Htemps; simpl; intros; lra. }
    destruct (degree_day_ranges _ Havg) as ((Hh0 & Hh1) & (Hc0 & Hc1) & Hone).
    split; [lra |]. split; [lra |]. split; [destruct Hone; [left | right]; lra |].
    split; [by intros t [= <-] |]. split; [done | exact Himpact].
Qed.

(** The ranges of an event-statistics row written to a fresh store. *)
Lemma event_rows_in_range (chunks : list (list event))
    (state_filter : option (list string)) (max_chunks : option nat)
    (location_id event_type : string) (row : Db.event_cols) :
  Db.event_stats (preprocess_weather_data chunks state_filter max_chunks Db.empty)
    !! (location_id, event_type) = Some row →
  (1 <= Db.count row)%Z
  ∧ 1 <= Db.avg_severity row <= 4
  ∧ Db.energy_impact_score row <= 10.
Proof.
  unfold preprocess_weather_data; simpl. unfold save_event_statistics.
  intros Hrow. apply empty_table_rows_are_written in Hrow.
  apply event_rows_inv in Hrow as (types & data & Hloc & Ht & ->).
  destruct (read_chunks_events_ok _ _ _ _ _ _ _ Hloc Ht)
    as ((Hcount & Hlen & Hsev & Hscores) & Hpos).
  unfold event_row; simpl. split; [done |].
  assert (Hne : ee_severity_values data ≠ []).
  { intros Hnil. rewrite Hnil in Hcount. simpl in Hcount. lia. }
  split; [| by apply mean_or_zero_le].
  unfold mean_or_zero. destruct (ee_severity_values data) as [| s ss]; [done |].
  split; [apply py_mean_ge | apply py_mean_le]; try done;
    eapply Forall_impl; try exact Hsev; simpl; intros; lra.
Qed.

(** X11: on a fresh store, every row that a run writes is within its ranges.
    A daily row has 0 <= hdd <= 55 and 0 <= cdd <= 40 with one of the two
    zero, an average temperature within [10, 105] when there is one, a
    severe-event count that is not negative and an impact score of at most
    10.  A monthly row has the same with totals up to 55 * 30 and 40 * 30.
    An event-statistics row counts at least one event, has an average
    severity within [1, 4] and an energy impact score of at most 10. *)
Theorem rows_of_a_run (chunks : list (list event))
    (state_filter : option (list string)) (max_chunks : option nat) :
  let db := preprocess_weather_data chunks state_filter max_chunks Db.empty in
  (∀ d location_id row,
     Db.daily_weather db !! (d, location_id) = Some row →
     0 <= Db.heating_degree_days row <= 55
     ∧ 0 <= Db.cooling_degree_days row <= 40
     ∧ (Db.heating_degree_days row == 0 ∨ Db.cooling_degree_days row == 0)
     ∧ (∀ t, Db.avg_temp row = Some t → 10 <= t <= 105)
     ∧ (0 <= Db.severe_events row)%Z
     ∧ Db.impact_score row <= 10)
  ∧ (∀ year month location_id row,
       Db.monthly_stats db !! (year, month, location_id) = Some row →
       0 <= Db.total_heating_degree_days row <= 55 * 30
       ∧ 0 <= Db.total_cooling_degree_days row <= 40 * 30
       ∧ (Db.total_heating_degree_days row == 0
          ∨ Db.total_cooling_degree_days row == 0)
       ∧ (∀ t, Db.month_avg_temp row = Some t → 10 <= t <= 105)
       ∧ (0 <= Db.severe_event_days row)%Z
       ∧ Db.avg_impact_score row <= 10)
  ∧ (∀ location_id event_type row,
       Db.event_stats db !! (location_id, event_type) = Some row →
       (1 <= Db.count row)%Z
       ∧ 1 <= Db.avg_severity row <= 4
       ∧ Db.energy_impact_score row <= 10).
Proof.
  intros db. split_and!.
  - intros d location_id row. apply daily_rows_in_range.
  - intros year month location_id row. apply monthly_rows_in_range.
  - intros location_id event_type row. apply event_rows_in_range.
Qed.

Lemma rows_of_a_run_witness :
  ∃ daily monthly events,
    Db.daily_weather (preprocess_weather_data [[cold_event; cold_event]] None None Db.empty)
      !! ((2021, 1, 5)%Z, "90210_CA"%string) = Some daily
    ∧ Db.monthly_stats
        (preprocess_weather_data [[cold_event; cold_event]] None None Db.empty)
        !! (2021%Z, 1%Z, "90210_CA"%string) = Some monthly
    ∧ Db.event_stats (preprocess_weather_data [[cold_event; cold_event]] None None Db.empty)
        !! ("90210_CA"%string, "Cold"%string) = Some events
    ∧ Db.heating_degree_days daily == 55
    ∧ 0 <= Db.cooling_degree_days daily <= 40
    ∧ Db.total_heating_degree_days monthly == 55 * 30
    ∧ 0 <= Db.total_cooling_degree_days monthly <= 40 * 30
    ∧ Db.count events = 2%Z
    ∧ 1 <= Db.avg_severity events <= 4.
Proof.
  assert (Hrows : ∃ daily monthly events,
    Db.daily_weather (preprocess_weather_data [[cold_event; cold_event]] None None Db.empty)
      !! ((2021, 1, 5)%Z, "90210_CA"%string) = Some daily
    ∧ Db.monthly_stats
        (preprocess_weather_data [[cold_event; cold_event]] None None Db.empty)
        !! (2021%Z, 1%Z, "90210_CA"%string) = Some monthly
    ∧ Db.event_stats (preprocess_weather_data [[cold_event; cold_event]] None None Db.empty)
        !! ("90210_CA"%string, "Cold"%string) = Some events
    ∧ Db.heating_degree_days daily == 55
    ∧ Db.total_heating_degree_days monthly == 55 * 30
    ∧ Db.count events = 2%Z).
  { eexists _, _, _. split_and!; by vm_compute. }
  destruct Hrows as (daily & monthly & events & Hd & Hm & He & Hhdd & Htotal & Hcount).
  destruct (rows_of_a_run [[cold_event; cold_event]] None None)
    as (Hdaily & Hmonthly & Hevents).
  destruct (Hdaily _ _ _ Hd) as (_ & Hdc & _).
  destruct (Hmonthly _ _ _ _ Hm) as (_ & Hmc & _).
  destruct (Hevents _ _ _ He) as (_ & Hes & _).
  exists daily, monthly, events.
  split_and!; [exact Hd | exact Hm | exact He | exact Hhdd | apply Hdc | apply Hdc
              | exact Htotal | apply Hmc | apply Hmc | exact Hcount | apply Hes
              | apply Hes].
Defined.

(** ** The summary of a run *)

Lemma read_chunks_read state_filter max_chunks chunks st :
  read_chunks state_filter max_chunks chunks 0 st
  = process_chunk
      (apply_state_filter state_filter (concat (chunks_read max_chunks chunks))) st.
Proof.
  unfold chunks_read. destruct max_chunks as [[| n] |].
  - by rewrite read_chunks_limit_zero, read_chunks_no_limit.
  - rewrite read_chunks_limit by lia.
    replace (S n - 0)%nat with (S n) by lia. by rewrite read_chunks_no_limit.
  - by rewrite read_chunks_no_limit.
Qed.

(** The counters after a loop without a limit. *)
Lemma count_chunks_no_limit state_filter chunks c :
  count_chunks state_filter None chunks c
  = {| cnt_chunks_processed := cnt_chunks_processed c + length chunks;
       cnt_total_rows :=
         cnt_total_rows c
         + Z.of_nat (length (apply_state_filter state_filter (concat chunks)));
       cnt_total_events_processed :=
         cnt_total_events_processed c
         + Z.of_nat (length (apply_state_filter state_filter (concat chunks)));
       cnt_filtered_rows :=
         if filter_given state_filter
         then cnt_filtered_rows c
              + (Z.of_nat (length (concat chunks))
                 - Z.of_nat (length (apply_state_filter state_filter (concat chunks))))
         else cnt_filtered_rows c |}.
Proof.
  revert c. induction chunks as [| chunk rest IH]; intros c.
  - simpl. destruct c as [n r e f]; simpl.
    assert (Hnil : apply_state_filter state_filter [] = [])
      by (by destruct state_filter as [[| s ss] |]).
    rewrite Hnil. simpl.
    destruct (filter_given state_filter); f_equal; lia.
  - simpl. rewrite IH. cbn [cnt_chunks_processed cnt_total_rows
      cnt_total_events_processed cnt_filtered_rows].
    rewrite apply_state_filter_app, !length_app.
    destruct (filter_given state_filter); f_equal; lia.
Qed.

Lemma count_chunks_limit_zero state_filter chunks c :
  count_chunks state_filter (Some 0%nat) chunks c
  = count_chunks state_filter None chunks c.
Proof.
  revert c. induction chunks as [| chunk rest IH]; intros c; simpl; [done | apply IH].
Qed.

Lemma count_chunks_limit state_filter (limit : nat) chunks c :
  (cnt_chunks_processed c < limit)%nat →
  count_chunks state_filter (Some limit) chunks c
  = count_chunks state_filter None (take (limit - cnt_chunks_processed c) chunks) c.
Proof.
  revert c. induction chunks as [| chunk rest IH]; intros c Hc.
  - by rewrite take_nil.
  - destruct limit as [| limit]; [lia |].
    replace (S limit - cnt_chunks_processed c)%nat
      with (S (limit - cnt_chunks_processed c)) by lia.
    cbn [take count_chunks reached_max_chunks].
    destruct (S limit <=? S (cnt_chunks_processed c))%nat eqn:Hreached.
    + apply Nat.leb_le in Hreached.
      replace (limit - cnt_chunks_processed c)%nat with 0%nat by lia.
      by rewrite take_0.
    + apply Nat.leb_gt in Hreached.
      rewrite IH by (simpl; lia). simpl. done.
Qed.

Lemma count_chunks_read state_filter max_chunks chunks c :
  cnt_chunks_processed c = 0%nat →
  count_chunks state_filter max_chunks chunks c
  = count_chunks state_filter None (chunks_read max_chunks chunks) c.
Proof.
  intros Hc. unfold chunks_read. destruct max_chunks as [[| n] |].
  - apply count_chunks_limit_zero.
  - rewrite count_chunks_limit by lia. rewrite Hc.
    by replace (S n - 0)%nat with (S n) by lia.
  - done.
Qed.

(** Rows with distinct keys, written to an empty table, are all there. *)
Lemma size_insert_in_batches_empty `{Countable K} {V} (rows : list (K * V)) :
  NoDup rows.*1 → size (Db.insert_in_batches (∅ : gmap K V) rows) = length rows.
Proof.
  intros Hnd. rewrite insert_in_batches_union, (right_id_L ∅ (∪)).
  rewrite map_size_list_to_map; [by rewrite length_reverse |].
  by rewrite fmap_reverse, reverse_Permutation.
Qed.

Lemma location_rows_length (ld : gmap string location_entry) :
  length (location_data_to_insert ld) = size ld.
Proof.
  unfold location_data_to_insert. rewrite <- length_map_to_list.
  induction (map_to_list ld) as [| [loc data] l IH]; [done |].
  rewrite bind_cons, length_app, IH. done.
Qed.

Lemma count_daily_records_fold (l : list (gmap date daily_entry)) (a : Z) :
  foldl (λ acc days, acc + Z.of_nat (size days))%Z a l
  = (a + foldl (λ acc days, acc + Z.of_nat (size days)) 0 l)%Z.
Proof.
  revert a. induction l as [| days l IH]; intros a; simpl; [lia |].
  rewrite IH, (IH (0 + _)%Z). lia.
Qed.

Lemma daily_rows_length (dw : gmap string (gmap date daily_entry)) :
  Z.of_nat (length (daily_data_to_insert dw)) = count_daily_records dw.
Proof.
  unfold daily_data_to_insert, count_daily_records.
  induction (map_to_list dw) as [| [loc dates] l IH]; [done |].
  rewrite bind_cons, length_app, Nat2Z.inj_add, IH. simpl.
  rewrite (count_daily_records_fold _ (0 + _)%Z).
  assert (Hdates : length ('(date, data) ← map_to_list dates;
                           [((date, loc), daily_row data)]) = size dates).
  { rewrite <- length_map_to_list.
    induction (map_to_list dates) as [| [d data] ds IHd]; [done |].
    rewrite bind_cons, length_app, IHd. done. }
  rewrite Hdates, Z.add_0_l. reflexivity.
Qed.

(** X12: the counters of the summary agree with the input and with the
    store.  Over the chunks that were read (all, or the first max_chunks),
    chunks_processed is their number, total_rows is the number of rows
    that pass the state filter, total_events_processed is the same number
    (rows that are dropped later as incomplete are counted too), and
    total_rows + filtered_rows is the number of rows read.  After a run on
    a fresh store, locations_processed and daily_records_created are the
    sizes of the locations and daily_weather tables, and no location has
    counted more events than total_events_processed. *)
Theorem summary_counts (chunks : list (list event))
    (state_filter : option (list string)) (max_chunks : option nat) :
  let s := preprocessing_summary chunks state_filter max_chunks in
  let read := concat (chunks_read max_chunks chunks) in
  let db := preprocess_weather_data chunks state_filter max_chunks Db.empty in
  chunks_processed s = Z.of_nat (length (chunks_read max_chunks chunks))
  ∧ total_rows s = Z.of_nat (length (apply_state_filter state_filter read))
  ∧ total_events_processed s = total_rows s
  ∧ (total_rows s + filtered_rows s)%Z = Z.of_nat (length read)
  ∧ locations_processed s = Z.of_nat (size (Db.locations db))
  ∧ daily_records_created s = Z.of_nat (size (Db.daily_weather db))
  ∧ ∀ location_id row,
      Db.locations db !! location_id = Some row →
      Db.event_frequency row * 7 <= inject_Z (total_events_processed s).
Proof.
  intros s read db. unfold s, preprocessing_summary.
  cbn [chunks_processed total_rows total_events_processed filtered_rows
       locations_processed daily_records_created].
  rewrite count_chunks_read by done. rewrite count_chunks_no_limit.
  cbn [cnt_chunks_processed cnt_total_rows cnt_total_events_processed
       cnt_filtered_rows].
  fold read.
  assert (Hfilter : filter_given state_filter = false →
                    apply_state_filter state_filter read = read).
  { by destruct state_filter as [[| st sts] |]. }
  split_and!.
  - lia.
  - lia.
  - done.
  - destruct (filter_given state_filter); [lia |]. rewrite Hfilter by done. lia.
  - unfold db, preprocess_weather_data; simpl. unfold save_location_data.
    rewrite size_insert_in_batches_empty by apply location_rows_NoDup.
    by rewrite location_rows_length.
  - unfold db, preprocess_weather_data; simpl. unfold save_daily_weather_data.
    rewrite size_insert_in_batches_empty by apply daily_rows_NoDup.
    by rewrite daily_rows_length.
  - intros location_id row Hrow.
    unfold db, preprocess_weather_data in Hrow; simpl in Hrow.
    unfold save_location_data in Hrow.
    apply empty_table_rows_are_written in Hrow.
    apply location_rows_elem in Hrow as (e & He & ->).
    rewrite read_chunks_read in He. fold read in He.
    pose proof (process_chunk_count (apply_state_filter state_filter read)
                  no_aggregates location_id) as Hcount.
    unfold event_count in Hcount. rewrite He in Hcount. simpl in Hcount.
    rewrite lookup_empty in Hcount. simpl in Hcount.
    unfold location_row; simpl.
    assert (Hle : (le_event_count e
                   <= Z.of_nat (length (apply_state_filter state_filter read)))%Z).
    { rewrite Hcount. unfold events_of_location.
      pose proof (List.filter_length_le
                    (λ ev, bool_decide (event_location_id ev = Some location_id))
                    (apply_state_filter state_filter read)). lia. }
    rewrite Zle_Qle in Hle. rewrite Z.add_0_l.
    set (n := inject_Z (le_event_count e)) in *.
    set (t := inject_Z (Z.of_nat _)) in *. clearbody n t.
    assert (Heq : n / 7 * 7 == n) by (field; lra). rewrite Heq. exact Hle.
Qed.

(** ** generate_degree_day_data *)

Lemma mean_of_inferred (ts : list Q) :
  ts ≠ [] → Forall (λ t, 10 <= t <= 105) ts → 10 <= Py.mean ts <= 105.
Proof.
  intros Hne Hts. split.
  - apply py_mean_ge; [done |]. eapply Forall_impl; [exact Hts |]. by intros t [? ?].
  - apply py_mean_le; [done |]. eapply Forall_impl; [exact Hts |]. by intros t [? ?].
Qed.

Lemma samples_ok_insert_nil (hi : Q) (m : Z) (samples : gmap Z (list Q)) :
  samples_ok hi samples → samples_ok hi (<[m := []]> samples).
Proof.
  intros Hok m' l. destruct (decide (m = m')) as [<- | Hne].
  - rewrite lookup_insert_eq. by intros [= <-].
  - rewrite lookup_insert_ne by done. apply Hok.
Qed.

Lemma samples_ok_alter (hi v : Q) (m : Z) (samples : gmap Z (list Q)) :
  0 < v <= hi → samples_ok hi samples →
  samples_ok hi (alter (λ l, l ++ [v]) m samples).
Proof.
  intros Hv Hok m' l. destruct (decide (m = m')) as [<- | Hne].
  - rewrite lookup_alter_eq. destruct (samples !! m) as [l0 |] eqn:Hl0; [| done].
    intros [= <-]. apply Forall_app. split; [by eapply Hok | by apply Forall_singleton].
  - rewrite lookup_alter_ne by done. apply Hok.
Qed.

(** One month of one location: the month is created on both sides, and
    the new sample is within bounds. *)
Lemma add_month_ok (month : Z) (data : monthly_entry) (hm cm : gmap Z (list Q)) :
  Forall (λ t, 10 <= t <= 105) (me_temp_values data) →
  dom hm = dom cm → samples_ok 1650 hm → samples_ok 1200 cm →
  dom (add_month month data (hm, cm)).1 = {[month]} ∪ dom hm
  ∧ dom (add_month month data (hm, cm)).2 = {[month]} ∪ dom hm
  ∧ samples_ok 1650 (add_month month data (hm, cm)).1
  ∧ samples_ok 1200 (add_month month data (hm, cm)).2.
Proof.
  intros Htemps Hdom Hh Hc. unfold add_month.
  assert (Hcreated :
    ∃ hm1 cm1,
      match hm !! month with
      | None => (<[month := []]> hm, <[month := []]> cm)
      | Some _ => (hm, cm)
      end = (hm1, cm1)
      ∧ dom hm1 = {[month]} ∪ dom hm ∧ dom cm1 = {[month]} ∪ dom hm
      ∧ samples_ok 1650 hm1 ∧ samples_ok 1200 cm1).
  { destruct (hm !! month) as [l |] eqn:Hm.
    - assert (Hin : {[month]} ∪ dom hm = dom hm).
      { apply subseteq_union_1_L, singleton_subseteq_l, elem_of_dom. by eexists. }
      exists hm, cm. rewrite Hin. by split_and!.
    - exists (<[month := []]> hm), (<[month := []]> cm).
      rewrite !dom_insert_L, Hdom.
      split_and!; [done | done | done | by apply samples_ok_insert_nil
                  | by apply samples_ok_insert_nil]. }
  destruct Hcreated as (hm1 & cm1 & -> & Hd1 & Hd2 & Hh1 & Hc1).
  destruct (me_temp_values data) as [| t ts] eqn:Hts; [done |].
  rewrite <- Hts in *.
  assert (Hmean : 10 <= Py.mean (me_temp_values data) <= 105)
    by (apply mean_of_inferred; [by rewrite Hts | done]).
  unfold BASE_TEMP_HEATING, BASE_TEMP_COOLING.
  set (avg := Py.mean (me_temp_values data)) in *. clearbody avg.
  destruct (Qlt_le_dec avg 65), (Qlt_le_dec 65 avg); simpl;
    rewrite ?dom_alter_L; split_and!; try done;
    apply samples_ok_alter; try done; lra.
Qed.

(** The months of one year of one location. *)
Lemma add_months_ok (rows : list (Z * monthly_entry)) (hm cm : gmap Z (list Q)) :
  (∀ r, r ∈ rows → Forall (λ t, 10 <= t <= 105) (me_temp_values r.2)) →
  dom hm = dom cm → samples_ok 1650 hm → samples_ok 1200 cm →
  let result := foldl (λ a (r : Z * monthly_entry), add_month r.1 r.2 a) (hm, cm) rows in
  dom result.1 = list_to_set rows.*1 ∪ dom hm
  ∧ dom result.2 = list_to_set rows.*1 ∪ dom hm
  ∧ samples_ok 1650 result.1
  ∧ samples_ok 1200 result.2.
Proof.
  revert hm cm. induction rows as [| [m data] rows IH]; intros hm cm Htemps Hdom Hh Hc.
  - simpl. rewrite (left_id_L ∅ (∪)). by split_and!.
  - cbv zeta. cbn [foldl fst snd]. rewrite fmap_cons, list_to_set_cons. cbn [fst].
    destruct (add_month_ok m data hm cm) as (Hd1 & Hd2 & Hh1 & Hc1);
      [apply (Htemps (m, data)); by left | done | done | done |].
    destruct (add_month m data (hm, cm)) as [hm1 cm1]. cbn [fst snd] in *.
    destruct (IH hm1 cm1) as (Hr1 & Hr2 & Hrh & Hrc);
      [intros r Hr; apply Htemps; by right | by rewrite Hd1, Hd2 | done | done |].
    assert (Hunion : list_to_set rows.*1 ∪ ({[m]} ∪ dom hm)
                     = {[m]} ∪ list_to_set rows.*1 ∪ dom hm :> gset Z).
    { rewrite (assoc_L (∪)). f_equal. apply (comm_L (∪)). }
    cbv zeta. rewrite Hr1, Hr2, Hd1, Hunion. by split_and!.
Qed.

Lemma elem_of_map_keys {A} (months : gmap Z A) (m : Z) :
  m ∈ (list_to_set (map_to_list months).*1 : gset Z) ↔ is_Some (months !! m).
Proof.
  rewrite elem_of_list_to_set, list_elem_of_fmap. split.
  - intros ([m' data] & -> & Hin). apply elem_of_map_to_list in Hin. by eexists.
  - intros [data Hdata]. exists (m, data). split; [done |].
    by apply elem_of_map_to_list.
Qed.

(** The loop over a year writes the two dicts of that year back. *)
Lemma add_year_unfold (year : Z) (months : gmap Z monthly_entry)
    (hdd cdd : gmap Z (gmap Z (list Q))) :
  dom hdd = dom cdd →
  add_year year months (hdd, cdd)
  = (<[year :=
        (foldl (λ a (r : Z * monthly_entry), add_month r.1 r.2 a)
               (default ∅ (hdd !! year), default ∅ (cdd !! year))
               (map_to_list months)).1]> hdd,
     <[year :=
        (foldl (λ a (r : Z * monthly_entry), add_month r.1 r.2 a)
               (default ∅ (hdd !! year), default ∅ (cdd !! year))
               (map_to_list months)).2]> cdd).
Proof.
  intros Hdom. unfold add_year.
  destruct (hdd !! year) as [hm |] eqn:Hyear.
  - rewrite Hyear. by destruct (foldl _ _ _).
  - assert (Hcdd : cdd !! year = None).
    { apply not_elem_of_dom. rewrite <- Hdom. by apply not_elem_of_dom. }
    rewrite !lookup_insert_eq, Hcdd. simpl.
    destruct (foldl _ _ _). by rewrite !insert_insert_eq.
Qed.

(** One year of one location. *)
Lemma add_year_ok (year : Z) (months : gmap Z monthly_entry)
    (hdd cdd : gmap Z (gmap Z (list Q))) :
  (∀ m data, months !! m = Some data →
             Forall (λ t, 10 <= t <= 105) (me_temp_values data)) →
  years_ok hdd cdd →
  years_ok (add_year year months (hdd, cdd)).1 (add_year year months (hdd, cdd)).2
  ∧ ∀ y m, has_month (add_year year months (hdd, cdd)).1 y m
           ↔ has_month hdd y m ∨ (y = year ∧ is_Some (months !! m)).
Proof.
  intros Htemps (Hdom & Hmonths & Hh & Hc).
  rewrite add_year_unfold by done. cbn [fst snd].
  set (hm0 := default ∅ (hdd !! year)). set (cm0 := default ∅ (cdd !! year)).
  assert (Hdom0 : dom hm0 = dom cm0).
  { unfold hm0, cm0. destruct (hdd !! year) as [hm |] eqn:Hy.
    - assert (is_Some (cdd !! year)) as [cm Hcm].
      { apply elem_of_dom. rewrite <- Hdom. apply elem_of_dom. by eexists. }
      rewrite Hcm. simpl. by eapply Hmonths.
    - assert (Hcdd : cdd !! year = None).
      { apply not_elem_of_dom. rewrite <- Hdom. by apply not_elem_of_dom. }
      by rewrite Hcdd. }
  assert (Hh0 : samples_ok 1650 hm0).
  { unfold hm0. destruct (hdd !! year) as [hm |] eqn:Hy; simpl; [by eapply Hh |].
    intros m l. by rewrite lookup_empty. }
  assert (Hc0 : samples_ok 1200 cm0).
  { unfold cm0. destruct (cdd !! year) as [cm |] eqn:Hy; simpl; [by eapply Hc |].
    intros m l. by rewrite lookup_empty. }
  destruct (add_months_ok (map_to_list months) hm0 cm0)
    as (Hd1 & Hd2 & Hh1 & Hc1); [| done | done | done |].
  { intros [m data] Hin%elem_of_map_to_list. by eapply Htemps. }
  cbv zeta in Hd1, Hd2, Hh1, Hc1.
  set (result := foldl _ _ _) in *. clearbody result.
  destruct result as [hm1 cm1]. cbn [fst snd] in *.
  split.
  - split_and!.
    + by rewrite !dom_insert_L, Hdom.
    + intros y hm cm. destruct (decide (year = y)) as [<- | Hne].
      * rewrite !lookup_insert_eq. intros [= <-] [= <-]. by rewrite Hd1, Hd2.
      * rewrite !lookup_insert_ne by done. apply Hmonths.
    + intros y hm. destruct (decide (year = y)) as [<- | Hne].
      * rewrite lookup_insert_eq. by intros [= <-].
      * rewrite lookup_insert_ne by done. apply Hh.
    + intros y cm. destruct (decide (year = y)) as [<- | Hne].
      * rewrite lookup_insert_eq. by intros [= <-].
      * rewrite lookup_insert_ne by done. apply Hc.
  - intros y m. unfold has_month. destruct (decide (year = y)) as [<- | Hne].
    + rewrite lookup_insert_eq. split.
      * intros (hm & [= <-] & Hm). apply elem_of_dom in Hm.
        rewrite Hd1 in Hm. apply elem_of_union in Hm as [Hm | Hm].
        -- right. split; [done |]. by apply elem_of_map_keys.
        -- left. unfold hm0 in Hm. destruct (hdd !! year) as [hm |] eqn:Hy.
           ++ exists hm. split; [done |]. by apply elem_of_dom.
           ++ simpl in Hm. by rewrite dom_empty_L in Hm.
      * intros Hcases. exists hm1. split; [done |]. apply elem_of_dom.
        rewrite Hd1. apply elem_of_union.
        destruct Hcases as [(hm & Hy & Hm) | [_ Hm]].
        -- right. unfold hm0. rewrite Hy. simpl. by apply elem_of_dom.
        -- left. by apply elem_of_map_keys.
    + rewrite lookup_insert_ne by done. split.
      * intros Hm. by left.
      * intros [Hm | [-> _]]; done.
Qed.

(** All years of one location. *)
Lemma add_location_ok (monthly_stats : gmap string (gmap Z (gmap Z monthly_entry)))
    (location_id : string) (hdd cdd : gmap Z (gmap Z (list Q))) :
  inferred_temperatures monthly_stats →
  years_ok hdd cdd →
  years_ok (add_location monthly_stats location_id (hdd, cdd)).1
           (add_location monthly_stats location_id (hdd, cdd)).2
  ∧ ∀ y m, has_month (add_location monthly_stats location_id (hdd, cdd)).1 y m
           ↔ has_month hdd y m
             ∨ ∃ years, monthly_stats !! location_id = Some years ∧ has_month years y m.
Proof.
  intros Htemps Hok. unfold add_location.
  destruct (monthly_stats !! location_id) as [years |] eqn:Hyears.
  - assert (Hrows : ∀ r, r ∈ map_to_list years → years !! r.1 = Some r.2).
    { intros [y months]. apply elem_of_map_to_list. }
    assert (Hall : ∀ y months, years !! y = Some months → (y, months) ∈ map_to_list years).
    { intros y months. apply elem_of_map_to_list. }
    revert Hrows Hall. generalize (map_to_list years). intros rows Hrows Hall.
    assert (Hgen : ∀ hdd cdd, years_ok hdd cdd →
      let result := foldl (λ a (r : Z * gmap Z monthly_entry), add_year r.1 r.2 a)
                          (hdd, cdd) rows in
      years_ok result.1 result.2
      ∧ ∀ y m, has_month result.1 y m
               ↔ has_month hdd y m
                 ∨ ∃ months, (y, months) ∈ rows ∧ is_Some (months !! m)).
    { clear Hall hdd cdd Hok.
      induction rows as [| [y0 months0] rows IH]; intros hdd cdd Hok; cbv zeta.
      - simpl. split; [done |]. intros y m. split; [by left |].
        intros [Hm | (months & Hin & _)]; [done | by apply elem_of_nil in Hin].
      - cbn [foldl fst snd].
        destruct (add_year_ok y0 months0 hdd cdd) as [Hok1 Hkeys1]; [| done |].
        { intros m data Hdata.
          eapply (Htemps location_id years y0 months0 m data); [done | | done].
          apply (Hrows (y0, months0)). by left. }
        destruct (add_year y0 months0 (hdd, cdd)) as [hdd1 cdd1]. cbn [fst snd] in *.
        assert (Hrows' : ∀ r, r ∈ rows → years !! r.1 = Some r.2)
          by (intros r Hr; apply Hrows; by right).
        destruct (IH Hrows' hdd1 cdd1 Hok1) as [Hok2 Hkeys2].
        split; [exact Hok2 |]. intros y m. rewrite Hkeys2, Hkeys1. split.
        + intros [[Hm | [-> Hm]] | (months & Hin & Hm)].
          * by left.
          * right. exists months0. split; [by left | done].
          * right. exists months. split; [by right | done].
        + intros [Hm | (months & Hin & Hm)]; [by left; left |].
          apply elem_of_cons in Hin as [[= -> ->] | Hin].
          * left. by right.
          * right. by exists months. }
    destruct (Hgen hdd cdd Hok) as [Hok' Hkeys]. split; [exact Hok' |].
    intros y m. rewrite Hkeys. split.
    + intros [Hm | (months & Hin & Hm)]; [by left |].
      right. exists years. split; [done |]. exists months. split; [| done].
      by apply (Hrows (y, months)).
    + intros [Hm | (years' & [= <-] & months & Hy & Hm)]; [by left |].
      right. exists months. split; [by apply Hall | done].
  - split; [done |]. intros y m. split; [by left |].
    intros [Hm | (years & Hy & _)]; done.
Qed.

(** All locations of one state. *)
Lemma add_locations_ok (monthly_stats : gmap string (gmap Z (gmap Z monthly_entry)))
    (location_ids : list string) (hdd cdd : gmap Z (gmap Z (list Q))) :
  inferred_temperatures monthly_stats →
  years_ok hdd cdd →
  let result :=
    foldl (λ a location_id, add_location monthly_stats location_id a)
          (hdd, cdd) location_ids in
  years_ok result.1 result.2
  ∧ ∀ y m, has_month result.1 y m
           ↔ has_month hdd y m
             ∨ ∃ location_id years,
                 location_id ∈ location_ids
                 ∧ monthly_stats !! location_id = Some years ∧ has_month years y m.
Proof.
  intros Htemps. revert hdd cdd.
  induction location_ids as [| id ids IH]; intros hdd cdd Hok; cbv zeta.
  - simpl. split; [done |]. intros y m. split; [by left |].
    intros [Hm | (id & years & Hin & _)]; [done | by apply elem_of_nil in Hin].
  - cbn [foldl].
    destruct (add_location_ok monthly_stats id hdd cdd Htemps Hok) as [Hok1 Hkeys1].
    destruct (add_location monthly_stats id (hdd, cdd)) as [hdd1 cdd1].
    cbn [fst snd] in *.
    destruct (IH hdd1 cdd1 Hok1) as [Hok2 Hkeys2].
    split; [exact Hok2 |]. intros y m. rewrite Hkeys2, Hkeys1. split.
    + intros [[Hm | (years & Hy & Hm)] | (id' & years & Hin & Hy & Hm)].
      * by left.
      * right. exists id, years. split_and!; [by left | done | done].
      * right. exists id', years. split_and!; [by right | done | done].
    + intros [Hm | (id' & years & Hin & Hy & Hm)]; [by left; left |].
      apply elem_of_cons in Hin as [-> | Hin].
      * left. right. by exists years.
      * right. by exists id', years.
Qed.

(** The location ids listed under a state are the stored locations of that
    state, and a state is listed when it has one. *)
Lemma location_states_fold (rows : list (string * Db.location_cols))
    (ls0 : gmap string (list string)) (state : string) :
  let ls :=
    foldl (λ ls (r : string * Db.location_cols),
             <[Db.state r.2 := default [] (ls !! Db.state r.2) ++ [r.1]]> ls)
          ls0 rows in
  (is_Some (ls !! state)
   ↔ is_Some (ls0 !! state) ∨ ∃ id row, (id, row) ∈ rows ∧ Db.state row = state)
  ∧ ∀ id, id ∈ default [] (ls !! state)
          ↔ id ∈ default [] (ls0 !! state)
            ∨ ∃ row, (id, row) ∈ rows ∧ Db.state row = state.
Proof.
  revert ls0. induction rows as [| [id0 row0] rows IH]; intros ls0; cbv zeta.
  - simpl. split.
    + split; [by left |]. intros [H | (id & row & Hin & _)]; [done |].
      by apply elem_of_nil in Hin.
    + intros id. split; [by left |]. intros [H | (row & Hin & _)]; [done |].
      by apply elem_of_nil in Hin.
  - cbn [foldl fst snd].
    destruct (IH (<[Db.state row0 := default [] (ls0 !! Db.state row0) ++ [id0]]> ls0))
      as [Hsome Hids].
    split.
    + rewrite Hsome. destruct (decide (Db.state row0 = state)) as [Hst | Hst].
      * rewrite Hst, lookup_insert_eq. split.
        -- intros _. right. exists id0, row0. split; [by left | done].
        -- intros _. left. by eexists.
      * rewrite lookup_insert_ne by done. split.
        -- intros [H | (id & row & Hin & Hrow)]; [by left |].
           right. exists id, row. split; [by right | done].
        -- intros [H | (id & row & Hin & Hrow)]; [by left |].
           apply elem_of_cons in Hin as [[= -> ->] | Hin]; [done |].
           right. by exists id, row.
    + intros id. rewrite Hids. destruct (decide (Db.state row0 = state)) as [Hst | Hst].
      * rewrite Hst, lookup_insert_eq. simpl. rewrite elem_of_app, list_elem_of_singleton.
        split.
        -- intros [[H | ->] | (row & Hin & Hrow)].
           ++ by left.
           ++ right. exists row0. split; [by left | done].
           ++ right. exists row. split; [by right | done].
        -- intros [H | (row & Hin & Hrow)]; [by left; left |].
           apply elem_of_cons in Hin as [[= -> ->] | Hin]; [left; by right |].
           right. by exists row.
      * rewrite lookup_insert_ne by done. split.
        -- intros [H | (row & Hin & Hrow)]; [by left |].
           right. exists row. split; [by right | done].
        -- intros [H | (row & Hin & Hrow)]; [by left |].
           apply elem_of_cons in Hin as [[= -> ->] | Hin]; [done |].
           right. by exists row.
Qed.

Lemma location_states_spec (locations : gmap string Db.location_cols)
    (state : string) :
  (is_Some (location_states locations !! state)
   ↔ ∃ id row, locations !! id = Some row ∧ Db.state row = state)
  ∧ ∀ ids, location_states locations !! state = Some ids →
      ∀ id, id ∈ ids ↔ ∃ row, locations !! id = Some row ∧ Db.state row = state.
Proof.
  destruct (location_states_fold (map_to_list locations) ∅ state) as [Hsome Hids].
  cbv zeta in Hsome, Hids. fold (location_states locations) in Hsome, Hids.
  split.
  - rewrite Hsome, lookup_empty. split.
    + intros [[? [=]] | (id & row & Hin%elem_of_map_to_list & Hst)]. by exists id, row.
    + intros (id & row & Hrow & Hst). right. exists id, row.
      split; [by apply elem_of_map_to_list | done].
  - intros ids Hstate id. specialize (Hids id).
    rewrite Hstate, lookup_empty in Hids. simpl in Hids. rewrite Hids. split.
    + intros [Hnil | (row & Hin%elem_of_map_to_list & Hst)];
        [by apply elem_of_nil in Hnil | by exists row].
    + intros (row & Hrow & Hst). right. exists row.
      split; [by apply elem_of_map_to_list | done].
Qed.

(** The mean of samples within (0, hi] is within [0, hi], and so is the 0
    written for a month without samples. *)
Lemma mean_or_zero_bounds (hi : Q) (l : list Q) :
  0 <= hi → Forall (λ v, 0 < v <= hi) l → 0 <= mean_or_zero l <= hi.
Proof.
  intros Hhi Hl. destruct l as [| v l]; [simpl; lra |].
  change (mean_or_zero (v :: l)) with (Py.mean (v :: l)). split.
  - apply py_mean_ge; [done |]. eapply Forall_impl; [exact Hl |].
    intros x [? ?]. simpl. lra.
  - apply py_mean_le; [done |]. eapply Forall_impl; [exact Hl |].
    by intros x [? ?].
Qed.

Lemma file_value_means (d : gmap Z (gmap Z (list Q))) (year month : Z) :
  file_value ((λ months : gmap Z (list Q), mean_or_zero <$> months) <$> d) year month
  = mean_or_zero <$> (d !! year ≫= (.!! month)).
Proof.
  unfold file_value. rewrite lookup_fmap.
  destruct (d !! year) as [months |]; simpl; [| done]. by rewrite lookup_fmap.
Qed.

Lemma has_month_lookup {A} (d : gmap Z (gmap Z A)) (year month : Z) :
  has_month d year month ↔ is_Some (d !! year ≫= (.!! month)).
Proof.
  unfold has_month. split.
  - intros (months & -> & Hm). done.
  - destruct (d !! year) as [months |]; simpl; [| by intros [? [=]]].
    intros Hm. by exists months.
Qed.

(** The content of the file of one state. *)
Lemma state_degree_days_ok
    (monthly_stats : gmap string (gmap Z (gmap Z monthly_entry)))
    (location_ids : list string) :
  inferred_temperatures monthly_stats →
  let file := state_degree_days monthly_stats location_ids in
  (∀ y m, is_Some (file_value file.1 y m) ↔ is_Some (file_value file.2 y m))
  ∧ (∀ y m, is_Some (file_value file.1 y m)
            ↔ ∃ location_id years,
                location_id ∈ location_ids
                ∧ monthly_stats !! location_id = Some years ∧ has_month years y m)
  ∧ (∀ y m v, file_value file.1 y m = Some v → 0 <= v <= 1650)
  ∧ (∀ y m v, file_value file.2 y m = Some v → 0 <= v <= 1200).
Proof.
  intros Htemps file. unfold file, state_degree_days.
  assert (Hempty : years_ok ∅ ∅).
  { split_and!; [done | | |]; intros y months; by rewrite lookup_empty. }
  destruct (add_locations_ok monthly_stats location_ids ∅ ∅ Htemps Hempty)
    as [(Hdom & Hmonths & Hh & Hc) Hkeys].
  cbv zeta in Hdom, Hmonths, Hh, Hc, Hkeys.
  destruct (foldl _ _ _) as [hdd cdd]. cbn [fst snd] in *.
  assert (Hsame : ∀ y m, has_month hdd y m ↔ has_month cdd y m).
  { intros y m. unfold has_month. split.
    - intros (hm & Hy & Hm).
      assert (is_Some (cdd !! y)) as [cm Hcm].
      { apply elem_of_dom. rewrite <- Hdom. apply elem_of_dom. by eexists. }
      exists cm. split; [done |]. apply elem_of_dom.
      rewrite <- (Hmonths y hm cm Hy Hcm). by apply elem_of_dom.
    - intros (cm & Hy & Hm).
      assert (is_Some (hdd !! y)) as [hm Hhm].
      { apply elem_of_dom. rewrite Hdom. apply elem_of_dom. by eexists. }
      exists hm. split; [done |]. apply elem_of_dom.
      rewrite (Hmonths y hm cm Hhm Hy). by apply elem_of_dom. }
  split_and!.
  - intros y m. rewrite !file_value_means, !fmap_is_Some, <- !has_month_lookup.
    apply Hsame.
  - intros y m. rewrite file_value_means, fmap_is_Some, <- has_month_lookup, Hkeys.
    split.
    + intros [(months & Hy & _) | Hloc]; [by rewrite lookup_empty in Hy | done].
    + intros Hloc. by right.
  - intros y m v. rewrite file_value_means.
    destruct (hdd !! y) as [hm |] eqn:Hy; simpl; [| done].
    destruct (hm !! m) as [l |] eqn:Hm; simpl; [| done].
    intros [= <-]. apply mean_or_zero_bounds; [lra |]. by eapply Hh.
  - intros y m v. rewrite file_value_means.
    destruct (cdd !! y) as [cm |] eqn:Hy; simpl; [| done].
    destruct (cm !! m) as [l |] eqn:Hm; simpl; [| done].
    intros [= <-]. apply mean_or_zero_bounds; [lra |]. by eapply Hc.
Qed.

Lemma read_chunks_inferred_temperatures state_filter max_chunks chunks :
  inferred_temperatures
    (monthly_stats (read_chunks state_filter max_chunks chunks 0 no_aggregates)).
Proof.
  intros location_id years y months m data Hloc Hy Hm.
  by destruct (read_chunks_monthly_ok _ _ _ _ _ _ _ _ _ Hloc Hy Hm) as [Htemps _].
Qed.

(** X13: the degree-day file of a state.  A run writes a file for exactly
    the states of the locations table as it is after the run.  In a file,
    the hdd and cdd dicts have the same years and months: those for which
    some stored location of the state has aggregated a month in this run
    (locations that were only in the store before contribute nothing).
    Every hdd value lies in [0, 1650] and every cdd value in [0, 1200]. *)
Theorem degree_day_files_content (chunks : list (list event))
    (state_filter : option (list string)) (max_chunks : option nat) (db : Db.t)
    (state : string) :
  let st := read_chunks state_filter max_chunks chunks 0 no_aggregates in
  let db' := preprocess_weather_data chunks state_filter max_chunks db in
  let files := degree_day_files chunks state_filter max_chunks db in
  (is_Some (files !! state)
   ↔ ∃ id row, Db.locations db' !! id = Some row ∧ Db.state row = state)
  ∧ ∀ hdd cdd, files !! state = Some (hdd, cdd) →
      (∀ y m, is_Some (file_value hdd y m) ↔ is_Some (file_value cdd y m))
      ∧ (∀ y m, is_Some (file_value hdd y m)
                ↔ ∃ id row years,
                    Db.locations db' !! id = Some row ∧ Db.state row = state
                    ∧ monthly_stats st !! id = Some years ∧ has_month years y m)
      ∧ (∀ y m v, file_value hdd y m = Some v → 0 <= v <= 1650)
      ∧ (∀ y m v, file_value cdd y m = Some v → 0 <= v <= 1200).
Proof.
  intros st db' files. unfold files, degree_day_files, generate_degree_day_data.
  fold st db'.
  destruct (location_states_spec (Db.locations db') state) as [Hsome Hids].
  split.
  - by rewrite lookup_fmap, fmap_is_Some.
  - intros hdd cdd. rewrite lookup_fmap.
    destruct (location_states (Db.locations db') !! state) as [ids |] eqn:Hstate;
      simpl; [| done].
    intros Hfile.
    destruct (state_degree_days_ok (monthly_stats st) ids
                (read_chunks_inferred_temperatures _ _ _))
      as (Hsame & Hkeys & Hh & Hc).
    cbv zeta in Hsame, Hkeys, Hh, Hc. injection Hfile as Hfile.
    rewrite Hfile in Hsame, Hkeys, Hh, Hc. cbn [fst snd] in *.
    split_and!; [exact Hsame | | exact Hh | exact Hc].
    intros y m. rewrite Hkeys. split.
    + intros (id & years & Hin & Hy & Hm).
      apply (Hids ids eq_refl) in Hin as (row & Hrow & Hst).
      by exists id, row, years.
    + intros (id & row & years & Hrow & Hst & Hy & Hm).
      exists id, years. split_and!; [| done | done].
      apply (Hids ids eq_refl). by exists row.
Qed.

Lemma degree_day_files_content_witness :
  ∃ hdd cdd v,
    degree_day_files [[cold_event; cold_event]] None None Db.empty !! "CA"%string
      = Some (hdd, cdd)
    ∧ file_value hdd 2021 1 = Some v ∧ v == 1650
    ∧ is_Some (file_value cdd 2021 1)
    ∧ (∀ c, file_value cdd 2021 1 = Some c → 0 <= c <= 1200).
Proof.
  assert (Hfile : ∃ hdd cdd v,
            degree_day_files [[cold_event; cold_event]] None None Db.empty
              !! "CA"%string = Some (hdd, cdd)
            ∧ file_value hdd 2021 1 = Some v ∧ v == 1650).
  { eexists _, _, _. split_and!; by vm_compute. }
  destruct Hfile as (hdd & cdd & v & Hfile & Hvalue & Hv).
  destruct (degree_day_files_content [[cold_event; cold_event]] None None Db.empty
              "CA") as [_ Hcontent].
  destruct (Hcontent hdd cdd Hfile) as (Hsame & _ & _ & Hc).
  exists hdd, cdd, v. split_and!; [exact Hfile | exact Hvalue | exact Hv | | apply Hc].
  apply Hsame. rewrite Hvalue. by eexists.
Defined.

(** ** More on degree-day queries *)

Lemma opt_or0_some x : opt_or0 (Some x) == x.
Proof. apply or0_eq. Qed.

(** X14: in every estimated answer (no daily row in range) the totals are
    the very products daily average times day count that the code
    computes, with the day count the answer carries. *)
Theorem degree_days_total_is_average_times_days (db : Db.t) (location_id : string)
    (start_date end_date : date) (est : degree_days) :
  get_degree_days db location_id start_date end_date = Returns est →
  is_estimated est = true →
  total_hdd est = avg_hdd est * inject_Z (days_count est)
  ∧ total_cdd est = avg_cdd est * inject_Z (days_count est).
Proof.
  unfold get_degree_days.
  destruct (select_daily db location_id start_date end_date) as [| r rows] eqn:Hrows.
  - simpl. destruct (strptime start_date); [| done].
    destruct (strptime end_date); [| done].
    destruct (sql_avg _) as [hdd |]; [destruct (sql_avg _) as [cdd |]; [| done] |].
    + intros [= <-] _. simpl. split; reflexivity.
    + destruct (Db.locations db !! location_id) as [loc |];
        [destruct (zone_lookup _) as [[h c] |] |];
        intros [= <-] _; simpl; split; reflexivity.
  - destruct (Z.of_nat (length (r :: rows)) =? 0)%Z eqn:Hlen;
      [apply Z.eqb_eq in Hlen; simpl in Hlen; lia |].
    intros [= <-]. simpl. done.
Qed.

Lemma degree_days_total_is_average_times_days_witness :
  ∃ est,
    get_degree_days monthly_only_db "90210_CA" (2021, 7, 1)%Z (2021, 7, 31)%Z
      = Returns est
    ∧ is_estimated est = true
    ∧ total_cdd est = avg_cdd est * inject_Z (days_count est)
    ∧ days_count est = 31%Z.
Proof.
  assert (Hest : ∃ est,
            get_degree_days monthly_only_db "90210_CA" (2021, 7, 1)%Z (2021, 7, 31)%Z
              = Returns est ∧ is_estimated est = true ∧ days_count est = 31%Z).
  { eexists. split_and!; by vm_compute. }
  destruct Hest as (est & Hest & Hflag & Hdays). exists est.
  split; [exact Hest |]. split; [exact Hflag |]. split; [| exact Hdays].
  exact (proj2 (degree_days_total_is_average_times_days _ _ _ _ _ Hest Hflag)).
Defined.

(** X15: the query raises only a ValueError, and exactly when it finds no
    daily row and one of the two dates is no calendar date; with a daily
    row in range the dates are never parsed. *)
Theorem get_degree_days_raises (db : Db.t) (location_id : string)
    (start_date end_date : date) :
  (get_degree_days db location_id start_date end_date = Raises ValueError
   ↔ select_daily db location_id start_date end_date = []
     ∧ (Date.valid start_date = false ∨ Date.valid end_date = false))
  ∧ get_degree_days db location_id start_date end_date ≠ Raises TypeError
  ∧ (select_daily db location_id start_date end_date ≠ [] →
     ∃ est, get_degree_days db location_id start_date end_date = Returns est).
Proof.
  unfold get_degree_days, strptime.
  destruct (select_daily db location_id start_date end_date) as [| r rows] eqn:Hrows.
  - simpl. destruct (Date.valid start_date), (Date.valid end_date); simpl.
    + destruct (select_monthly _ _ _ _) as [| m months]; simpl.
      * destruct (Db.locations db !! location_id) as [loc |];
          [destruct (zone_lookup _) as [[h c] |] |];
          (split_and!; [split; [done | intros [_ [? | ?]]; done] | done | done]).
      * split_and!; [split; [done | intros [_ [? | ?]]; done] | done | done].
    + split_and!; [split; [by auto | done] | done | done].
    + split_and!; [split; [by auto | done] | done | done].
    + split_and!; [split; [by auto | done] | done | done].
  - destruct (Z.of_nat (length (r :: rows)) =? 0)%Z eqn:Hlen;
      [apply Z.eqb_eq in Hlen; simpl in Hlen; lia |].
    split_and!; [split; [done | by intros [? _]] | done | intros _; by eexists].
Qed.

(** X16: a returned estimate is flagged as estimated exactly when no daily
    row is in range; an exact answer counts the rows it found and has no
    method tag; a method tag is one of the two names and means that no
    monthly row matched either. *)
Theorem estimate_flags (db : Db.t) (location_id : string)
    (start_date end_date : date) (est : degree_days) :
  get_degree_days db location_id start_date end_date = Returns est →
  (is_estimated est = true ↔ select_daily db location_id start_date end_date = [])
  ∧ (is_estimated est = false →
     days_count est
     = Z.of_nat (length (select_daily db location_id start_date end_date))
     ∧ estimation_method est = None)
  ∧ (∀ method, estimation_method est = Some method →
       (method = "climate_zone"%string ∨ method = "generic"%string)
       ∧ is_estimated est = true
       ∧ select_monthly db location_id start_date end_date = [])
  ∧ (estimation_method est = Some "climate_zone"%string →
     is_Some (Db.locations db !! location_id)).
Proof.
  unfold get_degree_days, strptime.
  destruct (select_daily db location_id start_date end_date) as [| r rows] eqn:Hrows.
  - simpl. destruct (Date.valid start_date); [| done].
    destruct (Date.valid end_date); [| done].
    destruct (select_monthly _ _ _ _) as [| m months]; simpl.
    + destruct (Db.locations db !! location_id) as [loc |];
        [destruct (zone_lookup _) as [[h c] |] |];
        intros [= <-]; simpl;
        (split_and!; [done | done | intros method [= <-]; split_and!; by auto |]);
        try done; by eexists.
    + intros [= <-]; simpl. by split_and!.
  - destruct (Z.of_nat (length (r :: rows)) =? 0)%Z eqn:Hlen;
      [apply Z.eqb_eq in Hlen; simpl in Hlen; lia |].
    intros [= <-]; simpl. by split_and!.
Qed.

Lemma estimate_flags_witness :
  ∃ est,
    get_degree_days monthly_only_db "90210_CA" (2021, 8, 1)%Z (2021, 8, 31)%Z
      = Returns est
    ∧ estimation_method est = Some "climate_zone"%string
    ∧ is_estimated est = true
    ∧ select_monthly monthly_only_db "90210_CA" (2021, 8, 1)%Z (2021, 8, 31)%Z = [].
Proof.
  assert (Hest : ∃ est,
            get_degree_days monthly_only_db "90210_CA" (2021, 8, 1)%Z (2021, 8, 31)%Z
              = Returns est ∧ estimation_method est = Some "climate_zone"%string).
  { eexists. split; by vm_compute. }
  destruct Hest as (est & Hest & Hmethod). exists est.
  destruct (estimate_flags _ _ _ _ _ Hest) as (_ & _ & Htag & _).
  destruct (Htag _ Hmethod) as (_ & Hflag & Hmonthly).
  split_and!; done.
Defined.

Lemma zone_lookup_is_Some (zone : Z) :
  (1 <= zone <= 5)%Z → is_Some (zone_lookup zone).
Proof.
  intros Hz. assert (zone = 1 ∨ zone = 2 ∨ zone = 3 ∨ zone = 4 ∨ zone = 5)%Z
    as [-> | [-> | [-> | [-> | ->]]]] by lia; by eexists.
Qed.

(** X17: for a location that a run has written to a fresh store, a
    degree-day query never falls through to the generic constants: the
    stored climate zone always has an entry in the zone table. *)
Theorem written_location_never_generic (chunks : list (list event))
    (state_filter : option (list string)) (max_chunks : option nat)
    (location_id : string) (start_date end_date : date) (est : degree_days) :
  let db := preprocess_weather_data chunks state_filter max_chunks Db.empty in
  is_Some (Db.locations db !! location_id) →
  get_degree_days db location_id start_date end_date = Returns est →
  estimation_method est ≠ Some "generic"%string.
Proof.
  intros db [row Hrow] Hest.
  assert (Hzone : is_Some (zone_lookup (Db.climate_zone row))).
  { unfold db, preprocess_weather_data in Hrow; simpl in Hrow.
    unfold save_location_data in Hrow.
    apply empty_table_rows_are_written in Hrow.
    apply location_rows_elem in Hrow as (e & He & ->).
    destruct (read_chunks_location_entries _ _ _ _ _ He) as (_ & Hz & _).
    simpl. rewrite Hz. apply zone_lookup_is_Some, estimate_climate_zone_bounds. }
  clearbody db. revert Hest. unfold get_degree_days, strptime.
  destruct (select_daily db location_id start_date end_date) as [| r rows].
  - simpl. destruct (Date.valid start_date); [| done].
    destruct (Date.valid end_date); [| done].
    destruct (sql_avg _); [destruct (sql_avg _); [| done]; by intros [= <-] |].
    rewrite Hrow. destruct Hzone as [[h c] ->]. by intros [= <-].
  - destruct (Z.of_nat (length (r :: rows)) =? 0)%Z; [| by intros [= <-]].
    simpl. destruct (Date.valid start_date); [| done].
    destruct (Date.valid end_date); [| done].
    destruct (sql_avg _); [destruct (sql_avg _); [| done]; by intros [= <-] |].
    rewrite Hrow. destruct Hzone as [[h c] ->]. by intros [= <-].
Qed.

Lemma written_location_never_generic_witness :
  is_Some (Db.locations (preprocess_weather_data [[cold_event]] None None Db.empty)
             !! "90210_CA"%string)
  ∧ ∃ est,
      get_degree_days (preprocess_weather_data [[cold_event]] None None Db.empty)
        "90210_CA" (2022, 3, 1)%Z (2022, 3, 10)%Z = Returns est
      ∧ estimation_method est = Some "climate_zone"%string
      ∧ estimation_method est ≠ Some "generic"%string.
Proof.
  assert (Hloc : is_Some (Db.locations
                            (preprocess_weather_data [[cold_event]] None None Db.empty)
                            !! "90210_CA"%string)).
  { eexists. by vm_compute. }
  assert (Hest : ∃ est,
            get_degree_days (preprocess_weather_data [[cold_event]] None None Db.empty)
              "90210_CA" (2022, 3, 1)%Z (2022, 3, 10)%Z = Returns est
            ∧ estimation_method est = Some "climate_zone"%string).
  { eexists. split; by vm_compute. }
  destruct Hest as (est & Hest & Hmethod).
  split; [exact Hloc |]. exists est. split_and!; [exact Hest | exact Hmethod |].
  exact (written_location_never_generic _ _ _ _ _ _ _ Hloc Hest).
Defined.

Lemma date_leb_refl (d : date) : Date.leb d d = true.
Proof.
  unfold Date.leb. rewrite !Z.eqb_refl, Z.leb_refl.
  by rewrite !orb_true_r.
Qed.

Lemma date_leb_antisym (a b : date) :
  Date.leb a b = true → Date.leb b a = true → a = b.
Proof.
  destruct a as [[ya ma] da], b as [[yb mb] db].
  unfold Date.leb, Date.year, Date.month, Date.day; simpl.
  intros Hab Hba.
  repeat match goal with
         | H : (_ || _) = true |- _ => apply orb_true_iff in H as [H | H]
         | H : (_ && _) = true |- _ => apply andb_true_iff in H as [? H]
         | H : (_ <? _)%Z = true |- _ => apply Z.ltb_lt in H
         | H : (_ <=? _)%Z = true |- _ => apply Z.leb_le in H
         | H : (_ =? _)%Z = true |- _ => apply Z.eqb_eq in H
         end; try lia.
  f_equal; [f_equal |]; lia.
Qed.

Lemma filter_unique {A} (f : A → bool) (l : list A) (x : A) :
  NoDup l → x ∈ l → f x = true →
  (∀ y, y ∈ l → f y = true → y = x) →
  List.filter f l = [x].
Proof.
  intros Hnd. induction Hnd as [| y l Hy Hnd IH]; intros Hin Hfx Huniq.
  - by apply elem_of_nil in Hin.
  - simpl. apply elem_of_cons in Hin as [<- | Hin].
    + rewrite Hfx. f_equal. apply filter_nil_all_false. intros z Hz.
      destruct (f z) eqn:Hfz; [| done].
      assert (z = x) as -> by (apply Huniq; [by right | done]). done.
    + destruct (f y) eqn:Hfy.
      * assert (y = x) as -> by (apply Huniq; [left | done]). done.
      * apply IH; [done | done |]. intros z Hz. apply Huniq. by right.
Qed.

Lemma select_one_day (db : Db.t) (location_id : string) (d : date)
    (row : Db.daily_cols) :
  Db.daily_weather db !! (d, location_id) = Some row →
  select_daily db location_id d d = [row].
Proof.
  intros Hrow. unfold select_daily.
  rewrite (filter_unique _ _ ((d, location_id), row)); [done | | | |].
  - apply NoDup_map_to_list.
  - by apply elem_of_map_to_list.
  - simpl. by rewrite String.eqb_refl, date_leb_refl.
  - intros [[d' loc'] row'] Hin. simpl. intros Hf.
    apply andb_true_iff in Hf as [Hf Hle2]. apply andb_true_iff in Hf as [Hloc Hle1].
    apply String.eqb_eq in Hloc as ->.
    assert (d' = d) as -> by (by apply date_leb_antisym).
    apply elem_of_map_to_list in Hin. congruence.
Qed.

(** X18: a query for exactly one stored day gives that day's row back: an
    exact answer over one day whose totals and averages are the stored
    heating and cooling degree days, whatever else the store holds and
    without the dates being parsed. *)
Theorem one_day_query_reads_the_row (db : Db.t) (location_id : string) (d : date)
    (row : Db.daily_cols) :
  Db.daily_weather db !! (d, location_id) = Some row →
  ∃ est,
    get_degree_days db location_id d d = Returns est
    ∧ is_estimated est = false ∧ estimation_method est = None
    ∧ days_count est = 1%Z
    ∧ total_hdd est == Db.heating_degree_days row
    ∧ avg_hdd est == Db.heating_degree_days row
    ∧ total_cdd est == Db.cooling_degree_days row
    ∧ avg_cdd est == Db.cooling_degree_days row.
Proof.
  intros Hrow. unfold get_degree_days. rewrite (select_one_day _ _ _ _ Hrow).
  simpl. eexists. split; [reflexivity |]. simpl.
  rewrite !or0_eq. unfold Py.sum, Py.len; simpl.
  split_and!; try done; try (change (inject_Z 1) with 1); field.
Qed.

Lemma one_day_query_reads_the_row_witness :
  ∃ row est,
    Db.daily_weather (preprocess_weather_data [[cold_event]] None None Db.empty)
      !! ((2021, 1, 5)%Z, "90210_CA"%string) = Some row
    ∧ get_degree_days (preprocess_weather_data [[cold_event]] None None Db.empty)
        "90210_CA" (2021, 1, 5)%Z (2021, 1, 5)%Z = Returns est
    ∧ is_estimated est = false
    ∧ total_hdd est == 55.
Proof.
  assert (Hrow : ∃ row,
            Db.daily_weather (preprocess_weather_data [[cold_event]] None None Db.empty)
              !! ((2021, 1, 5)%Z, "90210_CA"%string) = Some row
            ∧ Db.heating_degree_days row == 55).
  { eexists. split; by vm_compute. }
  destruct Hrow as (row & Hrow & Hhdd).
  destruct (one_day_query_reads_the_row _ _ _ _ Hrow)
    as (est & Hest & Hflag & _ & _ & Htotal & _).
  exists row, est. split_and!; [exact Hrow | exact Hest | exact Hflag |].
  by rewrite Htotal.
Defined.

(** ** Calendar order and day counts *)

Ltac date_cases :=
  repeat match goal with
         | H : (_ || _) = true |- _ => apply orb_true_iff in H as [H | H]
         | H : (_ && _) = true |- _ => apply andb_true_iff in H as [? H]
         | H : (_ || _) = false |- _ => apply orb_false_iff in H as [? H]
         | H : (_ && _) = false |- _ => apply andb_false_iff in H as [H | H]
         | H : (_ <? _)%Z = true |- _ => apply Z.ltb_lt in H
         | H : (_ <=? _)%Z = true |- _ => apply Z.leb_le in H
         | H : (_ =? _)%Z = true |- _ => apply Z.eqb_eq in H
         | H : (_ <? _)%Z = false |- _ => apply Z.ltb_ge in H
         | H : (_ <=? _)%Z = false |- _ => apply Z.leb_gt in H
         | H : (_ =? _)%Z = false |- _ => apply Z.eqb_neq in H
         end.

Lemma date_leb_trans (a b c : date) :
  Date.leb a b = true → Date.leb b c = true → Date.leb a c = true.
Proof.
  destruct a as [[ya ma] da], b as [[yb mb] db], c as [[yc mc] dc].
  unfold Date.leb, Date.year, Date.month, Date.day; simpl.
  intros Hab Hbc.
  destruct (_ || _) eqn:Hac in |- *; [done |].
  exfalso. date_cases; lia.
Qed.

(** A year has 365 days, and one more when it is a leap year. *)
Lemma days_before_year_succ (y : Z) :
  Date.days_before_year (y + 1)
  = (Date.days_before_year y + 365 + (if Date.is_leap y then 1 else 0))%Z.
Proof.
  unfold Date.days_before_year, Date.is_leap.
  replace (y + 1 - 1)%Z with y by lia.
  destruct (y mod 4 =? 0)%Z eqn:H4; destruct (y mod 100 =? 0)%Z eqn:H100;
    destruct (y mod 400 =? 0)%Z eqn:H400; simpl; date_cases;
    Z.to_euclidean_division_equations; lia.
Qed.

Lemma days_before_year_mono (y1 y2 : Z) :
  (y1 <= y2)%Z → (Date.days_before_year y1 <= Date.days_before_year y2)%Z.
Proof.
  unfold Date.days_before_year. intros Hle.
  Z.to_euclidean_division_equations; lia.
Qed.

Lemma month_cases (m : Z) :
  (1 <= m <= 12)%Z →
  m = 1%Z ∨ m = 2%Z ∨ m = 3%Z ∨ m = 4%Z ∨ m = 5%Z ∨ m = 6%Z ∨ m = 7%Z ∨ m = 8%Z
  ∨ m = 9%Z ∨ m = 10%Z ∨ m = 11%Z ∨ m = 12%Z.
Proof. lia. Qed.

(** The days of a month end where the next month begins, and the last
    month ends with the year. *)
Lemma days_before_month_next (y m : Z) :
  (1 <= m <= 12)%Z →
  (0 <= Date.days_before_month y m)%Z
  ∧ (Date.days_before_month y m + Date.days_in_month y m
     = if (m =? 12)%Z then 365 + (if Date.is_leap y then 1 else 0)
       else Date.days_before_month y (m + 1))%Z.
Proof.
  intros Hm. apply month_cases in Hm.
  unfold Date.days_before_month, Date.days_in_month.
  repeat destruct Hm as [-> | Hm]; try subst m;
    destruct (Date.is_leap y); simpl; lia.
Qed.

Lemma days_before_month_mono (y m1 m2 : Z) :
  (1 <= m1)%Z → (m1 <= m2)%Z → (m2 <= 12)%Z →
  (Date.days_before_month y m1 <= Date.days_before_month y m2)%Z.
Proof.
  intros H1 H12 H2.
  assert (Hm1 : (1 <= m1 <= 12)%Z) by lia. apply month_cases in Hm1.
  assert (Hm2 : (1 <= m2 <= 12)%Z) by lia. apply month_cases in Hm2.
  unfold Date.days_before_month.
  repeat destruct Hm1 as [-> | Hm1]; try subst m1;
    repeat destruct Hm2 as [-> | Hm2]; try subst m2;
    try lia; destruct (Date.is_leap y); simpl; lia.
Qed.

Lemma valid_date_bounds (d : date) :
  Date.valid d = true →
  (1 <= Date.year d)%Z ∧ (1 <= Date.month d <= 12)%Z
  ∧ (1 <= Date.day d <= Date.days_in_month (Date.year d) (Date.month d))%Z.
Proof.
  unfold Date.valid. intros Hv. date_cases. lia.
Qed.

(** The day number within the year lies between 1 and the length of the
    year. *)
Lemma day_of_year_bounds (d : date) :
  Date.valid d = true →
  (1 <= Date.days_before_month (Date.year d) (Date.month d) + Date.day d
   <= 365 + (if Date.is_leap (Date.year d) then 1 else 0))%Z.
Proof.
  intros (_ & Hm & Hd)%valid_date_bounds.
  destruct (days_before_month_next (Date.year d) (Date.month d) Hm) as [H0 Hnext].
  split; [lia |].
  destruct (Date.month d =? 12)%Z eqn:H12; [lia |].
  apply Z.eqb_neq in H12.
  assert (Hlast : (Date.days_before_month (Date.year d) (Date.month d + 1)
                   <= Date.days_before_month (Date.year d) 12)%Z)
    by (apply days_before_month_mono; lia).
  destruct (days_before_month_next (Date.year d) 12) as [_ H12']; [lia |].
  simpl in H12'.
  assert (0 <= Date.days_in_month (Date.year d) 12)%Z by
    (unfold Date.days_in_month; simpl; lia).
  lia.
Qed.

(** The ordinal follows the calendar order of valid dates. *)
Lemma toordinal_lt (a b : date) :
  Date.valid a = true → Date.valid b = true →
  Date.leb b a = false → (Date.toordinal a < Date.toordinal b)%Z.
Proof.
  intros Ha Hb Hlt.
  pose proof (day_of_year_bounds a Ha) as Hda.
  pose proof (day_of_year_bounds b Hb) as Hdb.
  apply valid_date_bounds in Ha as (Hya & Hma & Hdaya).
  apply valid_date_bounds in Hb as (Hyb & Hmb & Hdayb).
  unfold Date.toordinal.
  destruct a as [[ya ma] da], b as [[yb mb] db].
  unfold Date.leb, Date.year, Date.month, Date.day in *; simpl in *.
  destruct (Z.lt_trichotomy ya yb) as [Hy | [-> | Hy]].
  - pose proof (days_before_year_succ ya) as Hsucc.
    pose proof (days_before_year_mono (ya + 1) yb) as Hmono.
    lia.
  - destruct (Z.lt_trichotomy ma mb) as [Hm | [-> | Hm]].
    + destruct (days_before_month_next yb ma Hma) as [_ Hnext].
      destruct (ma =? 12)%Z eqn:H12; [apply Z.eqb_eq in H12; lia |].
      pose proof (days_before_month_mono yb (ma + 1) mb). lia.
    + date_cases; lia.
    + date_cases; lia.
  - date_cases; lia.
Qed.

Lemma toordinal_le (a b : date) :
  Date.valid a = true → Date.valid b = true →
  Date.leb a b = true → (Date.toordinal a <= Date.toordinal b)%Z.
Proof.
  intros Ha Hb Hle.
  destruct (Date.leb b a) eqn:Hba.
  - by rewrite (date_leb_antisym a b).
  - apply Z.lt_le_incl. by apply toordinal_lt.
Qed.

(** No stored day lies in a reversed range. *)
Lemma select_daily_reversed (db : Db.t) (location_id : string)
    (start_date end_date : date) :
  Date.leb start_date end_date = false →
  select_daily db location_id start_date end_date = [].
Proof.
  intros Hrev. unfold select_daily.
  rewrite filter_nil_all_false; [done |].
  intros [[d loc] row] _. simpl.
  apply not_true_is_false. intros Hf.
  apply andb_true_iff in Hf as [Hf Hle2]. apply andb_true_iff in Hf as [_ Hle1].
  by rewrite (date_leb_trans _ _ _ Hle1 Hle2) in Hrev.
Qed.

(** X19: the day count of an estimate follows the calendar.  For two
    calendar dates and no daily row in range, the query returns an estimate
    over (ordinal of end - ordinal of start + 1) days, which is at least 1
    exactly when the start is not after the end.  A range whose end is
    before its start is not refused: no daily row is in it, and the
    estimate has a day count of 0 or less, with totals that are 0 or
    negative for non-negative daily averages. *)
Theorem degree_days_day_count (db : Db.t) (location_id : string)
    (start_date end_date : date) :
  Date.valid start_date = true → Date.valid end_date = true →
  (Date.leb start_date end_date = false →
   select_daily db location_id start_date end_date = [])
  ∧ (select_daily db location_id start_date end_date = [] →
     ∃ est,
       get_degree_days db location_id start_date end_date = Returns est
       ∧ is_estimated est = true
       ∧ days_count est
         = (Date.toordinal end_date - Date.toordinal start_date + 1)%Z
       ∧ (Date.leb start_date end_date = true ↔ (1 <= days_count est)%Z)
       ∧ (Date.leb start_date end_date = false →
          (0 <= avg_hdd est → total_hdd est <= 0)
          ∧ (0 <= avg_cdd est → total_cdd est <= 0))).
Proof.
  intros Hstart Hend. split; [apply select_daily_reversed |]. intros Hrows.
  assert (Hsign : Date.leb start_date end_date = true
                  ↔ (1 <= Date.toordinal end_date - Date.toordinal start_date + 1)%Z).
  { split.
    - intros Hle. pose proof (toordinal_le _ _ Hstart Hend Hle). lia.
    - intros Hdays. destruct (Date.leb start_date end_date) eqn:Hle; [done |].
      pose proof (toordinal_lt _ _ Hend Hstart Hle). lia. }
  assert (Htotal : ∀ avg : Q,
            Date.leb start_date end_date = false → 0 <= avg →
            avg * inject_Z (Date.toordinal end_date - Date.toordinal start_date + 1)
            <= 0).
  { intros avg Hrev Havg.
    pose proof (toordinal_lt _ _ Hend Hstart Hrev) as Hlt.
    assert (Hdays : inject_Z (Date.toordinal end_date - Date.toordinal start_date + 1)
                    <= 0) by (rewrite <- (Zle_Qle _ 0); lia).
    set (days := inject_Z _) in *. clearbody days.
    assert (0 <= avg * (- days)) by (apply Qmult_le_0_compat; lra).
    lra. }
  unfold get_degree_days, strptime. rewrite Hrows, Hstart, Hend. simpl.
  destruct (select_monthly _ _ _ _) as [| m months]; simpl.
  - destruct (Db.locations db !! location_id) as [loc |];
      [destruct (zone_lookup _) as [[h c] |] |];
      (eexists; split; [reflexivity |]; simpl;
       split_and!; [done | done | exact Hsign |];
       intros Hrev; split; intros Havg; by apply Htotal).
  - eexists; split; [reflexivity |]; simpl.
    split_and!; [done | done | exact Hsign |].
    intros Hrev; split; intros Havg; by apply Htotal.
Qed.

Lemma degree_days_day_count_witness :
  ∃ est,
    get_degree_days monthly_only_db "90210_CA" (2021, 7, 31)%Z (2021, 7, 1)%Z
      = Returns est
    ∧ is_estimated est = true
    ∧ days_count est = (-29)%Z
    ∧ total_cdd est <= 0.
Proof.
  assert (Hstart : Date.valid (2021, 7, 31)%Z = true) by (by vm_compute).
  assert (Hend : Date.valid (2021, 7, 1)%Z = true) by (by vm_compute).
  assert (Hrev : Date.leb (2021, 7, 31)%Z (2021, 7, 1)%Z = false) by (by vm_compute).
  assert (Havg : ∃ est,
            get_degree_days monthly_only_db "90210_CA" (2021, 7, 31)%Z (2021, 7, 1)%Z
              = Returns est ∧ 0 <= avg_cdd est ∧ days_count est = (-29)%Z).
  { eexists. split_and!; by vm_compute. }
  destruct Havg as (est' & Hest' & Havg & Hdays').
  destruct (degree_days_day_count monthly_only_db "90210_CA"
              (2021, 7, 31)%Z (2021, 7, 1)%Z Hstart Hend) as [Hrows Hcount].
  destruct (Hcount (Hrows Hrev)) as (est & Hest & Hflag & _ & _ & Htotals).
  rewrite Hest' in Hest. injection Hest as <-.
  exists est'. split_and!; [exact Hest' | exact Hflag | exact Hdays' |].
  exact (proj2 (Htotals Hrev) Havg).
Defined.

(** ** More on seasonal factors *)

Lemma fill_missing_months_is_Some (md : gmap Z (Q * Q)) (m : Z) :
  is_Some (fill_missing_months md !! m) ↔ (1 <= m <= 12)%Z ∨ is_Some (md !! m).
Proof.
  unfold fill_missing_months.
  assert (Hgen : ∀ (ms : list Z) (md0 : gmap Z (Q * Q)),
            is_Some (foldl (λ md month,
                              match md !! month with
                              | None => <[month := seasonal_placeholder month]> md
                              | Some _ => md
                              end) md0 ms !! m)
            ↔ m ∈ ms ∨ is_Some (md0 !! m)).
  { induction ms as [| k ms IH]; intros md0; simpl.
    - split; [by right |]. intros [Hin | ?]; [by apply elem_of_nil in Hin | done].
    - rewrite IH, elem_of_cons. destruct (md0 !! k) as [v |] eqn:Hk.
      + split; [intros [? | ?]; by auto |].
        intros [[-> | ?] | ?]; [right; by rewrite Hk | by left | by right].
      + destruct (decide (k = m)) as [<- | Hne].
        * rewrite lookup_insert_eq. split; [by auto |]. intros _. right. by eexists.
        * rewrite lookup_insert_ne by done. split; [intros [? | ?]; by auto |].
          intros [[-> | ?] | ?]; [done | by left | by right]. }
  rewrite Hgen, elem_of_seqZ. split; (intros [? | ?]; [left; lia | by right]).
Qed.

(** X20: the result has a factor for the months 1..12 and for any other
    month number that a stored row of the location carries, and for no
    other key. *)
Theorem seasonal_factor_keys (db : Db.t) (location_id : string) (month : Z) :
  is_Some (get_seasonal_adjustment_factors db location_id !! month)
  ↔ (1 <= month <= 12)%Z
    ∨ ∃ year row, Db.monthly_stats db !! (year, month, location_id) = Some row.
Proof.
  unfold get_seasonal_adjustment_factors.
  rewrite !lookup_fmap, !fmap_is_Some, fill_missing_months_is_Some.
  by rewrite lookup_fmap, fmap_is_Some, monthly_averages_is_Some.
Qed.

Lemma monthly_averages_empty (db : Db.t) (location_id : string) :
  (∀ year month, Db.monthly_stats db !! (year, month, location_id) = None) →
  monthly_averages db location_id = ∅.
Proof.
  intros Hnone. apply map_empty. intros m.
  apply eq_None_not_Some. rewrite monthly_averages_is_Some.
  intros (y & row & Hrow). by rewrite Hnone in Hrow.
Qed.

(** X21: for a location without any monthly row the factors come from the
    seasonal placeholders alone: 8/7 for the winter and summer months
    (12, 1, 2, 6, 7, 8) and 6/7 for the spring and autumn months. *)
Theorem seasonal_factors_without_data (db : Db.t) (location_id : string) (month : Z) :
  (∀ year m, Db.monthly_stats db !! (year, m, location_id) = None) →
  (1 <= month <= 12)%Z →
  ∃ factor,
    get_seasonal_adjustment_factors db location_id !! month = Some factor
    ∧ factor == (if bool_decide (month ∈ [12; 1; 2; 6; 7; 8]%Z) then 8 / 7 else 6 / 7).
Proof.
  intros Hnone Hmonth. unfold get_seasonal_adjustment_factors.
  rewrite (monthly_averages_empty _ _ Hnone), fmap_empty.
  assert (month = 1 ∨ month = 2 ∨ month = 3 ∨ month = 4 ∨ month = 5 ∨ month = 6
          ∨ month = 7 ∨ month = 8 ∨ month = 9 ∨ month = 10 ∨ month = 11
          ∨ month = 12)%Z as Hcases by lia.
  repeat destruct Hcases as [-> | Hcases]; try subst month;
    (eexists; split; [by vm_compute | by vm_compute]).
Qed.

Lemma seasonal_factors_without_data_witness :
  (∀ year m, Db.monthly_stats monthly_only_db !! (year, m, "10001_NY"%string) = None)
  ∧ (1 <= 4 <= 12)%Z
  ∧ ∃ factor,
      get_seasonal_adjustment_factors monthly_only_db "10001_NY" !! 4%Z = Some factor
      ∧ factor == 6 / 7.
Proof.
  assert (Hnone : ∀ year m,
            Db.monthly_stats monthly_only_db !! (year, m, "10001_NY"%string) = None).
  { intros year m. simpl. apply lookup_singleton_ne. congruence. }
  assert (Hmonth : (1 <= 4 <= 12)%Z) by lia.
  split; [exact Hnone |]. split; [exact Hmonth |].
  exact (seasonal_factors_without_data monthly_only_db "10001_NY" 4 Hnone Hmonth).
Defined.

(** X22: when the location has rows for all of the months 1..12 and the
    combined value (avg HDD + avg CDD) of every stored month is zero, the
    division is skipped and every factor is 1. *)
Theorem seasonal_factors_all_zero (db : Db.t) (location_id : string) :
  (∀ month, (1 <= month <= 12)%Z →
     ∃ year row, Db.monthly_stats db !! (year, month, location_id) = Some row) →
  (∀ month avg_hdd avg_cdd,
     monthly_averages db location_id !! month = Some (Some avg_hdd, Some avg_cdd) →
     avg_hdd + avg_cdd == 0) →
  ∀ month factor,
    get_seasonal_adjustment_factors db location_id !! month = Some factor →
    factor == 1.
Proof.
  intros Hcover Hzero month factor. unfold get_seasonal_adjustment_factors.
  set (md := (λ row : option Q * option Q, (opt_or0 row.1, opt_or0 row.2))
               <$> monthly_averages db location_id).
  assert (Hfill : fill_missing_months md = md).
  { apply fill_missing_months_complete. intros m Hm. unfold md.
    rewrite lookup_fmap, fmap_is_Some, monthly_averages_is_Some. by apply Hcover. }
  rewrite Hfill.
  set (comb := (λ d : Q * Q, d.1 + d.2) <$> md).
  assert (Hcomb : ∀ m c, comb !! m = Some c → c == 0).
  { intros m c. unfold comb, md. rewrite !lookup_fmap.
    destruct (monthly_averages db location_id !! m) as [row |] eqn:Hrow; [| done].
    destruct (monthly_averages_numbers _ _ _ _ Hrow) as (h & cd & ->).
    simpl. intros [= <-]. rewrite !or0_eq. by eapply Hzero. }
  assert (Hsum : Py.sum (snd <$> map_to_list comb) == 0).
  { rewrite (py_sum_uniform 0); [ring |].
    apply Forall_fmap, Forall_forall. intros [m c] Hin. simpl.
    apply elem_of_map_to_list in Hin. by eapply Hcomb. }
  rewrite lookup_fmap. intros [c [Hc ->]]%fmap_Some.
  destruct (Qlt_le_dec 0 (Py.sum (snd <$> map_to_list comb) / 12)) as [Havg | Havg].
  - rewrite Hsum in Havg. qlra.
  - by vm_compute.
Qed.

Lemma seasonal_factors_all_zero_witness :
  (∀ month, (1 <= month <= 12)%Z →
     ∃ year row, Db.monthly_stats zero_db !! (year, month, "90210_CA"%string) = Some row)
  ∧ ∃ factor,
      get_seasonal_adjustment_factors zero_db "90210_CA" !! 7%Z = Some factor
      ∧ factor == 1.
Proof.
  assert (Hcover : ∀ month, (1 <= month <= 12)%Z →
            ∃ year row,
              Db.monthly_stats zero_db !! (year, month, "90210_CA"%string) = Some row).
  { intros month Hmonth. apply monthly_averages_is_Some, elem_of_dom.
    replace (dom (monthly_averages zero_db "90210_CA"))
      with (list_to_set (seqZ 1 12) : gset Z) by (by vm_compute).
    rewrite elem_of_list_to_set, elem_of_seqZ. lia. }
  assert (Hzero : ∀ month avg_hdd avg_cdd,
            monthly_averages zero_db "90210_CA" !! month
              = Some (Some avg_hdd, Some avg_cdd) →
            avg_hdd + avg_cdd == 0).
  { assert (Hall : map_Forall (λ _ row, opt_or0 row.1 + opt_or0 row.2 == 0)
                     (monthly_averages zero_db "90210_CA")).
    { apply (bool_decide_unpack _). by vm_compute. }
    intros month h c Hrow. apply Hall in Hrow. simpl in Hrow.
    by rewrite !or0_eq in Hrow. }
  split; [exact Hcover |].
  assert (Hfactor : is_Some (get_seasonal_adjustment_factors zero_db "90210_CA" !! 7%Z)).
  { eexists. by vm_compute. }
  destruct Hfactor as [factor Hfactor]. exists factor. split; [exact Hfactor |].
  exact (seasonal_factors_all_zero zero_db "90210_CA" Hcover Hzero 7 factor Hfactor).
Defined.

(** ** Weather-normalised consumption *)

Lemma seasonal_factor_in_range (db : Db.t) (location_id : string) (m : Z) (f : Q) :
  get_seasonal_adjustment_factors db location_id !! m = Some f → 0.6 <= f <= 1.8.
Proof.
  unfold get_seasonal_adjustment_factors. rewrite lookup_fmap.
  intros [c [_ ->]]%fmap_Some. apply clamp_factor_bounds.
Qed.

Lemma seasonal_factor_exists (db : Db.t) (location_id : string) (m : Z) :
  (1 <= m <= 12)%Z →
  is_Some (get_seasonal_adjustment_factors db location_id !! m).
Proof.
  intros Hm. unfold get_seasonal_adjustment_factors.
  rewrite !lookup_fmap, !fmap_is_Some. by apply fill_missing_months_covers.
Qed.

Lemma valid_date_month (d : date) :
  Date.valid d = true → (1 <= Date.month d <= 12)%Z.
Proof.
  unfold Date.valid. intros Hv.
  repeat match goal with
         | H : (_ && _) = true |- _ => apply andb_true_iff in H as [H ?]
         | H : (_ <=? _)%Z = true |- _ => apply Z.leb_le in H
         end. lia.
Qed.

(** X23: the normalisation returns the items it was given, in their order
    and with their own keys untouched.  An item with a calendar date and a
    value gains the factor of its month, which lies in [0.6, 1.8], and as
    normalised value the quotient value / factor of its value by that
    factor; an item whose date is missing or no calendar date, or whose
    value is missing, comes back as it was.  The aggregation period plays
    no part. *)
Theorem weather_normalization_items (db : Db.t) (consumption_data : list consumption_item)
    (location_id aggregation_period : string) :
  let normalized :=
    calculate_weather_normalized_consumption db consumption_data location_id
      aggregation_period in
  ni_item <$> normalized = consumption_data
  ∧ Forall (λ r,
      match ni_weather_factor r, ni_normalized_value r with
      | Some factor, Some normalized_value =>
          ∃ d value,
            item_date (ni_item r) = Some d ∧ Date.valid d = true
            ∧ item_value (ni_item r) = Some value
            ∧ get_seasonal_adjustment_factors db location_id !! Date.month d
              = Some factor
            ∧ 0.6 <= factor <= 1.8
            ∧ normalized_value = value / factor
      | None, None =>
          item_date (ni_item r) = None
          ∨ (∃ d, item_date (ni_item r) = Some d ∧ Date.valid d = false)
          ∨ item_value (ni_item r) = None
      | _, _ => False
      end) normalized
  ∧ ∀ other_period,
      calculate_weather_normalized_consumption db consumption_data location_id
        other_period = normalized.
Proof.
  intros normalized. unfold normalized, calculate_weather_normalized_consumption.
  pose proof (seasonal_factor_exists db location_id) as Hexists.
  pose proof (seasonal_factor_in_range db location_id) as Hrange.
  set (factors := get_seasonal_adjustment_factors db location_id) in *.
  clearbody factors.
  split_and!; [| | done].
  - induction consumption_data as [| item items IH]; [done |].
    rewrite !fmap_cons, IH. f_equal. unfold normalize_item.
    destruct (item_date item) as [d |]; [| done].
    destruct (strptime d); [| done]. by destruct (item_value item).
  - apply Forall_fmap, Forall_forall. intros item _.
    unfold compose, normalize_item, strptime.
    destruct (item_date item) as [d |] eqn:Hd; cbn; [| by left].
    destruct (Date.valid d) eqn:Hvalid; cbn;
      [| rewrite Hd; right; left; by exists d].
    destruct (item_value item) as [v |] eqn:Hv; cbn; [| rewrite Hv; by auto].
    destruct (Hexists (Date.month d) (valid_date_month d Hvalid)) as [f Hf].
    pose proof (Hrange _ _ Hf) as Hf_range.
    rewrite Hf. cbn. exists d, v. rewrite Hd, Hv.
    split; [done |]. split; [done |]. split; [done |]. split; [done |].
    split; [exact Hf_range |]. reflexivity.
Qed.

(** ** Queries on missing data *)

(** Without a monthly row of the location, the factors are those of the
    placeholders alone, whatever else the store holds. *)
Lemma seasonal_factors_of_empty_store (db : Db.t) (location_id : string) :
  (∀ year month, Db.monthly_stats db !! (year, month, location_id) = None) →
  get_seasonal_adjustment_factors db location_id
  = get_seasonal_adjustment_factors Db.empty location_id.
Proof.
  intros Hnone. unfold get_seasonal_adjustment_factors.
  rewrite (monthly_averages_empty db location_id Hnone).
  by rewrite (monthly_averages_empty Db.empty location_id).
Qed.

(** C9, as the code has it.  The estimator: an unknown location and two
    calendar dates give the generic estimate (5 and 3 per day over the d
    days of the range, flagged estimated with method generic); every
    degree-day query with two calendar dates that finds no daily row
    returns an estimate with is_estimated = true; when one of the dates is
    no calendar date, such a query raises a ValueError.  The normalizer
    does not fail: whatever the store holds there is a factor in
    [0.6, 1.8] for each of the twelve months, and one item is returned per
    consumption item; for a location without monthly rows the factors are
    those of the seasonal placeholders (20 / 17.5 for the winter and summer
    months, 15 / 17.5 for the others).  But the dict of factors then has
    the twelve month numbers as its only keys: nothing marks the answer as
    an estimate. *)
Theorem degree_days_missing_data (db : Db.t) (location_id : string)
    (start_date end_date : date) :
  (Date.valid start_date = true → Date.valid end_date = true →
   (location_absent db location_id →
      let d := days_in_range start_date end_date in
      get_degree_days db location_id start_date end_date =
        Returns {| total_hdd := 5 * inject_Z d; total_cdd := 3 * inject_Z d;
                   avg_hdd := 5; avg_cdd := 3; days_count := d;
                   is_estimated := true;
                   estimation_method := Some "generic"%string |})
   ∧ (select_daily db location_id start_date end_date = [] →
      ∃ est, get_degree_days db location_id start_date end_date = Returns est
             ∧ is_estimated est = true))
  ∧ (select_daily db location_id start_date end_date = [] →
     Date.valid start_date = false ∨ Date.valid end_date = false →
     get_degree_days db location_id start_date end_date = Raises ValueError)
  ∧ (∀ month, (1 <= month <= 12)%Z →
       ∃ factor,
         get_seasonal_adjustment_factors db location_id !! month = Some factor
         ∧ 0.6 <= factor <= 1.8)
  ∧ (∀ consumption_data aggregation_period,
       length (calculate_weather_normalized_consumption db consumption_data
                 location_id aggregation_period)
       = length consumption_data)
  ∧ ((∀ year month, Db.monthly_stats db !! (year, month, location_id) = None) →
     (∀ month, (1 <= month <= 12)%Z →
        ∃ factor,
          get_seasonal_adjustment_factors db location_id !! month = Some factor
          ∧ factor == (if bool_decide (month ∈ [12; 1; 2; 6; 7; 8]%Z)
                       then 20 / 17.5 else 15 / 17.5))
     ∧ dom (get_seasonal_adjustment_factors db location_id)
       = list_to_set (seqZ 1 12)).
Proof.
  split_and!.
  - intros Hs He. rewrite get_degree_days_tiers by done. split.
    + intros Habsent. unfold exact_tier, monthly_tier, climate_zone_tier.
      rewrite absent_select_daily, absent_select_monthly by done.
      destruct Habsent as (-> & _). reflexivity.
    + intros Hdaily. eexists. split; [reflexivity |].
      unfold exact_tier. rewrite Hdaily. simpl.
      unfold monthly_tier, climate_zone_tier.
      destruct (select_monthly _ _ _ _); simpl; [| done].
      destruct (Db.locations db !! location_id) as [loc |]; simpl; [| done].
      destruct (zone_lookup (Db.climate_zone loc)); done.
  - intros Hdaily Hinvalid. unfold get_degree_days, strptime. rewrite Hdaily. simpl.
    destruct (Date.valid start_date); [| done].
    destruct Hinvalid as [? | ->]; done.
  - intros month Hmonth.
    destruct (seasonal_factor_exists db location_id month Hmonth) as [factor Hfactor].
    exists factor. split; [exact Hfactor |]. by eapply seasonal_factor_in_range.
  - intros consumption_data aggregation_period.
    unfold calculate_weather_normalized_consumption. by rewrite length_fmap.
  - intros Hnone. rewrite (seasonal_factors_of_empty_store db location_id Hnone).
    assert (Hempty : get_seasonal_adjustment_factors Db.empty location_id
                     = get_seasonal_adjustment_factors Db.empty "").
    { unfold get_seasonal_adjustment_factors.
      by rewrite !(monthly_averages_empty Db.empty). }
    split.
    + intros month Hmonth. rewrite Hempty.
      assert (month = 1 ∨ month = 2 ∨ month = 3 ∨ month = 4 ∨ month = 5 ∨ month = 6
              ∨ month = 7 ∨ month = 8 ∨ month = 9 ∨ month = 10 ∨ month = 11
              ∨ month = 12)%Z as Hcases by lia.
      repeat destruct Hcases as [-> | Hcases]; try subst month;
        (eexists; split; [by vm_compute | by vm_compute]).
    + rewrite Hempty. by vm_compute.
Qed.

Lemma degree_days_missing_data_witness :
  Date.valid (2024, 2, 1)%Z = true ∧ Date.valid (2024, 3, 1)%Z = true
  ∧ location_absent monthly_only_db "10001_NY"
  ∧ get_degree_days monthly_only_db "10001_NY" (2024, 2, 1)%Z (2024, 3, 1)%Z =
      Returns {| total_hdd := 5 * inject_Z 30; total_cdd := 3 * inject_Z 30;
                 avg_hdd := 5; avg_cdd := 3; days_count := 30;
                 is_estimated := true;
                 estimation_method := Some "generic"%string |}.
Proof.
  assert (Hs : Date.valid (2024, 2, 1)%Z = true) by reflexivity.
  assert (He : Date.valid (2024, 3, 1)%Z = true) by reflexivity.
  assert (Habsent : location_absent monthly_only_db "10001_NY").
  { split_and!; [done | done | | done]. intros year month. simpl.
    apply lookup_singleton_ne. congruence. }
  split; [exact Hs |]. split; [exact He |]. split; [exact Habsent |].
  exact (proj1 (proj1 (degree_days_missing_data monthly_only_db "10001_NY"
                         (2024, 2, 1)%Z (2024, 3, 1)%Z) Hs He) Habsent).
Defined.

(** C9 as stated fails inside the query layer.  For a location of which
    the store holds nothing, a degree-day query whose start is written
    2024-02-30 finds no daily row and raises a ValueError instead of
    returning an estimate; and the seasonal factors, which are estimated
    from the placeholders, come back as a dict whose only keys are the
    month numbers 1..12, and a normalised item has the keys date, value,
    weather_factor and normalized_value: no accuracy flag. *)
Lemma missing_data_query_fails_or_is_unflagged :
  select_daily monthly_only_db "10001_NY" (2024, 2, 30)%Z (2024, 3, 1)%Z = []
  ∧ get_degree_days monthly_only_db "10001_NY" (2024, 2, 30)%Z (2024, 3, 1)%Z
    = Raises ValueError
  ∧ monthly_averages monthly_only_db "10001_NY" = ∅
  ∧ dom (get_seasonal_adjustment_factors monthly_only_db "10001_NY")
    = list_to_set (seqZ 1 12)
  ∧ normalized_item_keys
      <$> calculate_weather_normalized_consumption monthly_only_db
            [{| item_date := Some (2024, 1, 15)%Z; item_value := Some 100 |}]
            "10001_NY" "monthly"
    = [["date"; "value"; "weather_factor"; "normalized_value"]%string].
Proof. split_and!; by vm_compute. Qed.

(** ** get_weather_impact_for_hvac *)

Lemma py_div_None (a b : Q) : py_div a b = None ↔ b == 0.
Proof.
  unfold py_div. destruct (Qeq_bool b 0) eqn:Hb.
  - apply Qeq_bool_iff in Hb. done.
  - apply Qeq_bool_neq in Hb. done.
Qed.

Lemma py_div_Some (a b : Q) : ¬ b == 0 → py_div a b = Some (a / b).
Proof.
  intros Hb. unfold py_div. destruct (Qeq_bool b 0) eqn:Hb'; [| done].
  apply Qeq_bool_iff in Hb'. done.
Qed.

(** The improved efficiency is zero only for an efficiency of -0.2. *)
Lemma improved_efficiency_zero (system_efficiency : Q) :
  Py.min 0.95 (system_efficiency + 0.2) == 0 ↔ system_efficiency == -0.2.
Proof.
  unfold Py.min. destruct (Qlt_le_dec _ _); split; intros; lra.
Qed.

Lemma improved_efficiency_pos (system_efficiency : Q) :
  0 < system_efficiency → 0 < Py.min 0.95 (system_efficiency + 0.2).
Proof.
  intros. unfold Py.min. destruct (Qlt_le_dec _ _); lra.
Qed.

(** The estimate that is returned when no division fails. *)
Lemma hvac_run (db : Db.t) (now : date) (location_id : string)
    (system_efficiency square_footage : Q) (start_ end_ : date) (dd : degree_days) :
  get_degree_days db location_id start_ end_ = Returns dd →
  ¬ system_efficiency == -0.2 → ¬ square_footage == 0 →
  ∃ r, get_weather_impact_for_hvac db now location_id system_efficiency
         square_footage (Some (start_, end_)) = HvacReturns r
    ∧ hvac_degree_days r = dd
    ∧ heating_energy_kwh r
      = total_hdd dd * square_footage * 1.5 * (1 / 3412)
        * (if Qlt_le_dec 0 system_efficiency then 1 / system_efficiency else 1.25)
    ∧ cooling_energy_kwh r
      = total_cdd dd * square_footage * 2 * (1 / 3412)
        * (if Qlt_le_dec 0 system_efficiency then 1 / system_efficiency else 1.25)
    ∧ total_energy_kwh r = heating_energy_kwh r + cooling_energy_kwh r
    ∧ estimated_annual_cost r = (heating_energy_kwh r + cooling_energy_kwh r) * 0.14
    ∧ potential_annual_savings r
      = ((heating_energy_kwh r
          - total_hdd dd * square_footage * 1.5 * (1 / 3412)
            * (1 / Py.min 0.95 (system_efficiency + 0.2)))
         + (cooling_energy_kwh r
            - total_cdd dd * square_footage * 2 * (1 / 3412)
              * (1 / Py.min 0.95 (system_efficiency + 0.2)))) * 0.14
    ∧ efficiency_upgrade_roi r = potential_annual_savings r / (square_footage * 1.5).
Proof.
  intros Hdd Heff Hsqft. unfold get_weather_impact_for_hvac. rewrite Hdd.
  cbv zeta.
  rewrite (py_div_Some 1 (Py.min 0.95 (system_efficiency + 0.2)))
    by (by rewrite improved_efficiency_zero).
  match goal with
  | |- context [py_div ?a (square_footage * 1.5)] =>
      rewrite (py_div_Some a (square_footage * 1.5)) by (intros ?; apply Hsqft; lra)
  end.
  eexists. split; [reflexivity |]. cbn [hvac_degree_days heating_energy_kwh
    cooling_energy_kwh total_energy_kwh estimated_annual_cost
    potential_annual_savings efficiency_upgrade_roi].
  by split_and!.
Qed.

(** X24: an HVAC estimate fails in two ways only.  An error of the
    degree-day query is passed on; when the query answers, the estimate
    raises a ZeroDivisionError exactly for a system efficiency of -0.2 or a
    square footage of 0, and otherwise returns with the degree days of the
    query.  An efficiency of 0 is no error. *)
Theorem hvac_errors (db : Db.t) (now : date) (location_id : string)
    (system_efficiency square_footage : Q) (start_ end_ : date) :
  let result :=
    get_weather_impact_for_hvac db now location_id system_efficiency
      square_footage (Some (start_, end_)) in
  (∀ err, get_degree_days db location_id start_ end_ = Raises err →
          result = HvacRaises (DegreeDaysError err))
  ∧ (∀ dd, get_degree_days db location_id start_ end_ = Returns dd →
       (result = HvacRaises ZeroDivisionError
        ↔ system_efficiency == -0.2 ∨ square_footage == 0)
       ∧ (¬ system_efficiency == -0.2 → ¬ square_footage == 0 →
          ∃ r, result = HvacReturns r ∧ hvac_degree_days r = dd)).
Proof.
  intros result. split.
  - intros err Herr. unfold result, get_weather_impact_for_hvac. by rewrite Herr.
  - intros dd Hdd. split.
    + split.
      * intros Hraises.
        destruct (Qeq_dec system_efficiency (-0.2)) as [| Heff]; [by left |].
        destruct (Qeq_dec square_footage 0) as [| Hsqft]; [by right |].
        destruct (hvac_run db now location_id _ _ _ _ _ Hdd Heff Hsqft)
          as (r & Hr & _).
        unfold result in Hraises. congruence.
      * unfold result, get_weather_impact_for_hvac. rewrite Hdd. cbv zeta.
        intros [Heff | Hsqft].
        -- apply improved_efficiency_zero in Heff.
           apply (py_div_None 1) in Heff. by rewrite Heff.
        -- destruct (py_div 1 _); [| done].
           match goal with
           | |- context [py_div ?a (square_footage * 1.5)] =>
               assert (Hnone : py_div a (square_footage * 1.5) = None)
                 by (apply py_div_None; lra)
           end.
           by rewrite Hnone.
    + intros Heff Hsqft.
      destruct (hvac_run db now location_id _ _ _ _ _ Hdd Heff Hsqft)
        as (r & Hr & Hrdd & _).
      by exists r.
Qed.

(** X25: for a positive efficiency and floor area and non-negative degree
    days, heating and cooling energy are not negative, the total is their
    sum, the cost is the total at 0.14 per kWh and is not negative, and the
    return on investment is the savings divided by 1.5 per square foot.
    Up to an efficiency of 0.95 the potential savings lie between 0 and
    the cost; from 0.95 on they are negative or zero. *)
Theorem hvac_estimate (db : Db.t) (now : date) (location_id : string)
    (system_efficiency square_footage : Q) (start_ end_ : date) (dd : degree_days) :
  get_degree_days db location_id start_ end_ = Returns dd →
  0 <= total_hdd dd → 0 <= total_cdd dd →
  0 < system_efficiency → 0 < square_footage →
  ∃ r, get_weather_impact_for_hvac db now location_id system_efficiency
         square_footage (Some (start_, end_)) = HvacReturns r
    ∧ 0 <= heating_energy_kwh r
    ∧ 0 <= cooling_energy_kwh r
    ∧ total_energy_kwh r = heating_energy_kwh r + cooling_energy_kwh r
    ∧ estimated_annual_cost r = total_energy_kwh r * 0.14
    ∧ efficiency_upgrade_roi r = potential_annual_savings r / (square_footage * 1.5)
    ∧ 0 <= estimated_annual_cost r
    ∧ (system_efficiency <= 0.95 →
       0 <= potential_annual_savings r <= estimated_annual_cost r)
    ∧ (0.95 <= system_efficiency → potential_annual_savings r <= 0).
Proof.
  intros Hdd Hhdd Hcdd Heff Hsqft.
  pose proof (improved_efficiency_pos _ Heff) as Himp.
  assert (Himp_le : system_efficiency <= 0.95 →
                    system_efficiency <= Py.min 0.95 (system_efficiency + 0.2)).
  { intros ?. unfold Py.min. destruct (Qlt_le_dec _ _); lra. }
  assert (Himp_ge : 0.95 <= system_efficiency →
                    Py.min 0.95 (system_efficiency + 0.2) <= system_efficiency).
  { intros ?. unfold Py.min. destruct (Qlt_le_dec _ _); lra. }
  destruct (hvac_run db now location_id system_efficiency square_footage
              _ _ _ Hdd) as (r & Hr & _ & Hheat & Hcool & Htotal & Hcost & Hsave & Hroi);
    [lra | lra |].
  exists r. split; [exact Hr |].
  set (improved := Py.min 0.95 (system_efficiency + 0.2)) in *.
  clearbody improved.
  destruct (Qlt_le_dec 0 system_efficiency) as [_ | Hle];
    [| exfalso; clear - Heff Hle; lra].
  assert (Hinv : 0 < 1 / system_efficiency).
  { apply Qlt_shift_div_l; [done |]. lra. }
  assert (Hheat_load : 0 <= total_hdd dd * square_footage * 1.5 * (1 / 3412)).
  { repeat apply Qmult_le_0_compat; qlra. }
  assert (Hcool_load : 0 <= total_cdd dd * square_footage * 2 * (1 / 3412)).
  { repeat apply Qmult_le_0_compat; qlra. }
  assert (Hheat_pos : 0 <= heating_energy_kwh r).
  { rewrite Hheat. apply Qmult_le_0_compat; [exact Hheat_load | lra]. }
  assert (Hcool_pos : 0 <= cooling_energy_kwh r).
  { rewrite Hcool. apply Qmult_le_0_compat; [exact Hcool_load | lra]. }
  split; [exact Hheat_pos |]. split; [exact Hcool_pos |].
  split; [exact Htotal |]. split; [by rewrite Htotal |]. split; [exact Hroi |].
  rewrite Hcost, Hsave, Hheat, Hcool.
  clear Hheat_pos Hcool_pos Hheat_load Hcool_load Hinv.
  clear Hheat Hcool Htotal Hcost Hsave Hroi Hr r.
  (* the energy at efficiency 1, which is not negative *)
  set (load := (total_hdd dd * 1.5 + total_cdd dd * 2) * square_footage * (1 / 3412)).
  assert (Hload : 0 <= load).
  { unfold load. apply Qmult_le_0_compat; [apply Qmult_le_0_compat |]; qlra. }
  assert (Hpos : 0 < system_efficiency * improved) by (by apply Qmult_lt_0_compat).
  assert (Hcost_eq :
    (total_hdd dd * square_footage * 1.5 * (1 / 3412) * (1 / system_efficiency)
     + total_cdd dd * square_footage * 2 * (1 / 3412) * (1 / system_efficiency)) * 0.14
    == load * 0.14 / system_efficiency).
  { unfold load. field. lra. }
  assert (Hsave_eq :
    (total_hdd dd * square_footage * 1.5 * (1 / 3412) * (1 / system_efficiency)
     - total_hdd dd * square_footage * 1.5 * (1 / 3412) * (1 / improved)
     + (total_cdd dd * square_footage * 2 * (1 / 3412) * (1 / system_efficiency)
        - total_cdd dd * square_footage * 2 * (1 / 3412) * (1 / improved))) * 0.14
    == load * 0.14 * (improved - system_efficiency) / (system_efficiency * improved)).
  { unfold load. field. lra. }
  assert (Hrw : load * 0.14 / system_efficiency * (system_efficiency * improved)
                == load * 0.14 * improved) by (field; lra).
  clearbody load.
  split_and!.
  - rewrite Hcost_eq. clear Hcost_eq Hsave_eq Hrw.
    apply Qle_shift_div_l; [done |]. lra.
  - intros Hle. specialize (Himp_le Hle). split.
    + rewrite Hsave_eq. clear Hcost_eq Hsave_eq Hrw.
      apply Qle_shift_div_l; [done |].
      rewrite Qmult_0_l. apply Qmult_le_0_compat; lra.
    + rewrite Hsave_eq, Hcost_eq. clear Hcost_eq Hsave_eq.
      apply Qle_shift_div_r; [done |].
      rewrite Hrw. clear Hrw.
      assert (0 <= load * 0.14 * system_efficiency)
        by (apply Qmult_le_0_compat; lra).
      lra.
  - intros Hge. rewrite Hsave_eq. clear Hcost_eq Hsave_eq Hrw.
    apply Qle_shift_div_r; [done |].
    rewrite Qmult_0_l. specialize (Himp_ge Hge).
    assert (0 <= load * 0.14 * (system_efficiency - improved))
      by (apply Qmult_le_0_compat; lra).
    lra.
Qed.

Lemma hvac_estimate_witness :
  ∃ r, get_weather_impact_for_hvac uniform_db (2024, 6, 15)%Z "90210_CA" 0.8 2000
         (Some ((2021, 1, 1)%Z, (2021, 12, 31)%Z)) = HvacReturns r
    ∧ estimated_annual_cost r = total_energy_kwh r * 0.14
    ∧ 0 <= potential_annual_savings r <= estimated_annual_cost r.
Proof.
  assert (Hdd : ∃ dd,
            get_degree_days uniform_db "90210_CA" (2021, 1, 1)%Z (2021, 12, 31)%Z
              = Returns dd
            ∧ 0 <= total_hdd dd ∧ 0 <= total_cdd dd).
  { eexists. split_and!; by vm_compute. }
  destruct Hdd as (dd & Hdd & Hhdd & Hcdd).
  destruct (hvac_estimate uniform_db (2024, 6, 15)%Z "90210_CA" 0.8 2000
              _ _ dd Hdd Hhdd Hcdd)
    as (r & Hr & _ & _ & _ & Hcost & _ & _ & Hsave & _); [lra | lra |].
  exists r. split; [exact Hr |]. split; [exact Hcost |].
  apply Hsave. lra.
Defined.

(** X26: an efficiency that is zero or negative (and not -0.2) is charged
    as an efficiency of 0.8: for a floor area other than 0, energy and cost
    are those of a system of efficiency 0.8.  The upgrade is still computed
    from the given number, so that for an efficiency in (-0.2, 0],
    non-negative degree days and a positive floor area the reported savings
    are a loss of at least twice the cost. *)
Theorem hvac_nonpositive_efficiency (db : Db.t) (now : date) (location_id : string)
    (system_efficiency square_footage : Q) (start_ end_ : date) (dd : degree_days) :
  get_degree_days db location_id start_ end_ = Returns dd →
  system_efficiency <= 0 → ¬ system_efficiency == -0.2 → ¬ square_footage == 0 →
  ∃ r r',
    get_weather_impact_for_hvac db now location_id system_efficiency
      square_footage (Some (start_, end_)) = HvacReturns r
    ∧ get_weather_impact_for_hvac db now location_id 0.8
        square_footage (Some (start_, end_)) = HvacReturns r'
    ∧ heating_energy_kwh r == heating_energy_kwh r'
    ∧ cooling_energy_kwh r == cooling_energy_kwh r'
    ∧ total_energy_kwh r == total_energy_kwh r'
    ∧ estimated_annual_cost r == estimated_annual_cost r'
    ∧ (-0.2 < system_efficiency → 0 <= total_hdd dd → 0 <= total_cdd dd →
       0 < square_footage →
       potential_annual_savings r <= -2 * estimated_annual_cost r).
Proof.
  intros Hdd Hle Heff Hsqft.
  destruct (hvac_run db now location_id system_efficiency square_footage
              _ _ _ Hdd Heff Hsqft)
    as (r & Hr & _ & Hheat & Hcool & Htotal & Hcost & Hsave & _).
  destruct (hvac_run db now location_id 0.8 square_footage _ _ _ Hdd)
    as (r' & Hr' & _ & Hheat' & Hcool' & Htotal' & Hcost' & _);
    [lra | exact Hsqft |].
  exists r, r'. split; [exact Hr |]. split; [exact Hr' |].
  destruct (Qlt_le_dec 0 system_efficiency) as [Hlt | _];
    [exfalso; clear - Hlt Hle; lra |].
  destruct (Qlt_le_dec 0 0.8) as [_ | Hfalse]; [| exfalso; clear - Hfalse; lra].
  assert (Himp : -0.2 < system_efficiency →
                 Py.min 0.95 (system_efficiency + 0.2) == system_efficiency + 0.2).
  { intros ?. unfold Py.min. destruct (Qlt_le_dec _ _); lra. }
  rewrite Htotal, Hcost, Hsave, Htotal', Hcost', Hheat, Hcool, Hheat', Hcool'.
  clear Hheat Hcool Htotal Hcost Hsave Hheat' Hcool' Htotal' Hcost' Hr Hr' r r'.
  split_and!.
  - field.
  - field.
  - field.
  - field.
  - intros Hgt Hhdd Hcdd Hpos. rewrite (Himp Hgt). clear Himp.
    set (improved := system_efficiency + 0.2).
    assert (Himproved : 0 < improved <= 0.2) by (unfold improved; lra).
    clearbody improved.
    set (load := (total_hdd dd * 1.5 + total_cdd dd * 2) * square_footage * (1 / 3412)).
    assert (Hload : 0 <= load).
    { unfold load. apply Qmult_le_0_compat; [apply Qmult_le_0_compat |]; qlra. }
    assert (Hinv : 5 <= 1 / improved).
    { apply Qle_shift_div_l; [lra | lra]. }
    assert (Hsave_eq :
      (total_hdd dd * square_footage * 1.5 * (1 / 3412) * 1.25
       - total_hdd dd * square_footage * 1.5 * (1 / 3412) * (1 / improved)
       + (total_cdd dd * square_footage * 2 * (1 / 3412) * 1.25
          - total_cdd dd * square_footage * 2 * (1 / 3412) * (1 / improved))) * 0.14
      == load * 0.14 * 1.25 - load * 0.14 * (1 / improved)).
    { unfold load. field. lra. }
    assert (Hcost_eq :
      (total_hdd dd * square_footage * 1.5 * (1 / 3412) * 1.25
       + total_cdd dd * square_footage * 2 * (1 / 3412) * 1.25) * 0.14
      == load * 0.14 * 1.25).
    { unfold load. field. }
    rewrite Hsave_eq, Hcost_eq. clear Hsave_eq Hcost_eq. clearbody load.
    set (inv := 1 / improved) in *. clearbody inv.
    assert (0 <= load * 0.14 * (inv - 5)) by (apply Qmult_le_0_compat; lra).
    lra.
Qed.

Lemma hvac_nonpositive_efficiency_witness :
  ∃ r r',
    get_weather_impact_for_hvac uniform_db (2024, 6, 15)%Z "90210_CA" 0 2000
      (Some ((2021, 1, 1)%Z, (2021, 12, 31)%Z)) = HvacReturns r
    ∧ get_weather_impact_for_hvac uniform_db (2024, 6, 15)%Z "90210_CA" 0.8 2000
        (Some ((2021, 1, 1)%Z, (2021, 12, 31)%Z)) = HvacReturns r'
    ∧ estimated_annual_cost r == estimated_annual_cost r'
    ∧ potential_annual_savings r <= -2 * estimated_annual_cost r.
Proof.
  assert (Hdd : ∃ dd,
            get_degree_days uniform_db "90210_CA" (2021, 1, 1)%Z (2021, 12, 31)%Z
              = Returns dd
            ∧ 0 <= total_hdd dd ∧ 0 <= total_cdd dd).
  { eexists. split_and!; by vm_compute. }
  destruct Hdd as (dd & Hdd & Hhdd & Hcdd).
  destruct (hvac_nonpositive_efficiency uniform_db (2024, 6, 15)%Z "90210_CA" 0 2000
              _ _ dd Hdd)
    as (r & r' & Hr & Hr' & _ & _ & _ & Hcost & Hsave); [lra | lra | lra |].
  exists r, r'. split_and!; [exact Hr | exact Hr' | exact Hcost |].
  apply Hsave; [lra | exact Hhdd | exact Hcdd | lra].
Defined.

(** ** get_weather_profile *)

(** A dict filled from the selected rows of a cursor holds, under each key,
    the selected row of that key. *)
Section SelectIntoDict.
Context {K1 V K2 : Type} `{Countable K2}.
Variables (p : K1 * V → bool) (key : K1 * V → K2).

Lemma foldl_select_lookup (rows : list (K1 * V)) (k : K2) (v : V) :
  (∀ r r', r ∈ rows → r' ∈ rows → p r = true → p r' = true →
           key r = key r' → r.2 = r'.2) →
  foldl (λ (md : gmap K2 V) r, if p r then <[key r := r.2]> md else md) ∅ rows !! k
    = Some v
  ↔ ∃ r, r ∈ rows ∧ p r = true ∧ key r = k ∧ r.2 = v.
Proof.
  induction rows as [| x rows IH] using rev_ind; intros Huniq.
  - simpl. rewrite lookup_empty. split; [done |].
    intros (r & Hr & _). by apply elem_of_nil in Hr.
  - rewrite foldl_app. simpl.
    assert (Huniq' : ∀ r r', r ∈ rows → r' ∈ rows → p r = true → p r' = true →
                             key r = key r' → r.2 = r'.2).
    { intros r r' Hr Hr'. apply Huniq; apply elem_of_app; by left. }
    specialize (IH Huniq').
    assert (Hx : x ∈ rows ++ [x]).
    { apply elem_of_app. right. by apply list_elem_of_singleton. }
    destruct (p x) eqn:Hpx.
    + destruct (decide (key x = k)) as [<- | Hne].
      * rewrite lookup_insert_eq. split.
        -- intros [= <-]. by exists x.
        -- intros (r & Hr & Hpr & Hkey & <-). f_equal. by apply Huniq.
      * rewrite lookup_insert_ne by done. rewrite IH. split.
        -- intros (r & Hr & Hrest). exists r. split; [| done].
           apply elem_of_app. by left.
        -- intros (r & Hr & Hpr & Hkey & Hv). exists r. split; [| done].
           apply elem_of_app in Hr as [Hr | Hr]; [done |].
           apply list_elem_of_singleton in Hr. by subst r.
    + rewrite IH. split.
      * intros (r & Hr & Hrest). exists r. split; [| done].
        apply elem_of_app. by left.
      * intros (r & Hr & Hpr & Hkey & Hv). exists r. split; [| done].
        apply elem_of_app in Hr as [Hr | Hr]; [done |].
        apply list_elem_of_singleton in Hr. subst r. congruence.
Qed.

End SelectIntoDict.

(** The monthly dict of a profile: the rows of the location and year. *)
Lemma profile_monthly_lookup (db : Db.t) (location_id : string) (year m : Z) :
  foldl (λ (md : gmap Z Db.monthly_cols) (r : Z * Z * string * Db.monthly_cols),
           if String.eqb r.1.2 location_id && (r.1.1.1 =? year)%Z
           then <[r.1.1.2 := r.2]> md else md)
        ∅ (map_to_list (Db.monthly_stats db)) !! m
  = Db.monthly_stats db !! (year, m, location_id).
Proof.
  apply option_eq. intros v.
  rewrite (foldl_select_lookup
             (λ r : Z * Z * string * Db.monthly_cols,
                String.eqb r.1.2 location_id && (r.1.1.1 =? year)%Z)
             (λ r, r.1.1.2)).
  - split.
    + intros ([[[y m'] loc] row] & Hr & Hp & Hkey & Hv). simpl in *.
      apply elem_of_map_to_list in Hr.
      apply andb_true_iff in Hp as [Hloc Hy].
      apply String.eqb_eq in Hloc. apply Z.eqb_eq in Hy. by subst.
    + intros Hrow. exists ((year, m, location_id), v). simpl.
      split; [by apply elem_of_map_to_list |].
      by rewrite String.eqb_refl, Z.eqb_refl.
  - intros [[[y1 m1] loc1] row1] [[[y2 m2] loc2] row2] Hr1 Hr2 Hp1 Hp2 Hkey.
    simpl in *.
    apply elem_of_map_to_list in Hr1, Hr2.
    apply andb_true_iff in Hp1 as [Hloc1 Hy1], Hp2 as [Hloc2 Hy2].
    apply String.eqb_eq in Hloc1, Hloc2. apply Z.eqb_eq in Hy1, Hy2.
    subst. congruence.
Qed.

(** The event dict of a profile: the rows of the location. *)
Lemma profile_event_lookup (db : Db.t) (location_id t : string) :
  foldl (λ (es : gmap string Db.event_cols) (r : string * string * Db.event_cols),
           if String.eqb r.1.1 location_id then <[r.1.2 := r.2]> es else es)
        ∅ (map_to_list (Db.event_stats db)) !! t
  = Db.event_stats db !! (location_id, t).
Proof.
  apply option_eq. intros v.
  rewrite (foldl_select_lookup
             (λ r : string * string * Db.event_cols, String.eqb r.1.1 location_id)
             (λ r, r.1.2)).
  - split.
    + intros ([[loc t'] row] & Hr & Hp & Hkey & Hv). simpl in *.
      apply elem_of_map_to_list in Hr. apply String.eqb_eq in Hp. by subst.
    + intros Hrow. exists ((location_id, t), v). simpl.
      split; [by apply elem_of_map_to_list |].
      by rewrite String.eqb_refl.
  - intros [[loc1 t1] row1] [[loc2 t2] row2] Hr1 Hr2 Hp1 Hp2 Hkey. simpl in *.
    apply elem_of_map_to_list in Hr1, Hr2.
    apply String.eqb_eq in Hp1, Hp2. subst. congruence.
Qed.

(** [MAX(year)] over the rows of a location. *)
Lemma max_year_fold (location_id : string)
    (rows : list (Z * Z * string * Db.monthly_cols)) (acc : option Z) :
  match
    foldl (λ acc (r : Z * Z * string * Db.monthly_cols),
             if String.eqb r.1.2 location_id then
               match acc with
               | Some y => Some (Z.max y r.1.1.1)
               | None => Some r.1.1.1
               end
             else acc) acc rows
  with
  | Some y =>
      (acc = Some y ∨ ∃ r, r ∈ rows ∧ r.1.2 = location_id ∧ r.1.1.1 = y)
      ∧ (∀ r, r ∈ rows → r.1.2 = location_id → (r.1.1.1 <= y)%Z)
      ∧ (∀ a, acc = Some a → (a <= y)%Z)
  | None => acc = None ∧ ∀ r, r ∈ rows → r.1.2 ≠ location_id
  end.
Proof.
  revert acc. induction rows as [| x rows IH]; intros acc; simpl.
  - destruct acc as [a |].
    + split_and!; [by left | by intros r Hr%elem_of_nil | by intros ? [= <-]].
    + split; [done | by intros r Hr%elem_of_nil].
  - destruct (String.eqb_spec x.1.2 location_id) as [Hx | Hx].
    + specialize (IH (match acc with
                      | Some y => Some (Z.max y x.1.1.1)
                      | None => Some x.1.1.1
                      end)).
      destruct (foldl _ _ rows) as [y |].
      * destruct IH as (Hfrom & Hmax & Hacc). split_and!.
        -- destruct Hfrom as [Hfrom | (r & Hr & Hloc & Hy)].
           ++ destruct acc as [a |]; injection Hfrom as <-.
              ** destruct (Z.max_spec a x.1.1.1) as [[_ ->] | [_ ->]].
                 --- right. exists x. split_and!; [by left | done | done].
                 --- by left.
              ** right. exists x. split_and!; [by left | done | done].
           ++ right. exists r. split_and!; [by right | done | done].
        -- intros r [-> | Hr]%elem_of_cons Hloc; [| by apply Hmax].
           destruct acc as [a |]; specialize (Hacc _ eq_refl); lia.
        -- intros a ->. specialize (Hacc _ eq_refl). lia.
      * destruct IH as [Hnone _]. by destruct acc.
    + specialize (IH acc). destruct (foldl _ _ rows) as [y |].
      * destruct IH as (Hfrom & Hmax & Hacc). split_and!; [| | done].
        -- destruct Hfrom as [Hfrom | (r & Hr & Hloc & Hy)]; [by left |].
           right. exists r. split_and!; [by right | done | done].
        -- intros r [-> | Hr]%elem_of_cons Hloc; [done | by apply Hmax].
      * destruct IH as [Hnone Hrows]. split; [done |].
        intros r [-> | Hr]%elem_of_cons; [done | by apply Hrows].
Qed.

Lemma max_year_spec (db : Db.t) (location_id : string) :
  match max_year db location_id with
  | Some y =>
      (∃ m row, Db.monthly_stats db !! (y, m, location_id) = Some row)
      ∧ (∀ y' m' row', Db.monthly_stats db !! (y', m', location_id) = Some row' →
                       (y' <= y)%Z)
  | None => ∀ y m, Db.monthly_stats db !! (y, m, location_id) = None
  end.
Proof.
  unfold max_year.
  pose proof (max_year_fold location_id (map_to_list (Db.monthly_stats db)) None)
    as Hfold.
  destruct (foldl _ _ _) as [y |].
  - destruct Hfold as ([Hfrom | ([[[y0 m] loc] row] & Hr & Hloc & Hy)] & Hmax & _);
      [done |]. simpl in *. subst. split.
    + exists m, row. by apply elem_of_map_to_list.
    + intros y' m' row' Hrow.
      apply (Hmax ((y', m', location_id), row')); [| done].
      by apply elem_of_map_to_list.
  - destruct Hfold as [_ Hrows]. intros y m.
    destruct (Db.monthly_stats db !! (y, m, location_id)) as [row |] eqn:Hrow; [| done].
    exfalso. apply (Hrows ((y, m, location_id), row)); [| done].
    by apply elem_of_map_to_list.
Qed.

(** X27: the profile of a stored location for an explicit year holds the
    stored location row, under each month the monthly_stats row of that
    location, year and month, and under each event type the event_stats row
    of that location and type; nothing of another location or year enters
    it. *)
Theorem weather_profile_of_a_year (db : Db.t) (now_year : Z) (location_id : string)
    (year : Z) (loc : Db.location_cols) :
  Db.locations db !! location_id = Some loc → year ≠ 0%Z →
  ∃ monthly_data event_stats indicators,
    get_weather_profile db now_year location_id (Some year)
      = Profile loc monthly_data event_stats indicators
    ∧ (∀ m, monthly_data !! m = Db.monthly_stats db !! (year, m, location_id))
    ∧ (∀ t, event_stats !! t = Db.event_stats db !! (location_id, t)).
Proof.
  intros Hloc Hyear. unfold get_weather_profile. rewrite Hloc.
  apply Z.eqb_neq in Hyear. rewrite Hyear.
  eexists _, _, _. split; [reflexivity |]. split.
  - intros m. apply profile_monthly_lookup.
  - intros t. apply profile_event_lookup.
Qed.

Lemma weather_profile_of_a_year_witness :
  ∃ monthly_data event_stats indicators,
    get_weather_profile monthly_only_db 2024 "90210_CA" (Some 2021%Z)
      = Profile beverly_hills monthly_data event_stats indicators
    ∧ monthly_data !! 7%Z = Some july_row
    ∧ monthly_data !! 8%Z = None.
Proof.
  destruct (weather_profile_of_a_year monthly_only_db 2024 "90210_CA" 2021
              beverly_hills)
    as (md & es & ind & Hprofile & Hmonthly & _); [by vm_compute | lia |].
  exists md, es, ind. split; [exact Hprofile |].
  rewrite !Hmonthly. split; by vm_compute.
Defined.

(** X28: without a year (or with year 0) the profile is that of the latest
    year for which the location has a monthly row; when it has none, it is
    the profile of the current year. *)
Theorem weather_profile_default_year (db : Db.t) (now_year : Z)
    (location_id : string) :
  (∀ y m row,
     Db.monthly_stats db !! (y, m, location_id) = Some row →
     (∀ y' m' row', Db.monthly_stats db !! (y', m', location_id) = Some row' →
                    (y' <= y)%Z) →
     y ≠ 0%Z →
     get_weather_profile db now_year location_id None
     = get_weather_profile db now_year location_id (Some y))
  ∧ ((∀ y m, Db.monthly_stats db !! (y, m, location_id) = None) →
     now_year ≠ 0%Z →
     get_weather_profile db now_year location_id None
     = get_weather_profile db now_year location_id (Some now_year))
  ∧ get_weather_profile db now_year location_id (Some 0%Z)
    = get_weather_profile db now_year location_id None.
Proof.
  pose proof (max_year_spec db location_id) as Hmax.
  split_and!.
  - intros y m row Hrow Hlatest Hy.
    unfold get_weather_profile.
    destruct (Db.locations db !! location_id) as [loc |]; [| done].
    destruct (max_year db location_id) as [y0 |].
    + destruct Hmax as ((m0 & row0 & Hrow0) & Hmax).
      assert (y0 = y) as -> by (specialize (Hmax _ _ _ Hrow);
                                specialize (Hlatest _ _ _ Hrow0); lia).
      apply Z.eqb_neq in Hy. by rewrite Hy.
    + by rewrite Hmax in Hrow.
  - intros Hnone Hnow.
    unfold get_weather_profile.
    destruct (Db.locations db !! location_id) as [loc |]; [| done].
    destruct (max_year db location_id) as [y0 |].
    + destruct Hmax as ((m0 & row0 & Hrow0) & _). by rewrite Hnone in Hrow0.
    + apply Z.eqb_neq in Hnow. by rewrite Hnow.
  - done.
Qed.

Lemma filter_nil_inv {A} (f : A → bool) (l : list A) :
  List.filter f l = [] → ∀ x, x ∈ l → f x = false.
Proof.
  intros Hnil x Hx. destruct (f x) eqn:Hfx; [| done].
  assert (Hin : In x (List.filter f l))
    by (apply filter_In; split; [by apply list_elem_of_In | done]).
  rewrite Hnil in Hin. destruct Hin.
Qed.

Lemma elem_of_dict_values `{Countable K} {V} (m : gmap K V) (v : V) :
  v ∈ (snd <$> map_to_list m) ↔ ∃ k, m !! k = Some v.
Proof.
  rewrite list_elem_of_fmap. split.
  - intros ([k v'] & -> & Hkv). exists k. by apply elem_of_map_to_list.
  - intros (k & Hk). exists (k, v). split; [done |]. by apply elem_of_map_to_list.
Qed.

(** X29: in every profile, the heating and cooling flags compare the two
    annual sums strictly, so they are never both set; the extreme-event
    frequency lies between 0 and the number of event types of the profile
    and is 0 exactly when no type has an average severity above 3; the
    severe-weather score adds only scores above 5, hence is never negative
    and is 0 when no type scores above 5; the energy impact is the quotient
    (annual_hdd * 0.5 + annual_cdd * 0.7) / 1000 of the two annual sums that
    the profile reports. *)
Theorem weather_profile_indicators (db : Db.t) (now_year : Z) (location_id : string)
    (year : option Z) (loc : Db.location_cols)
    (monthly_data : gmap Z Db.monthly_cols) (event_stats : gmap string Db.event_cols)
    (indicators : climate_indicators) :
  get_weather_profile db now_year location_id year
    = Profile loc monthly_data event_stats indicators →
  (heating_dominated indicators = true
   ↔ annual_cdd indicators < annual_hdd indicators)
  ∧ (cooling_dominated indicators = true
     ↔ annual_hdd indicators < annual_cdd indicators)
  ∧ heating_dominated indicators && cooling_dominated indicators = false
  ∧ (0 <= extreme_events_frequency indicators <= Z.of_nat (size event_stats))%Z
  ∧ (extreme_events_frequency indicators = 0%Z
     ↔ ∀ t e, event_stats !! t = Some e → Db.avg_severity e <= 3)
  ∧ 0 <= severe_weather_score indicators
  ∧ ((∀ t e, event_stats !! t = Some e → Db.energy_impact_score e <= 5) →
     severe_weather_score indicators = 0)
  ∧ estimated_annual_energy_impact indicators
    = (annual_hdd indicators * 0.5 + annual_cdd indicators * 0.7) / 1000.
Proof.
  unfold get_weather_profile.
  destruct (Db.locations db !! location_id) as [loc' |]; [| done].
  intros [= _ _ Hes Hind]. subst indicators.
  cbn [annual_hdd annual_cdd heating_dominated cooling_dominated
       extreme_events_frequency severe_weather_score
       estimated_annual_energy_impact].
  rewrite !Hes. clear Hes.
  match goal with
  | |- context [Py.sum (Db.total_heating_degree_days <$> ?months)] =>
      set (hdd := Py.sum (Db.total_heating_degree_days <$> months));
      set (cdd := Py.sum (Db.total_cooling_degree_days <$> months))
  end.
  clearbody hdd cdd.
  set (events := snd <$> map_to_list event_stats).
  assert (Hevents : ∀ e, e ∈ events ↔ ∃ t, event_stats !! t = Some e)
    by (intros e; apply elem_of_dict_values).
  assert (Hlen : length events = size event_stats)
    by (unfold events; by rewrite length_fmap, length_map_to_list).
  clearbody events.
  split_and!.
  - destruct (Qlt_le_dec cdd hdd); split; try done. intros. lra.
  - destruct (Qlt_le_dec hdd cdd); split; try done. intros. lra.
  - destruct (Qlt_le_dec cdd hdd), (Qlt_le_dec hdd cdd); try done. lra.
  - lia.
  - pose proof (List.filter_length_le
                  (λ e, if Qlt_le_dec 3 (Db.avg_severity e) then true else false)
                  events). lia.
  - split.
    + intros Hzero t e He.
      assert (Hnil : List.filter
                (λ e, if Qlt_le_dec 3 (Db.avg_severity e) then true else false)
                events = []).
      { apply length_zero_iff_nil. lia. }
      assert (Hin : e ∈ events) by (apply Hevents; by exists t).
      pose proof (filter_nil_inv _ _ Hnil e Hin) as Hf. simpl in Hf.
      by destruct (Qlt_le_dec 3 (Db.avg_severity e)).
    + intros Hall. rewrite filter_nil_all_false; [done |].
      intros e [t He]%Hevents. specialize (Hall t e He).
      destruct (Qlt_le_dec 3 (Db.avg_severity e)); [lra | done].
  - match goal with
    | |- 0 <= Py.sum ?xs =>
        assert (Hge : Py.len xs * 5 <= Py.sum xs);
        [apply py_sum_ge | assert (0 <= Py.len xs)]
    end.
    + apply Forall_fmap, Forall_forall. intros e He. simpl.
      apply list_elem_of_In, filter_In in He as [_ He].
      destruct (Qlt_le_dec 5 (Db.energy_impact_score e)); [lra | done].
    + unfold Py.len. rewrite <- (Zle_Qle 0). lia.
    + lra.
  - intros Hall. rewrite filter_nil_all_false; [done |].
    intros e [t He]%Hevents. specialize (Hall t e He).
    destruct (Qlt_le_dec 5 (Db.energy_impact_score e)); [lra | done].
  - reflexivity.
Qed.

Lemma weather_profile_indicators_witness :
  ∃ loc monthly_data event_stats indicators,
    get_weather_profile
      (preprocess_weather_data [[cold_event; cold_event]] None None Db.empty)
      2024 "90210_CA" None
      = Profile loc monthly_data event_stats indicators
    ∧ heating_dominated indicators = true
    ∧ cooling_dominated indicators = false
    ∧ extreme_events_frequency indicators = 1%Z
    ∧ 0 <= severe_weather_score indicators.
Proof.
  assert (Hprofile : ∃ loc monthly_data event_stats indicators,
            get_weather_profile
              (preprocess_weather_data [[cold_event; cold_event]] None None Db.empty)
              2024 "90210_CA" None
              = Profile loc monthly_data event_stats indicators
            ∧ heating_dominated indicators = true
            ∧ extreme_events_frequency indicators = 1%Z).
  { eexists _, _, _, _. split_and!; by vm_compute. }
  destruct Hprofile as (loc & md & es & ind & Hprofile & Hheating & Hextreme).
  destruct (weather_profile_indicators _ _ _ _ _ _ _ _ Hprofile)
    as (_ & _ & Hboth & _ & _ & Hscore & _).
  exists loc, md, es, ind. split; [exact Hprofile |].
  split_and!; [exact Hheating | | exact Hextreme | exact Hscore].
  rewrite Hheating in Hboth. exact Hboth.
Defined.

(** ** More on find_nearest_location *)

Lemma head_filter_Some {A} (f : A → bool) (l : list A) (x : A) :
  x ∈ l → f x = true →
  ∃ y, head (List.filter f l) = Some y ∧ y ∈ l ∧ f y = true.
Proof.
  intros Hx Hfx.
  assert (Hin : In x (List.filter f l))
    by (apply filter_In; split; [by apply list_elem_of_In | done]).
  destruct (List.filter f l) as [| y ys] eqn:Hfilter; [destruct Hin |].
  exists y. split; [done |].
  assert (Hy : In y (List.filter f l)) by (rewrite Hfilter; by left).
  apply filter_In in Hy as [Hy Hfy]. split; [by apply list_elem_of_In | done].
Qed.

(** X30: for every scan of the locations table, when a stored location
    has the zip code (and, if a state is given, that state), the result is a
    stored location with that zip code (and state); when a state is given
    and no stored location has both, but some stored location is in that
    state, the result is a stored location of that state.  An empty state
    string counts as no state. *)
Theorem find_nearest_location_match (db : Db.t) (rows : list location)
    (zip_code : string) (state : option string) :
  scan_of (Db.locations db) rows →
  (∀ id loc,
     Db.locations db !! id = Some loc → Db.zip_code loc = zip_code →
     (Py.truthy state = true → Some (Db.state loc) = state) →
     ∃ found, find_nearest_location rows zip_code state = Some found
       ∧ Db.locations db !! found.1 = Some found.2
       ∧ Db.zip_code found.2 = zip_code
       ∧ (Py.truthy state = true → Some (Db.state found.2) = state))
  ∧ (∀ id loc,
       Py.truthy state = true →
       (∀ id' loc', Db.locations db !! id' = Some loc' →
                    ¬ (Db.zip_code loc' = zip_code ∧ Some (Db.state loc') = state)) →
       Db.locations db !! id = Some loc → Some (Db.state loc) = state →
       ∃ found, find_nearest_location rows zip_code state = Some found
         ∧ Db.locations db !! found.1 = Some found.2
         ∧ Some (Db.state found.2) = state)
  ∧ (state = Some ""%string →
     find_nearest_location rows zip_code state = find_nearest_location rows zip_code None).
Proof.
  intros Horder.
  assert (Helem : ∀ id loc, (id, loc) ∈ rows ↔ Db.locations db !! id = Some loc)
    by (intros id loc; by apply scan_of_elem).
  split_and!.
  - intros id loc Hloc Hzip Hstate.
    unfold find_nearest_location, locations_matching.
    destruct (Py.truthy state) eqn:Htruthy.
    + destruct (head_filter_Some
                  (λ r : location, String.eqb (Db.zip_code r.2) zip_code
                                   && bool_decide (Some (Db.state r.2) = state))
                  rows (id, loc))
        as ([id' loc'] & -> & Hin & Hf).
      * by apply Helem.
      * simpl. rewrite Hzip, String.eqb_refl. simpl.
        apply bool_decide_eq_true_2. by apply Hstate.
      * exists (id', loc'). simpl in *.
        apply andb_true_iff in Hf as [Hz Hs].
        apply String.eqb_eq in Hz. apply bool_decide_eq_true_1 in Hs.
        split_and!; [done | by apply Helem | done | done].
    + destruct (head_filter_Some
                  (λ r : location, String.eqb (Db.zip_code r.2) zip_code)
                  rows (id, loc))
        as ([id' loc'] & -> & Hin & Hf).
      * by apply Helem.
      * simpl. by rewrite Hzip, String.eqb_refl.
      * exists (id', loc'). simpl in *. apply String.eqb_eq in Hf.
        split_and!; [done | by apply Helem | done | done].
  - intros id loc Htruthy Hnone Hloc Hstate.
    unfold find_nearest_location, locations_matching, locations_in_state.
    rewrite Htruthy.
    rewrite filter_nil_all_false.
    + simpl.
      destruct (head_filter_Some
                  (λ r : location, bool_decide (Some (Db.state r.2) = state))
                  rows (id, loc))
        as ([id' loc'] & -> & Hin & Hf).
      * by apply Helem.
      * simpl. by apply bool_decide_eq_true_2.
      * exists (id', loc'). simpl in *. apply bool_decide_eq_true_1 in Hf.
        split_and!; [done | by apply Helem | done].
    + intros [id' loc'] Hin%Helem. simpl.
      apply not_true_is_false. intros [Hz Hs]%andb_true_iff.
      apply String.eqb_eq in Hz. apply bool_decide_eq_true_1 in Hs.
      by apply (Hnone id' loc').
  - intros ->. reflexivity.
Qed.

Lemma find_nearest_location_match_witness :
  scan_of (Db.locations two_locations_db) two_location_rows
  ∧ ∃ found,
      find_nearest_location two_location_rows "90210" (Some "CA"%string) = Some found
      ∧ Db.locations two_locations_db !! found.1 = Some found.2
      ∧ Db.zip_code found.2 = "90210"%string
      ∧ Some (Db.state found.2) = Some "CA"%string.
Proof.
  assert (Horder : scan_of (Db.locations two_locations_db) two_location_rows).
  { split; [apply (bool_decide_unpack _); by vm_compute | by vm_compute]. }
  split; [exact Horder |].
  destruct (find_nearest_location_match two_locations_db two_location_rows
              "90210" (Some "CA"%string) Horder) as (Hexact & _ & _).
  destruct (Hexact "90210_CA"%string beverly_hills)
    as (found & Hfound & Hstored & Hzip & Hstate);
    [by vm_compute | reflexivity | reflexivity |].
  exists found. split_and!; [exact Hfound | exact Hstored | exact Hzip |].
  by apply Hstate.
Defined.
